(** * codeAssistent: the turn controller, the option formatter and the session driver

    A shallow embedding of [agent.py] (class [CodeAssistantAgent]) and the
    properties its specification states about it.

    Conventions of the embedding.
    - A Python [str] is a list of Unicode code points ([list N]).  Literals of
      the source are written as Rocq strings and decoded from UTF-8 by [lit],
      the way the interpreter decodes the source file.
    - [lower] and [isdigit] work on the ASCII range (other code points are left
      unchanged, resp. are not digits). This is exact for the tests of the
      driver, which compare with, or look for, ASCII words that hold neither
      [k] nor an [i] in last position: the only code points outside ASCII
      whose lower case holds an ASCII letter are U+212A (to [k]) and U+0130
      (to [i] followed by U+0307). Where the lower-cased text itself is
      printed ([handle_direct_command]), [str.lower] on a text with non-ASCII
      characters is a collaborator of the environment. Whitespace ([\s],
      [str.strip], [str.split()]) is the full Unicode table of CPython.
    - An exception value [exn] stands for an instance of [Exception], the class
      the handlers of [agent.py] name; it carries its class name and [str(e)].
      A [KeyboardInterrupt], which no [except Exception] catches, is the
      separate outcome [Interrupt].
    - Everything outside the process (model provider, tools, subprocesses) is an
      oracle over an abstract [World] and the file system; the console and the
      calls made to the outside are recorded, in order, in an event trace.
    - The console is the one of Rich. A text handed to [console.print], alone
      or inside a [Panel], is parsed as markup, and a text that Rich rejects
      makes the call raise [MarkupError]: what is printed with text that comes
      from the data goes through the collaborator [markup_error]. Literals of
      the source, and texts shown through [Markdown] or [Syntax], are printed
      as they are.
    - Files are read and written in text mode on a POSIX system: reading
      translates the line endings, writing does not. *)

From Stdlib Require Import NArith ZArith Lia Bool DecimalFacts DecimalNat.
From Stdlib Require Import Strings.String Strings.Ascii.
From stdpp Require Import gmap list fin_maps.

Local Open Scope N_scope.

(** ** Python strings *)

Abbreviation pystr := (list N).

Module Py.

(** UTF-8 decoding of the bytes of a source literal. [need] continuation bytes
    are still expected for the code point accumulated in [acc]. *)
Fixpoint utf8_go (need : nat) (acc : N) (bs : list N) : pystr :=
  match bs with
  | [] => []
  | b :: r =>
    match need with
    | O => if b <? 128 then b :: utf8_go 0 0 r
           else if b <? 224 then utf8_go 1 (b mod 32) r
           else if b <? 240 then utf8_go 2 (b mod 16) r
           else utf8_go 3 (b mod 8) r
    | S O => (acc * 64 + b mod 64) :: utf8_go 0 0 r
    | S k => utf8_go k (acc * 64 + b mod 64) r
    end
  end.

Definition lit (s : string) : pystr :=
  utf8_go 0 0 (List.map N_of_ascii (list_ascii_of_string s)).

(** [Py_UNICODE_ISSPACE]: the code points matched by [\s] in a [str] pattern,
    removed by [str.strip()] and separating the words of [str.split()]. *)
Definition is_space (c : N) : bool :=
  ((9 <=? c) && (c <=? 13)) || ((28 <=? c) && (c <=? 32))
  || (c =? 133) || (c =? 160) || (c =? 5760)
  || ((8192 <=? c) && (c <=? 8202))
  || (c =? 8232) || (c =? 8233) || (c =? 8239) || (c =? 8287) || (c =? 12288).

Definition is_digit (c : N) : bool := (48 <=? c) && (c <=? 57).

Definition lower_char (c : N) : N :=
  if (65 <=? c) && (c <=? 90) then c + 32 else c.

(** [s.lower()] *)
Definition lower (s : pystr) : pystr := List.map lower_char s.

(** [s.isdigit()]: false on the empty string. *)
Definition isdigit (s : pystr) : bool :=
  match s with [] => false | _ => forallb is_digit s end.

Definition str_eqb (a b : pystr) : bool := bool_decide (a = b).

(** [s.startswith(p)] *)
Fixpoint startswith (p s : pystr) : bool :=
  match p, s with
  | [], _ => true
  | _ :: _, [] => false
  | a :: p', b :: s' => (a =? b) && startswith p' s'
  end.

(** [s.endswith(p)] *)
Definition endswith (p s : pystr) : bool := startswith (rev p) (rev s).

(** [sub in s] *)
Fixpoint contains (sub s : pystr) : bool :=
  startswith sub s ||
  match s with
  | [] => false
  | _ :: s' => contains sub s'
  end.

Fixpoint lstrip (s : pystr) : pystr :=
  match s with
  | [] => []
  | c :: s' => if is_space c then lstrip s' else s
  end.

(** [s.strip()] *)
Definition strip (s : pystr) : pystr := rev (lstrip (rev (lstrip s))).

(** [sep.join(parts)] *)
Fixpoint join (sep : pystr) (parts : list pystr) : pystr :=
  match parts with
  | [] => []
  | [p] => p
  | p :: rest => p ++ sep ++ join sep rest
  end.

(** [s.split(sep)] for a non-empty [sep]: leftmost, non-overlapping
    occurrences. [skip] counts the characters of a separator just recognised
    that are still to be dropped; [cur] is the current piece, reversed. *)
Fixpoint split_go (sep : pystr) (skip : nat) (cur : pystr) (s : pystr) : list pystr :=
  match s with
  | [] => [rev cur]
  | c :: s' =>
    match skip with
    | S k => split_go sep k cur s'
    | O => if startswith sep s
           then rev cur :: split_go sep (length sep - 1) [] s'
           else split_go sep 0 (c :: cur) s'
    end
  end.

Definition split (sep s : pystr) : list pystr := split_go sep 0 [] s.

(** [s.split()]: maximal runs of non-whitespace. *)
Fixpoint words_go (cur : pystr) (s : pystr) : list pystr :=
  match s with
  | [] => match cur with [] => [] | _ => [rev cur] end
  | c :: s' =>
    if is_space c
    then match cur with [] => words_go [] s' | _ => rev cur :: words_go [] s' end
    else words_go (c :: cur) s'
  end.

Definition words (s : pystr) : list pystr := words_go [] s.

(** [str(n)] for a non-negative [int]. *)
Fixpoint digits (d : Decimal.uint) : pystr :=
  match d with
  | Decimal.Nil => []
  | Decimal.D0 d => 48 :: digits d
  | Decimal.D1 d => 49 :: digits d
  | Decimal.D2 d => 50 :: digits d
  | Decimal.D3 d => 51 :: digits d
  | Decimal.D4 d => 52 :: digits d
  | Decimal.D5 d => 53 :: digits d
  | Decimal.D6 d => 54 :: digits d
  | Decimal.D7 d => 55 :: digits d
  | Decimal.D8 d => 56 :: digits d
  | Decimal.D9 d => 57 :: digits d
  end.

Definition str_of_nat (n : nat) : pystr := digits (Nat.to_uint n).

(** What a file opened in text mode gives back when read: the line endings
    CR LF and CR are translated to LF. *)
Fixpoint universal_newlines (s : pystr) : pystr :=
  match s with
  | [] => []
  | c :: r =>
    if c =? 13 then
      10 :: match r with
            | d :: r' => if d =? 10 then universal_newlines r' else universal_newlines r
            | [] => []
            end
    else c :: universal_newlines r
  end.

Definition is_ascii (c : N) : bool := c <? 128.

(** [os.path.join(a, b)] on a POSIX system, for a relative [b]. *)
Definition path_join (a b : pystr) : pystr :=
  match a with
  | [] => b
  | _ => if endswith [47] a then a ++ b else a ++ 47 :: b
  end.

End Py.

Import Py.

Arguments lit _ : simpl never.
Arguments str_of_nat _ : simpl never.

(** ** Messages, exceptions, events *)

(** The argument mapping of a tool call. *)
Abbreviation tool_args := (list (pystr * pystr)).

(** A pending tool call: the dict with keys ["name"], ["args"], ["id"]. *)
Record tool_call := ToolCall {
  tc_name : pystr;
  tc_args : tool_args;
  tc_id : pystr
}.

(** A content block of a message whose content is a list. *)
Inductive block :=
| BlockText (text : pystr)   (* an object with a [text] attribute, or a dict with key ['text'] *)
| BlockStr (s : pystr)       (* a bare [str] *)
| BlockOther.                (* anything else; the formatter skips it *)

Inductive content :=
| CStr (s : pystr)
| CBlocks (blocks : list block).

Inductive message :=
| HumanMessage (c : content)
| AIMessage (c : content) (tool_calls : list tool_call)
| ToolMessage (c : content) (tool_call_id : pystr)
| SystemMessage (c : content).

Definition msg_content (m : message) : content :=
  match m with
  | HumanMessage c | AIMessage c _ | ToolMessage c _ | SystemMessage c => c
  end.

(** [isinstance(m, SystemMessage)] *)
Definition is_system (m : message) : bool :=
  match m with SystemMessage _ => true | _ => false end.

(** Truth value of a message content ([if response.content:]). *)
Definition content_truthy (c : content) : bool :=
  match c with
  | CStr [] | CBlocks [] => false
  | _ => true
  end.

(** An instance of [Exception]: its class name and [str(e)]. *)
Record exn := Exn { exn_class : pystr; exn_str : pystr }.

(** The outcome of a call: a value, an instance of [Exception], or a
    [KeyboardInterrupt]. *)
Inductive result (A : Type) :=
| Ret (a : A)
| Raise (e : exn)
| Interrupt.
Arguments Ret {A} a.
Arguments Raise {A} e.
Arguments Interrupt {A}.

(** What [subprocess.run(..., timeout=10)] does. *)
Inductive run_outcome :=
| Completed (stdout stderr : pystr) (returncode : Z)
| TimeoutExpired
| RunError (e : exn).

(** The observable trace: console output and calls to the outside. *)
Inductive event :=
| Print (s : pystr)                          (* console.print(s) *)
| PrintPanel (body title : pystr)            (* console.print(Panel(body, title=title)) *)
| StatusLine (s : pystr)                     (* with console.status(s) *)
| Invoke (name : pystr) (args : tool_args)   (* tool.invoke(args) *)
| AInvoke (name : pystr) (args : tool_args)  (* await tool.ainvoke(args) *)
| ModelCall (messages : list message)        (* llm_with_tools.invoke(messages) *)
| LlmCall (prompt : pystr)                   (* llm.invoke([HumanMessage(prompt)]) *)
| Spawn (argv : list pystr)                  (* subprocess.run(argv, ...) *)
| ReadFile (path : pystr)
| WriteFile (path data : pystr)
| PrintArgs (args : tool_args)               (* console.print(f"[dim]Arguments: {tool_args}[/dim]\n") *)
| PrintTraceback (e : exn)                   (* console.print(f"[dim]{traceback.format_exc()}[/dim]") *)
| Display (screen : pystr)                   (* one of the screens: help, tools, advanced help *)
| ShowFile (path content : pystr)            (* show_file_with_syntax(path, content): a Syntax
                                                in a Panel whose title holds the path *)
| DirectAction (action : pystr) (args : list pystr). (* !read, !edit, !scan *)

(** ** The numbered-option formatter: [_format_with_numbers] *)

(** The character class of the pattern, [[‚Ä¢\-\*]], exactly as the source
    file spells it: U+201A, U+00C4, U+00A2, [-] and [*]. *)
Definition bullet_class : pystr := lit "‚Ä¢-*".

Definition is_bullet (c : N) : bool := bool_decide (c ∈ bullet_class).

(** Longest prefix of whitespace, and the rest. *)
Fixpoint span_space (s : pystr) : pystr * pystr :=
  match s with
  | [] => ([], [])
  | c :: s' =>
    if is_space c
    then let '(ws, r) := span_space s' in (c :: ws, r)
    else ([], s)
  end.

(** [re.match(pattern, line)] on a line without newline, returning
    [(group(1), group(2))]. The pattern of the source reads, part by part:
    [^], group 1 = [\s*], the class [[‚Ä¢\-\*]], [\s+], group 2 = [.+], [$].
    Group 1 is greedy and the class holds no whitespace, so it is the whole
    leading whitespace. [\s+] is greedy as well: it takes all the whitespace
    after the bullet, unless nothing would be left for group 2, in which case
    it gives back its last character. *)
Definition bullet_match (line : pystr) : option (pystr * pystr) :=
  let '(indent, rest) := span_space line in
  match rest with
  | b :: after =>
    if is_bullet b then
      match span_space after with
      | ([], _) => None
      | (_ :: _, c :: text) => Some (indent, c :: text)
      | ([_], []) => None
      | (_ :: w :: ws, []) => Some (indent, [List.last ws w])
      end
    else None
  | [] => None
  end.

Abbreviation options := (gmap pystr pystr).

(** The numbered line [f"{indent}**{option_num}.** {content}"]. *)
Definition numbered_line (indent : pystr) (option_num : nat) (text : pystr) : pystr :=
  indent ++ lit "**" ++ str_of_nat option_num ++ lit ".** " ++ text.

(** The [for line in lines] loop: [option_num] is the running counter,
    [opts] the map built so far. *)
Fixpoint number_lines (lines : list pystr) (option_num : nat) (opts : options)
  : list pystr * options :=
  match lines with
  | [] => ([], opts)
  | line :: rest =>
    match bullet_match line with
    | Some (indent, text) =>
      let '(formatted, opts') :=
        number_lines rest (S option_num) (<[str_of_nat option_num := text]> opts) in
      (numbered_line indent option_num text :: formatted, opts')
    | None =>
      let '(formatted, opts') := number_lines rest option_num opts in
      (line :: formatted, opts')
    end
  end.

(** The text of a content: a list of blocks is flattened, one block per line. *)
Definition block_text (b : block) : option pystr :=
  match b with
  | BlockText t => Some t
  | BlockStr s => Some s
  | BlockOther => None
  end.

Definition content_text (c : content) : pystr :=
  match c with
  | CStr s => s
  | CBlocks blocks => join [10] (omap block_text blocks)
  end.

Definition tip (n : nat) : pystr :=
  [10; 10] ++ lit "*Tip: Type a number (1-" ++ str_of_nat n ++ lit ") to select an option*".

(** [_format_with_numbers(text)]: the returned text and the new value of
    [self.last_options]. The previous map is discarded ([self.last_options = {}]). *)
Definition _format_with_numbers (text : content) (previous : options) : pystr * options :=
  let '(formatted, opts) := number_lines (split [10] (content_text text)) 1 ∅ in
  let result := join [10] formatted in
  (if bool_decide (opts = ∅) then result else result ++ tip (size opts), opts).

(** ** The agent, its state and its environment *)

Section Agent.

Context {World : Type}.

(** What lies outside the process: an opaque world (network, model provider,
    clock, random source) and the file system, path to content. *)
Record outside := Outside {
  world : World;
  files : gmap pystr pystr
}.

(** A tool descriptor. [invoke] and [ainvoke] return [str(result)] or raise;
    [is_mcp] tells whether the tool is a member of [self.mcp_tools]. *)
Record Tool := {
  name : pystr;
  is_mcp : bool;
  invoke : tool_args -> outside -> result pystr * outside;
  ainvoke : tool_args -> outside -> result pystr * outside
}.

(** The collaborators of the agent. *)
Record Env := {
  tools : list Tool;                       (* self.tools, in registration order *)
  llm_with_tools :                         (* self.llm_with_tools.invoke: content and tool calls of the AIMessage *)
    list message -> outside -> result (content * list tool_call) * outside;
  llm : pystr -> outside -> result pystr * outside;  (* self.llm.invoke([HumanMessage(p)]).content *)
  subprocess_run : list pystr -> outside -> run_outcome * outside;
  push_folder : tool_args -> outside -> result pystr * outside;
  list_my_repos :                          (* tool/github_list.py: the whole body is inside
                                              try ... except Exception, which returns the
                                              text of the error *)
    tool_args -> outside -> pystr * outside;
  getcwd : outside -> pystr;
  urandom_hex : outside -> pystr * outside; (* os.urandom(4).hex() *)
  direct_other :                           (* the bodies of !read, !edit and !scan *)
    pystr -> list pystr -> outside -> result unit * outside;
  markup_error :                           (* Rich: what console.print raises for this
                                              renderable, if it rejects its markup *)
    event -> option exn;
  unicode_lower : pystr -> pystr;          (* str.lower() on a text with non-ASCII characters *)
  open_error : pystr -> exn                (* the FileNotFoundError of open(path): its text
                                              quotes the path with repr *)
}.

Context (env : Env).

(** The state of the process and of what it talks to. *)
Record state := State {
  ext : outside;
  trace : list event;
  last_options : options;                        (* self.last_options *)
  checkpoints : gmap pystr (list message)        (* the conversation log of each thread id *)
}.

Definition set_ext (o : outside) (s : state) : state :=
  State o (trace s) (last_options s) (checkpoints s).
Definition add_trace (ev : event) (s : state) : state :=
  State (ext s) (trace s ++ [ev]) (last_options s) (checkpoints s).
Definition set_last_options (o : options) (s : state) : state :=
  State (ext s) (trace s) o (checkpoints s).
Definition set_checkpoints (c : gmap pystr (list message)) (s : state) : state :=
  State (ext s) (trace s) (last_options s) c.
Definition set_files (f : gmap pystr pystr) (s : state) : state :=
  set_ext (Outside (world (ext s)) f) s.

(** Computations: state passing with exceptions; the state reached when an
    exception is raised is kept. *)
Definition M (A : Type) : Type := state -> result A * state.

Definition ret {A} (a : A) : M A := fun s => (Ret a, s).

Definition raise {A} (e : exn) : M A := fun s => (Raise e, s).

Definition interrupt {A} : M A := fun s => (Interrupt, s).

Definition bind {A B} (m : M A) (k : A -> M B) : M B :=
  fun s =>
    match m s with
    | (Ret a, s') => k a s'
    | (Raise e, s') => (Raise e, s')
    | (Interrupt, s') => (Interrupt, s')
    end.

(** [try: m  except Exception as e: h e]. What the handler raises goes on. *)
Definition try_except {A} (m : M A) (h : exn -> M A) : M A :=
  fun s =>
    match m s with
    | (Ret a, s') => (Ret a, s')
    | (Raise e, s') => h e s'
    | (Interrupt, s') => (Interrupt, s')
    end.

(** [try: m  except KeyboardInterrupt: k  except Exception as e: h e] *)
Definition try_except_interrupt {A} (m : M A) (k : M A) (h : exn -> M A) : M A :=
  fun s =>
    match m s with
    | (Ret a, s') => (Ret a, s')
    | (Raise e, s') => h e s'
    | (Interrupt, s') => k s'
    end.

(** An event that cannot fail: a call to the outside being made, or a
    literal of the source being printed. *)
Definition emit (ev : event) : M unit := fun s => (Ret tt, add_trace ev s).

(** [console.print] of a renderable built from data: Rich parses the texts as
    markup and raises when it rejects them; nothing is shown then. *)
Definition console_print (ev : event) : M unit :=
  fun s =>
    match markup_error env ev with
    | None => (Ret tt, add_trace ev s)
    | Some e => (Raise e, s)
    end.

Definition call {A} (f : outside -> result A * outside) : M A :=
  fun s => let '(r, o) := f (ext s) in (r, set_ext o s).

Definition get {A} (f : state -> A) : M A := fun s => (Ret (f s), s).

Definition modify (f : state -> state) : M unit := fun s => (Ret tt, f s).

End Agent.

Arguments outside : clear implicits.
Arguments Tool : clear implicits.
Arguments Env : clear implicits.
Arguments state : clear implicits.
Arguments M : clear implicits.

Notation "'let*' x ':=' m 'in' k" := (bind m (fun x => k))
  (at level 10, x pattern, m at level 100, k at level 200).
Notation "m ';;;' k" := (bind m (fun _ => k))
  (at level 100, k at level 200, right associativity).

(** ** The turn controller: [model_response], [tool_use], [check_tool_use] *)

Definition system_message : message :=
  SystemMessage (CStr (lit "You MUST call tools. For web search: use search_web(query). For docs: use search_langchain_docs, search_langgraph_docs, search_mcp_docs. For GitHub: use push_folder or quick_push_file. CALL TOOLS DIRECTLY.")).

(** [messages[-10:]] when [len(messages) > 10]. *)
Definition trim (messages : list message) : list message :=
  if Nat.ltb 10 (length messages)
  then skipn (length messages - 10) messages
  else messages.

(** The system message is put in front, or replaces a leading system message.
    [messages[0]] on an empty list raises [IndexError]. *)
Definition with_system (messages : list message) : result (list message) :=
  if Nat.eqb (length messages) 1 then Ret (system_message :: messages)
  else
    match messages with
    | [] => Raise (Exn (lit "IndexError") (lit "list index out of range"))
    | first :: others =>
      if is_system first then Ret (system_message :: others)
      else Ret (system_message :: messages)
    end.

Definition publish_keywords : list pystr :=
  [lit "push"; lit "upload"; lit "github"; lit "repo"].

Definition directive : pystr :=
  [10; 10] ++ lit "[SYSTEM: You MUST call the appropriate tool NOW. Do not respond with text.]".

(** [l[-1] = x] on a non-empty list. *)
Definition set_last {A} (l : list A) (x : A) : list A :=
  match l with
  | [] => []
  | _ => removelast l ++ [x]
  end.

(** The rewriting of [messages[-1]] inside the [with console.status] block.
    [last_msg.lower()] on a list content raises [AttributeError]. *)
Definition force_tool_use (messages : list message) : result (list message) :=
  match last messages with
  | None => Raise (Exn (lit "IndexError") (lit "list index out of range"))
  | Some m =>
    match msg_content m with
    | CStr last_msg =>
      if existsb (fun word => contains word (lower last_msg)) publish_keywords
      then Ret (set_last messages (HumanMessage (CStr (last_msg ++ directive))))
      else Ret messages
    | CBlocks _ =>
      Raise (Exn (lit "AttributeError") (lit "'list' object has no attribute 'lower'"))
    end
  end.

(** The message list handed to the model for a given log. *)
Definition prepare_messages (messages : list message) : result (list message) :=
  match with_system (trim messages) with
  | Ret with_sys => force_tool_use with_sys
  | Raise e => Raise e
  | Interrupt => Interrupt
  end.

Section Controller.

Context {World : Type} (env : Env World).

Definition lift {A} (r : result A) : M World A :=
  match r with
  | Ret a => ret a
  | Raise e => raise e
  | Interrupt => interrupt
  end.

(** [model_response(state)]: the messages to append to the log. The list is
    cut and given its system message first; the status line is up while the
    last message is inspected and the model is called. The answer is shown
    through [Markdown], which is no markup. *)
Definition model_response (messages : list message) : M World (list message) :=
  let* with_sys := lift (with_system (trim messages)) in
  emit (StatusLine (lit "[bold cyan]Thinking...")) ;;;
  let* to_send := lift (force_tool_use with_sys) in
  emit (ModelCall to_send) ;;;
  let* response := call (llm_with_tools env to_send) in
  let '(text, tool_calls) := response in
  (if content_truthy text then
     let* previous := get last_options in
     let '(formatted_content, opts) := _format_with_numbers text previous in
     modify (set_last_options opts) ;;;
     emit (PrintPanel formatted_content (lit "[bold cyan]Assistant[/bold cyan]"))
   else ret tt) ;;;
  ret [AIMessage text tool_calls].

(** [next((t for t in self.tools if t.name == tool_name), None)] *)
Definition find_tool (tool_name : pystr) : option (Tool World) :=
  List.find (fun t => str_eqb (name t) tool_name) (tools env).

(** The body of the loop of [tool_use] for one call: the tool message it
    appends to [tool_messages]. *)
Definition run_tool_call (tc : tool_call) : M World message :=
  let tool_name := tc_name tc in
  let tool_args := tc_args tc in
  console_print env
    (Print ([10] ++ lit "[bold yellow]Executing tool:[/bold yellow] [magenta]"
            ++ tool_name ++ lit "[/magenta]")) ;;;
  console_print env (PrintArgs tool_args) ;;;
  match find_tool tool_name with
  | Some tool =>
    try_except
      (let* result :=
         (if is_mcp tool
          then emit (AInvoke tool_name tool_args) ;;; call (ainvoke tool tool_args)
          else emit (Invoke tool_name tool_args) ;;; call (invoke tool tool_args)) in
       console_print env
         (PrintPanel result
            (lit "[bold green]Tool Result: " ++ tool_name ++ lit "[/bold green]")) ;;;
       ret (ToolMessage (CStr result) (tc_id tc)))
      (fun e =>
         let error_msg := lit "Tool error: " ++ exn_str e in
         console_print env (Print (lit "[bold red]" ++ error_msg ++ lit "[/bold red]")) ;;;
         ret (ToolMessage (CStr error_msg) (tc_id tc)))
  | None =>
    let error_msg := lit "Tool " ++ tool_name ++ lit " not found" in
    console_print env (Print (lit "[bold red]" ++ error_msg ++ lit "[/bold red]")) ;;;
    ret (ToolMessage (CStr error_msg) (tc_id tc))
  end.

Fixpoint tool_use_loop (tool_calls : list tool_call) (tool_messages : list message)
  : M World (list message) :=
  match tool_calls with
  | [] => ret tool_messages
  | tc :: rest =>
    let* m := run_tool_call tc in
    tool_use_loop rest (tool_messages ++ [m])
  end.

(** [last_message.tool_calls]; only an [AIMessage] has the attribute. *)
Definition pending_tool_calls (messages : list message) : result (list tool_call) :=
  match last messages with
  | None => Raise (Exn (lit "IndexError") (lit "list index out of range"))
  | Some (AIMessage _ tool_calls) => Ret tool_calls
  | Some _ => Raise (Exn (lit "AttributeError") (lit "object has no attribute 'tool_calls'"))
  end.

(** [tool_use(state)]: the tool messages to append to the log. *)
Definition tool_use (messages : list message) : M World (list message) :=
  let* tool_calls := lift (pending_tool_calls messages) in
  tool_use_loop tool_calls [].

(** [check_tool_use(state)]: [true] for ["tool_use"], [false] for [END]. *)
Definition check_tool_use (messages : list message) : bool :=
  match last messages with
  | Some (AIMessage _ (_ :: _)) => true
  | _ => false
  end.

(** *** The graph runtime

    [self.agent.ainvoke({"messages": [m]}, config)] is run by the graph
    library, not by the repository. Its part is modelled from
    [_setup_workflow]: the input is appended to the log of the thread, the
    entry point is [model_response], the conditional edge [check_tool_use]
    leads to [tool_use] or ends the turn, [tool_use] leads back to
    [model_response], the messages a node returns are appended to the log, and
    a run longer than the recursion limit raises. *)

Inductive node := ModelResponse | ToolUse.

Definition recursion_limit : nat := 25.

Definition log_of (thread_id : pystr) : M World (list message) :=
  get (fun s => default [] (checkpoints s !! thread_id)).

Definition append_log (thread_id : pystr) (new : list message) : M World unit :=
  modify (fun s =>
    set_checkpoints
      (<[thread_id := default [] (checkpoints s !! thread_id) ++ new]> (checkpoints s)) s).

Fixpoint run_graph (steps : nat) (at_node : node) (thread_id : pystr) : M World unit :=
  match steps with
  | O => raise (Exn (lit "GraphRecursionError") (lit "Recursion limit reached"))
  | S steps' =>
    let* messages := log_of thread_id in
    match at_node with
    | ModelResponse =>
      let* out := model_response messages in
      append_log thread_id out ;;;
      if check_tool_use (messages ++ out)
      then run_graph steps' ToolUse thread_id
      else ret tt
    | ToolUse =>
      let* out := tool_use messages in
      append_log thread_id out ;;;
      run_graph steps' ModelResponse thread_id
    end
  end.

Definition agent_ainvoke (input : list message) (thread_id : pystr) : M World unit :=
  append_log thread_id input ;;;
  run_graph recursion_limit ModelResponse thread_id.

End Controller.

(** ** Direct commands: [run_code], [fix_errors_loop], [handle_direct_command] *)

Section Commands.

Context {World : Type} (env : Env World).

(** [run_code(file_path)]: the three handlers of the [try] are the three
    branches on what [subprocess.run] does. *)
Definition run_code (file_path : pystr) : M World (pystr * pystr * Z) :=
  if endswith (lit ".py") file_path then
    emit (Spawn [lit "python"; file_path]) ;;;
    fun s =>
      let '(outcome, o) := subprocess_run env [lit "python"; file_path] (ext s) in
      let s' := set_ext o s in
      match outcome with
      | Completed stdout stderr returncode => (Ret (stdout, stderr, returncode), s')
      | TimeoutExpired => (Ret ([], lit "Execution timeout", 1%Z), s')
      | RunError e => (Ret ([], exn_str e, 1%Z), s')
      end
  else ret ([], lit "Unsupported file type", 1%Z).

(** [open(path, 'r', encoding='utf-8').read()]: the text of the file with its
    line endings translated. *)
Definition read_file (path : pystr) : M World pystr :=
  emit (ReadFile path) ;;;
  let* found := get (fun s => files (ext s) !! path) in
  match found with
  | Some data => ret (universal_newlines data)
  | None => raise (open_error env path)
  end.

(** [open(path, 'w', encoding='utf-8').write(data)] *)
Definition write_file (path data : pystr) : M World unit :=
  emit (WriteFile path data) ;;;
  modify (fun s => set_files (<[path := data]> (files (ext s))) s).

(** [l[1]] *)
Definition second (l : list pystr) : pystr := nth 1 l [].

(** The extraction of the code from the answer of the model. *)
Definition extract_code (fixed_code : pystr) : pystr :=
  if contains (lit "```python") fixed_code
  then strip (nth 0 (split (lit "```") (second (split (lit "```python") fixed_code))) [])
  else if contains (lit "```") fixed_code
  then strip (nth 0 (split (lit "```") (second (split (lit "```") fixed_code))) [])
  else fixed_code.

Definition fix_prompt (stderr data : pystr) : pystr :=
  lit "Fix this error:" ++ [10; 10] ++ lit "ERROR:" ++ [10] ++ stderr ++ [10; 10]
  ++ lit "CODE:" ++ [10] ++ data ++ [10; 10] ++ lit "Provide ONLY corrected code.".

Definition max_retries : nat := 3.

(** The start of the line printed before an attempt; the source spells its
    emblem with the four characters U+F8FF, [ü], [î], [Ñ]. *)
Definition attempt_banner : pystr := lit "[yellow]" ++ [63743] ++ lit "üîÑ Attempt ".

(** The part of an attempt that follows a failed run: ask for a fix, back the
    file up, overwrite it. *)
Definition apply_fix (file_path stderr : pystr) : M World unit :=
  console_print env (PrintPanel stderr (lit "Error")) ;;;
  let* data := read_file file_path in
  emit (StatusLine (lit "[cyan]Fixing...")) ;;;
  emit (LlmCall (fix_prompt stderr data)) ;;;
  let* answer := call (llm env (fix_prompt stderr data)) in
  let fixed_code := extract_code answer in
  write_file (file_path ++ lit ".backup") data ;;;
  write_file file_path fixed_code ;;;
  emit (Print (lit "[green]‚úì Applied fix[/green]")).

(** [for attempt in range(1, self.max_retries + 1)]: [remaining] attempts are
    left, the next one is numbered [attempt]. The line that announces the
    attempt is a literal but for the two numbers. *)
Fixpoint fix_attempts (remaining attempt : nat) (file_path : pystr) : M World bool :=
  match remaining with
  | O =>
    emit (Print (lit "[red]‚ùå Max attempts reached[/red]")) ;;;
    ret false
  | S remaining' =>
    emit (Print ([10] ++ attempt_banner ++ str_of_nat attempt ++ lit "/"
                 ++ str_of_nat max_retries ++ lit "[/yellow]")) ;;;
    let* ran := run_code file_path in
    let '(stdout, stderr, code) := ran in
    if Z.eqb code 0 then
      emit (Print (lit "[green]‚úì Code executed successfully![/green]")) ;;;
      console_print env (PrintPanel stdout (lit "Output")) ;;;
      ret true
    else
      apply_fix file_path stderr ;;;
      fix_attempts remaining' (S attempt) file_path
  end.

Definition fix_errors_loop (file_path : pystr) : M World bool :=
  fix_attempts max_retries 1 file_path.

(** [parts[0].lower()] *)
Definition lowered (word : pystr) : pystr :=
  if forallb is_ascii word then lower word else unicode_lower env word.

(** [handle_direct_command(cmd)] *)
Definition handle_direct_command (cmd : pystr) : M World unit :=
  match words cmd with
  | [] => ret tt
  | first :: args =>
    let action := lowered first in
    let has_arg := negb (bool_decide (args = [])) in
    if str_eqb action (lit "read") && has_arg then
      emit (DirectAction action args) ;;; call (direct_other env action args)
    else if str_eqb action (lit "run") && has_arg then
      let* ran := run_code (nth 0 args []) in
      let '(stdout, stderr, code) := ran in
      if Z.eqb code 0
      then console_print env (PrintPanel stdout (lit "‚úì Output"))
      else console_print env (PrintPanel stderr (lit "‚ùå Error"))
    else if str_eqb action (lit "fix") && has_arg then
      let* _ := fix_errors_loop (nth 0 args []) in ret tt
    else if str_eqb action (lit "edit") && has_arg then
      emit (DirectAction action args) ;;; call (direct_other env action args)
    else if str_eqb action (lit "scan") then
      emit (DirectAction action args) ;;; call (direct_other env action args)
    else if str_eqb action (lit "repos") then
      emit (Invoke (lit "list_my_repos") []) ;;;
      let* _ := call (fun o => let '(listing, o') := list_my_repos env [] o in
                               (Ret listing, o')) in
      ret tt
    else if str_eqb action (lit "help") then
      emit (Display (lit "advanced help"))
    else
      console_print env
        (Print (lit "[yellow]Unknown command: " ++ action ++ lit "[/yellow]")) ;;;
      emit (Print (lit "[dim]Try: !help[/dim]"))
  end.

End Commands.

(** ** The session driver: [run] *)

(** The options installed by [_display_quick_start]. *)
Definition quick_start_options : options :=
  <[lit "1" := lit "List all files in current directory"]>
  (<[lit "2" := lit "Show available tools"]>
  (<[lit "3" := lit "Scan entire project"]>
  (<[lit "4" := lit "Read the README.md file"]>
  (<[lit "5" := lit "Show advanced help"]> ∅)))).

(** What [Prompt.ask] does in one iteration: it returns a line, or raises
    [EOFError] or [KeyboardInterrupt]. *)
Inductive prompt_event :=
| Line (user_input : pystr)
| PromptAbort.

Inductive control := Continue | Break.

(** Whether the loop has left ([Stopped]) or is back at the prompt. *)
Inductive session := AtPrompt | Stopped.

(** The substitution of a selected option: the text that replaces the input,
    if any. *)
Definition selected_option (opts : options) (user_input : pystr) : option pystr :=
  if isdigit (strip user_input) then opts !! strip user_input else None.

Definition goodbye : event := Print ([10] ++ lit "[bold cyan]Goodbye![/bold cyan]" ++ [10]).

Definition push_folder_args (folder_path : pystr) : tool_args :=
  [(lit "owner", lit "Abhitheshek");
   (lit "repo", lit "terminalcodeAssistant");
   (lit "folder_path", folder_path);
   (lit "branch", lit "main");
   (lit "message", lit "Upload codeAssistent folder")].

Section Driver.

Context {World : Type} (env : Env World).

(** The branch of [run] that pushes a folder without asking the model. *)
Definition push_folder_directly (user_input : pystr) : M World unit :=
  let folder_name :=
    if contains (lit "codeassistent") (lower user_input)
    then lit "codeAssistent" else lit "." in
  let* cwd := get (fun s => getcwd env (ext s)) in
  let folder_path :=
    if str_eqb folder_name (lit ".") then cwd else path_join cwd folder_name in
  emit (Print ([10] ++ lit "[bold yellow]Executing:[/bold yellow] push_folder")) ;;;
  console_print env (Print (lit "[dim]Folder: " ++ folder_path ++ lit "[/dim]" ++ [10])) ;;;
  emit (StatusLine (lit "[bold cyan]Pushing to GitHub...")) ;;;
  emit (Invoke (lit "push_folder") (push_folder_args folder_path)) ;;;
  let* result := call (push_folder env (push_folder_args folder_path)) in
  console_print env (PrintPanel result (lit "[bold green]Result[/bold green]")).

(** What follows the special commands: option selection, then dispatch. *)
Definition dispatch (thread_id : pystr) (user_input : pystr) : M World unit :=
  let* opts := get last_options in
  let* user_input :=
    match selected_option opts user_input with
    | Some selected =>
      console_print env (Print (lit "[green]Selected:[/green] " ++ selected ++ [10])) ;;;
      ret selected
    | None => ret user_input
    end in
  if startswith (lit "!") user_input then
    handle_direct_command env (skipn 1 user_input)
  else if contains (lit "my") (lower user_input)
          && contains (lit "repo") (lower user_input)
          && contains (lit "list") (lower user_input) then
    emit (Print ([10] ++ lit "[bold yellow]Fetching your repositories...[/bold yellow]" ++ [10])) ;;;
    emit (Invoke (lit "list_my_repos") []) ;;;
    let* _ := call (fun o => let '(listing, o') := list_my_repos env [] o in
                             (Ret listing, o')) in
    ret tt
  else if contains (lit "push") (lower user_input)
          && contains (lit "folder") (lower user_input) then
    push_folder_directly user_input
  else
    agent_ainvoke env [HumanMessage (CStr user_input)] thread_id.

(** The body of the outer [try] for a line read from the prompt: whether the
    loop goes on, and the thread id ([config]) it goes on with. *)
Definition turn (thread_id : pystr) (user_input : pystr) : M World (control * pystr) :=
  if bool_decide (strip user_input = []) then ret (Continue, thread_id)
  else if bool_decide (lower user_input ∈ [lit "exit"; lit "quit"; lit "q"]) then
    emit goodbye ;;; ret (Break, thread_id)
  else if str_eqb (lower user_input) (lit "help") then
    emit (Display (lit "help")) ;;; ret (Continue, thread_id)
  else if str_eqb (lower user_input) (lit "tools") then
    console_print env (Display (lit "tools")) ;;; ret (Continue, thread_id)
  else if str_eqb (lower user_input) (lit "clear") then
    let* hex := call (fun o => let '(h, o') := urandom_hex env o in (Ret h, o')) in
    emit (Print (lit "[green]‚úì Conversation history cleared[/green]")) ;;;
    ret (Continue, lit "session_" ++ hex)
  else
    dispatch thread_id user_input ;;; ret (Continue, thread_id).

(** [except Exception as e] of the outer [try]: the text of the exception
    and the traceback are printed as markup. *)
Definition report (thread_id : pystr) (e : exn) : M World (control * pystr) :=
  console_print env (Print (lit "[bold red]Error: " ++ exn_str e ++ lit "[/bold red]")) ;;;
  console_print env (PrintTraceback e) ;;;
  emit (Print (lit "[yellow]Continuing... Type 'exit' to quit[/yellow]")) ;;;
  ret (Continue, thread_id).

(** One iteration of [while True]. What [Prompt.ask] raises is the event
    [PromptAbort]. A [KeyboardInterrupt] in the rest of the body ends the
    loop with the farewell; an [Exception] is reported, and what the report
    itself raises leaves the loop. *)
Definition iteration (thread_id : pystr) (ev : prompt_event) : M World (control * pystr) :=
  emit (Print []) ;;;
  match ev with
  | PromptAbort => emit goodbye ;;; ret (Break, thread_id)
  | Line user_input =>
    try_except_interrupt (turn thread_id user_input)
      (emit goodbye ;;; ret (Break, thread_id))
      (report thread_id)
  end.

(** [run()] against the prompt events still to come: the session is back at
    the prompt, or stopped; an exception that leaves the loop leaves [run]. *)
Fixpoint run_loop (inputs : list prompt_event) (thread_id : pystr) : M World session :=
  match inputs with
  | [] => ret AtPrompt
  | ev :: rest =>
    let* next := iteration thread_id ev in
    match next with
    | (Continue, thread_id') => run_loop rest thread_id'
    | (Break, _) => ret Stopped
    end
  end.

Definition run (inputs : list prompt_event) : M World session :=
  run_loop inputs (lit "default_session").

End Driver.

(** ** Interactive editing: [edit_file_interactive]

    In [handle_direct_command] the body of [!edit] is the collaborator
    [direct_other]; here is that body itself, against the answers the prompts
    return. *)

(** The index of a slice bound in a list of length [len]: a negative bound
    counts from the end, and every bound is clipped to [0..len]. *)
Definition slice_index (len : nat) (i : Z) : nat :=
  if (i <? 0)%Z then Z.to_nat (Z.max 0 (i + Z.of_nat len))
  else Z.to_nat (Z.min i (Z.of_nat len)).

(** [l[lo:hi] = new]: a stop before the start denotes the empty slice at the
    start. *)
Definition assign_slice {A} (l : list A) (lo hi : Z) (new : list A) : list A :=
  let start := slice_index (length l) lo in
  let stop := Nat.max start (slice_index (length l) hi) in
  take start l ++ new ++ drop stop l.

(** What the prompts return: the choice among ["1"] to ["4"] (the prompt
    accepts nothing else) and, for ["1"] and ["2"], the answers that follow;
    [BadNumber] is a line number that [int()] rejects. *)
Inductive edit_answers :=
| ReplaceAll (new_content : pystr)
| ReplaceLines (start stop : Z) (new_lines : pystr)
| BadNumber (e : exn)
| OtherChoice.

(** [lines[start-1:end] = [new_lines]] on the lines of [content]. *)
Definition replace_lines (content : pystr) (start stop : Z) (new_lines : pystr) : pystr :=
  join [10] (assign_slice (split [10] content) (start - 1) stop [new_lines]).

Section Editing.

Context {World : Type} (env : Env World).

Definition edit_file_interactive (file_path : pystr) (answers : edit_answers)
  : M World unit :=
  let* found := get (fun s => files (ext s) !! file_path) in
  match found with
  | None => console_print env (Print (lit "[red]File not found: " ++ file_path ++ lit "[/red]"))
  | Some stored =>
    emit (ReadFile file_path) ;;;
    let content := universal_newlines stored in
    console_print env (ShowFile file_path content) ;;;
    emit (Print ([10] ++ lit "[cyan]Edit:[/cyan] 1=Replace all 2=Replace lines 3=Insert 4=Delete")) ;;;
    match answers with
    | ReplaceAll new_content =>
      write_file file_path new_content ;;;
      emit (Print (lit "[green]‚úì Updated[/green]"))
    | ReplaceLines start stop new_lines =>
      write_file file_path (replace_lines content start stop new_lines) ;;;
      emit (Print (lit "[green]‚úì Updated[/green]"))
    | BadNumber e => raise e
    | OtherChoice => ret tt
    end
  end.

End Editing.

(** ** Sample collaborators

    Concrete tools and environments, over a one-point world, on which the
    operations are evaluated below. *)

Module Sample.

Definition search_web : Tool unit := {|
  name := lit "search_web";
  is_mcp := false;
  invoke := fun _ o => (Ret (lit "3 results"), o);
  ainvoke := fun _ o => (Ret (lit "3 results"), o)
|}.

Definition read_file_tool : Tool unit := {|
  name := lit "read_file";
  is_mcp := false;
  invoke := fun _ o => (Raise (Exn (lit "FileNotFoundError") (lit "no such file: notes.txt")), o);
  ainvoke := fun _ o => (Raise (Exn (lit "FileNotFoundError") (lit "no such file: notes.txt")), o)
|}.

(** A tool whose result quotes a page that holds a closing tag. *)
Definition read_webpage : Tool unit := {|
  name := lit "read_webpage";
  is_mcp := false;
  invoke := fun _ o => (Ret (lit "see [/url]"), o);
  ainvoke := fun _ o => (Ret (lit "see [/url]"), o)
|}.

(** A tool that fails with a message that holds a closing tag. *)
Definition convert_page : Tool unit := {|
  name := lit "convert_page";
  is_mcp := false;
  invoke := fun _ o => (Raise (Exn (lit "ValueError") (lit "unexpected [/b] in page")), o);
  ainvoke := fun _ o => (Raise (Exn (lit "ValueError") (lit "unexpected [/b] in page")), o)
|}.

Definition cwd : pystr := lit "/home/user/project".

(** A sample of the markup check of Rich. A tag is an opening bracket, then a
    lower-case letter, [#], [/] or [@], then the text up to the next closing
    bracket, with no opening bracket in between. An opening tag is pushed; a
    closing tag [[/name]] removes the nearest open tag of that name and
    [[/]] the last one; a closing tag that finds nothing to close is the
    error. [skip] counts the characters of a tag just read; [position] is the
    index of the character at hand. *)
Definition starts_tag (c : N) : bool :=
  ((97 <=? c) && (c <=? 122)) || (c =? 35) || (c =? 47) || (c =? 64).

Fixpoint tag_body (s : pystr) : option pystr :=
  match s with
  | [] => None
  | c :: r =>
    if c =? 93 then Some []
    else if c =? 91 then None
    else option_map (cons c) (tag_body r)
  end.

Definition tag_at (s : pystr) : option pystr :=
  match s with
  | c :: _ => if starts_tag c then tag_body s else None
  | [] => None
  end.

Fixpoint close_tag (style : pystr) (opened : list pystr) : option (list pystr) :=
  match opened with
  | [] => None
  | top :: below =>
    if str_eqb top style then Some below
    else option_map (cons top) (close_tag style below)
  end.

Definition closing_error (body : pystr) (position : nat) (reason : pystr) : exn :=
  Exn (lit "MarkupError")
      (lit "closing tag '[" ++ body ++ lit "]' at position " ++ str_of_nat position ++ reason).

Fixpoint scan_markup (s : pystr) (skip : nat) (opened : list pystr) (position : nat)
  : option exn :=
  match s with
  | [] => None
  | c :: r =>
    match skip with
    | S k => scan_markup r k opened (S position)
    | O =>
      match (if c =? 91 then tag_at r else None) with
      | Some body =>
        match body with
        | 47 :: style =>
          match strip style with
          | [] =>
            match opened with
            | [] => Some (closing_error body position (lit " has nothing to close"))
            | _ :: below => scan_markup r (S (length body)) below (S position)
            end
          | _ =>
            match close_tag (strip style) opened with
            | Some opened' => scan_markup r (S (length body)) opened' (S position)
            | None =>
              Some (closing_error body position (lit " doesn't match any open tag"))
            end
          end
        | _ => scan_markup r (S (length body)) (strip body :: opened) (S position)
        end
      | None => scan_markup r 0 opened (S position)
      end
    end
  end.

Definition check_markup (s : pystr) : option exn := scan_markup s 0 [] 0.

(** [str(tool_args)] for arguments that hold neither quote nor backslash. *)
Definition args_text (args : tool_args) : pystr :=
  lit "{"
  ++ join (lit ", ")
       (List.map (fun kv => lit "'" ++ fst kv ++ lit "': '" ++ snd kv ++ lit "'") args)
  ++ lit "}".

(** The texts of a renderable that are parsed as markup. The traceback ends
    with the text of the exception. *)
Definition markup (ev : event) : option exn :=
  match ev with
  | Print s => check_markup s
  | PrintPanel body title =>
    match check_markup title with
    | Some e => Some e
    | None => check_markup body
    end
  | PrintArgs args =>
    check_markup (lit "[dim]Arguments: " ++ args_text args ++ lit "[/dim]" ++ [10])
  | PrintTraceback e => check_markup (lit "[dim]" ++ exn_str e ++ lit "[/dim]")
  | ShowFile path _ => check_markup path
  | _ => None
  end.

(** The model answers every request with two suggestions and no tool call;
    [python] fails with a traceback; the model repairs with a fenced block. *)
Definition env : Env unit := {|
  tools := [search_web; read_file_tool; read_webpage; convert_page];
  llm_with_tools := fun _ o =>
    (Ret (CStr (lit "You can:
- Push folder to GitHub
- List my repos"), []), o);
  llm := fun _ o => (Ret (lit "```python
print(1)
```"), o);
  subprocess_run := fun _ o => (Completed [] (lit "ZeroDivisionError: division by zero") 1%Z, o);
  push_folder := fun _ o => (Ret (lit "Pushed 12 files"), o);
  list_my_repos := fun _ o => (lit "• demo (https://github.com/u/demo)", o);
  getcwd := fun _ => cwd;
  urandom_hex := fun o => (lit "0a1b2c3d", o);
  direct_other := fun _ _ o => (Ret tt, o);
  markup_error := markup;
  unicode_lower := lower;
  open_error := fun path =>
    Exn (lit "FileNotFoundError")
        (lit "[Errno 2] No such file or directory: '" ++ path ++ lit "'")
|}.


(** The state after [initialize()]: one file on disk, nothing printed yet, the
    quick-start options, no conversation. *)
Definition initial : state unit := {|
  ext := Outside tt {[ lit "calc.py" := lit "print(1/0)" ]};
  trace := [];
  last_options := quick_start_options;
  checkpoints := ∅
|}.

(** The same, the file having the line endings of Windows. *)
Definition windows_file : state unit :=
  set_files {[ lit "calc.py" := lit "print(1/0)" ++ [13; 10] ]} initial.

(** An assistant message with three pending calls: a tool that answers, a name
    nobody registered, a tool that fails. *)
Definition three_calls : list tool_call :=
  [ToolCall (lit "search_web") [(lit "query", lit "rocq")] (lit "a");
   ToolCall (lit "missing_tool") [] (lit "b");
   ToolCall (lit "read_file") [(lit "path", lit "notes.txt")] (lit "c")].

Definition log_with_calls : list message :=
  [HumanMessage (CStr (lit "look this up")); AIMessage (CStr []) three_calls].

(** A log of thirteen messages: six questions with their answers, and a
    seventh question. *)
Definition long_log : list message :=
  flat_map (fun i => [HumanMessage (CStr (lit "question " ++ str_of_nat i));
                      AIMessage (CStr (lit "answer " ++ str_of_nat i)) []])
           (seq 1 5)
  ++ [HumanMessage (CStr (lit "question 6")); AIMessage (CStr (lit "answer 6")) [];
      HumanMessage (CStr (lit "question 7"))].

(** A log whose last message is the result of a tool: the user asked for a
    listing, the tool answered with file names, one of which holds "github". *)
Definition log_after_listing : list message :=
  [HumanMessage (CStr (lit "list my files"));
   AIMessage (CStr []) [ToolCall (lit "list_files") [] (lit "x")];
   ToolMessage (CStr (lit "README.md github_client.py")) (lit "x")].

(** A log whose most recent user message asks for a push, followed by the
    call of the assistant and the result of the tool. *)
Definition log_after_push : list message :=
  [HumanMessage (CStr (lit "push my code to github"));
   AIMessage (CStr []) [ToolCall (lit "quick_push_file") [] (lit "y")];
   ToolMessage (CStr (lit "done")) (lit "y")].

End Sample.

(** ** Vocabulary of the statements *)

(** Rich accepts what the event prints. *)
Definition renders {World : Type} (env : Env World) (ev : event) : Prop :=
  markup_error env ev = None.

(** [m] is a tool result answering the call [tc]. *)
Definition answers (tc : tool_call) (m : message) : Prop :=
  ∃ c, m = ToolMessage c (tc_id tc).

(** The invocation the source selects for a tool: awaited [ainvoke] for a
    member of [self.mcp_tools], [invoke] otherwise. *)
Definition invocation {World : Type} (tool : Tool World) :=
  if is_mcp tool then ainvoke tool else invoke tool.

(** The pattern of the formatter read as a relation on a line without newline:
    the line is the whitespace [indent], a character of the class, at least
    one whitespace character, and the non-empty [text]. *)
Definition matches_bullet_pattern (line indent text : pystr) : Prop :=
  ∃ b ws,
    line = indent ++ b :: ws ++ text
    ∧ forallb is_space indent = true
    ∧ is_bullet b = true
    ∧ ws ≠ [] ∧ forallb is_space ws = true
    ∧ text ≠ [].

(** The bullets of a text, in order: the groups of every matching line. *)
Definition bullets_of (text : content) : list (pystr * pystr) :=
  omap bullet_match (split [10] (content_text text)).

(** The map that numbers a list of bullets from [option_num] on. *)
Fixpoint record_options (bullets : list (pystr * pystr)) (option_num : nat) (opts : options)
  : options :=
  match bullets with
  | [] => opts
  | (_, text) :: rest =>
    record_options rest (S option_num) (<[str_of_nat option_num := text]> opts)
  end.

(** The options a response leaves in [self.last_options]. *)
Definition options_of (text : content) : options :=
  snd (_format_with_numbers text ∅).

(** The number of times the model was called with tools bound (the entries
    into the state GENERATE that reached the model). *)
Definition is_model_call (ev : event) : bool :=
  match ev with ModelCall _ => true | _ => false end.

Definition model_calls (t : list event) : nat :=
  length (List.filter is_model_call t).

(** The argument mappings [push_folder] was invoked with, in order. *)
Definition push_invocations (t : list event) : list tool_args :=
  omap (fun ev =>
          match ev with
          | Invoke tool_name args =>
            if str_eqb tool_name (lit "push_folder") then Some args else None
          | _ => None
          end) t.

(** [s'] is reached from [s] by adding to the trace, and with the same options
    unless the model was called on the way. *)
Definition quiet {World : Type} (s s' : state World) : Prop :=
  ∃ later,
    trace s' = trace s ++ later
    ∧ (model_calls later = 0%nat → last_options s' = last_options s).

(** A computation that only changes [self.last_options] when it calls the
    model. *)
Definition keeps_options {World A : Type} (m : M World A) : Prop :=
  ∀ s r s', m s = (r, s') → quiet s s'.

(** The state in which the assistant has just answered a first request with
    its two suggestions. *)
Definition suggested : state unit :=
  snd (run Sample.env [Line (lit "what can you do?")] Sample.initial).

Definition is_selected_print (ev : event) : bool :=
  match ev with
  | Print s => startswith (lit "[green]Selected:[/green] ") s
  | _ => false
  end.

(** The folder path of an argument mapping of [push_folder]. *)
Definition folder_path_of (args : tool_args) : option pystr :=
  snd <$> List.find (fun kv => str_eqb (fst kv) (lit "folder_path")) args.


(** The conversation log of a thread, empty when the thread has none. *)
Definition thread_log {World : Type} (s : state World) (thread_id : pystr) : list message :=
  default [] (checkpoints s !! thread_id).

(** A computation all of whose runs relate the state they start from to the
    state they end in. *)
Definition respects {World A : Type} (R : state World → state World → Prop)
    (m : M World A) : Prop :=
  ∀ s r s', m s = (r, s') → R s s'.

(** Relations on states that printing-free bookkeeping preserves: they are
    preorders and they ignore what happens outside the process. *)
Class Closed {World : Type} (R : state World → state World → Prop) : Prop := {
  closed_refl : ∀ s, R s s;
  closed_trans : ∀ s1 s2 s3, R s1 s2 → R s2 s3 → R s1 s3;
  closed_ext : ∀ o s, R s (set_ext o s)
}.

(** Only the log of [thread_id] may change, and only by growing at its end. *)
Definition grows_only {World : Type} (thread_id : pystr) (s s' : state World) : Prop :=
  ∀ t,
    (t ≠ thread_id → checkpoints s' !! t = checkpoints s !! t)
    ∧ ∃ added, thread_log s' t = thread_log s t ++ added.

(** No conversation log changes, the options stay, the model is not called. *)
Definition conversation_untouched {World : Type} (s s' : state World) : Prop :=
  checkpoints s' = checkpoints s
  ∧ last_options s' = last_options s
  ∧ model_calls (trace s') = model_calls (trace s).

Definition is_spawn (ev : event) : bool :=
  match ev with Spawn _ => true | _ => false end.

Definition is_llm_call (ev : event) : bool :=
  match ev with LlmCall _ => true | _ => false end.

(** The paths written to, in order. *)
Definition written_paths (t : list event) : list pystr :=
  omap (fun ev => match ev with WriteFile path _ => Some path | _ => None end) t.

(** What [n] attempts of the fix loop on [file_path] may add to the trace: at
    most [n] subprocesses, at most [n] calls of the model, and writes to the
    file and to its backup only. *)
Definition fix_footprint (file_path : pystr) (n : nat) (later : list event) : Prop :=
  (length (List.filter is_spawn later) ≤ n)%nat
  ∧ (length (List.filter is_llm_call later) ≤ n)%nat
  ∧ Forall (fun path => path = file_path ∨ path = file_path ++ lit ".backup")
           (written_paths later).

(** The number of lines that match the pattern among the first [i] lines. *)
Definition bullets_before (lines : list pystr) (i : nat) : nat :=
  length (omap bullet_match (take i lines)).

(** A log in which every tool call has its result: user messages and
    assistant messages, each assistant message directly followed by one
    result per call it holds, in the order of the calls. *)
Inductive paired : list message → Prop :=
| paired_nil : paired []
| paired_human (c : content) (rest : list message) :
    paired rest → paired (HumanMessage c :: rest)
| paired_call (text : content) (calls : list tool_call) (results rest : list message) :
    Forall2 answers calls results → paired rest →
    paired (AIMessage text calls :: results ++ rest).


(** No conversation log changes. *)
Definition same_logs {World : Type} (s s' : state World) : Prop :=
  checkpoints s' = checkpoints s.


(** The lines [run] handles before any dispatch: a blank line, an exit word,
    [help], [tools], [clear]. *)
Definition is_special (user_input : pystr) : bool :=
  bool_decide (strip user_input = [])
  || bool_decide (lower user_input ∈ [lit "exit"; lit "quit"; lit "q"])
  || str_eqb (lower user_input) (lit "help")
  || str_eqb (lower user_input) (lit "tools")
  || str_eqb (lower user_input) (lit "clear").

(** The request a line stands for: the option it selects, or the line. *)
Definition request_of (opts : options) (user_input : pystr) : pystr :=
  default user_input (selected_option opts user_input).

(** The requests [run] serves without the agent: a direct command, the
    listing of the repositories, the push of a folder. *)
Definition is_shortcut (request : pystr) : bool :=
  startswith (lit "!") request
  || (contains (lit "my") (lower request)
      && contains (lit "repo") (lower request)
      && contains (lit "list") (lower request))
  || (contains (lit "push") (lower request)
      && contains (lit "folder") (lower request)).

(** The calls of the tool-bound model in a trace, in order. *)
Definition model_call_events (t : list event) : list event :=
  List.filter is_model_call t.

(** The writes to files in a trace, in order: path and content. *)
Definition write_events (t : list event) : list (pystr * pystr) :=
  omap (fun ev => match ev with WriteFile path data => Some (path, data) | _ => None end) t.

(** No occurrence of [sep] in [a ++ b] starts inside [a]. *)
Fixpoint no_match (sep a b : pystr) : bool :=
  match a with
  | [] => true
  | _ :: a' => negb (startswith sep (a ++ b)) && no_match sep a' b
  end.

(** * Properties *)

(** ** Python strings on examples *)

Example lit_bullet : lit "•" = [8226].
Proof. reflexivity. Qed.

Example lit_source_class : lit "‚Ä¢" = [8218; 196; 162].
Proof. reflexivity. Qed.

Example split_fence :
  split (lit "```") (lit "a```b``c```") = [lit "a"; lit "b``c"; []].
Proof. reflexivity. Qed.

Example split_lines : split [10] (lit "x
y") = [lit "x"; lit "y"].
Proof. reflexivity. Qed.

Example words_cmd : words (lit "  fix   a.py ") = [lit "fix"; lit "a.py"].
Proof. reflexivity. Qed.

Example str_of_nat_12 : str_of_nat 12 = lit "12".
Proof. reflexivity. Qed.

Example strip_digit : strip (lit " 2 ") = lit "2".
Proof. reflexivity. Qed.

Example bullet_match_dash :
  bullet_match (lit "  - Read the file") = Some (lit "  ", lit "Read the file").
Proof. vm_compute. reflexivity. Qed.

Example bullet_match_no_space : bullet_match (lit "-Read") = None.
Proof. vm_compute. reflexivity. Qed.

Example bullet_match_blank_text : bullet_match (lit "*  ") = Some ([], lit " ").
Proof. vm_compute. reflexivity. Qed.

Example bullet_match_bold : bullet_match (lit "**bold** text") = None.
Proof. vm_compute. reflexivity. Qed.

Example format_two :
  (_format_with_numbers (CStr (lit "Pick:
- alpha
* beta")) ∅).1
  = lit "Pick:
**1.** alpha
**2.** beta

*Tip: Type a number (1-2) to select an option*".
Proof. vm_compute. reflexivity. Qed.

(** ** Reasoning about computations *)

(** Unfolds the combinators without touching the string literals. *)
Ltac st_simpl :=
  cbn [ext trace last_options checkpoints world files
       set_ext add_trace set_last_options set_checkpoints set_files fst snd].

Ltac run_m :=
  cbv beta iota zeta
      delta [bind ret raise interrupt emit console_print call get modify
             try_except try_except_interrupt lift];
  st_simpl.

(** ** Executing the pending tool calls *)

Section ToolUseFacts.

Context {World : Type} (env : Env World).

(** A pass through the body of the loop that returns, returns a tool message
    answering the call it was given. *)
Lemma run_tool_call_answers (tc : tool_call) (s : state World) (m : message)
    (s' : state World) :
  run_tool_call env tc s = (Ret m, s') → answers tc m.
Proof.
  unfold run_tool_call. run_m.
  destruct (markup_error env (Print _)); [discriminate|].
  destruct (markup_error env (PrintArgs _)); [discriminate|].
  destruct (find_tool env (tc_name tc)) as [tool|].
  - destruct (is_mcp tool); run_m;
      match goal with
      | |- context [?f tool (tc_args tc) ?x] => destruct (f tool (tc_args tc) x) as [[r|e|] o]
      end;
      repeat match goal with
             | |- context [markup_error env ?ev] => destruct (markup_error env ev)
             end;
      intros [= <- _] || discriminate; eexists; reflexivity.
  - destruct (markup_error env (Print _)); [discriminate|].
    intros [= <- _]. eexists. reflexivity.
Qed.

Lemma tool_use_loop_answers (calls : list tool_call) :
  ∀ (acc : list message) (s : state World) out s',
    tool_use_loop env calls acc s = (Ret out, s') →
    ∃ results, out = acc ++ results ∧ Forall2 answers calls results.
Proof.
  induction calls as [|tc calls IH]; intros acc s out s'; cbn [tool_use_loop].
  - intros [= <- _]. exists []. rewrite app_nil_r. split; [reflexivity | constructor].
  - unfold bind at 1.
    destruct (run_tool_call env tc s) as [[m|e|] s1] eqn:Hrun; try discriminate.
    intros Hloop. apply IH in Hloop as (results & -> & Hall).
    exists (m :: results). split; [rewrite <- app_assoc; reflexivity|].
    constructor; [exact (run_tool_call_answers tc s m s1 Hrun) | exact Hall].
Qed.

(** What [tool_use] returns holds one message per pending call, the i-th one
    carrying the identifier of the i-th call. *)
Lemma tool_use_answers (messages : list message) (text : content)
    (calls : list tool_call) (s : state World) (results : list message)
    (s' : state World) :
  last messages = Some (AIMessage text calls) →
  tool_use env messages s = (Ret results, s') →
  Forall2 answers calls results.
Proof.
  intros Hlast. unfold tool_use, pending_tool_calls. rewrite Hlast. run_m.
  intros Hloop. apply tool_use_loop_answers in Hloop as (out & -> & Hall). exact Hall.
Qed.

(** With a console that accepts every text and tools that are not
    interrupted, every pass through the body of the loop returns: a tool that
    raises and a name that is not registered are both answered. *)
Lemma run_tool_call_returns (tc : tool_call) (s : state World) :
  (∀ ev, renders env ev) →
  (∀ (tool : Tool World) args o, fst (invocation tool args o) ≠ Interrupt) →
  ∃ m s', run_tool_call env tc s = (Ret m, s').
Proof.
  intros Hshown Hquiet. unfold renders in Hshown. unfold run_tool_call. run_m.
  repeat (rewrite Hshown; run_m). destruct (find_tool env (tc_name tc)) as [tool|].
  - pose proof (Hquiet tool (tc_args tc) (ext s)) as Hcall. revert Hcall.
    unfold invocation. destruct (is_mcp tool); run_m;
      match goal with
      | |- context [?f tool (tc_args tc) ?x] => destruct (f tool (tc_args tc) x) as [[r|e|] o]
      end;
      cbn [fst]; intros Hcall; try congruence; repeat (rewrite Hshown; run_m); eauto.
  - repeat (rewrite Hshown; run_m). eauto.
Qed.

Lemma tool_use_loop_returns (calls : list tool_call) :
  (∀ ev, renders env ev) →
  (∀ (tool : Tool World) args o, fst (invocation tool args o) ≠ Interrupt) →
  ∀ (acc : list message) (s : state World),
    ∃ out s', tool_use_loop env calls acc s = (Ret out, s').
Proof.
  intros Hshown Hquiet. induction calls as [|tc calls IH]; intros acc s;
    cbn [tool_use_loop]; [eexists _, _; reflexivity|].
  destruct (run_tool_call_returns tc s Hshown Hquiet) as (m & s1 & Hrun).
  unfold bind at 1. rewrite Hrun. apply IH.
Qed.

(** So the markup of the console is all that stands between [tool_use] and
    one result per call. *)
Lemma tool_use_returns (messages : list message) (text : content)
    (calls : list tool_call) (s : state World) :
  (∀ ev, renders env ev) →
  (∀ (tool : Tool World) args o, fst (invocation tool args o) ≠ Interrupt) →
  last messages = Some (AIMessage text calls) →
  ∃ results s',
    tool_use env messages s = (Ret results, s') ∧ Forall2 answers calls results.
Proof.
  intros Hshown Hquiet Hlast.
  destruct (tool_use_loop_returns calls Hshown Hquiet [] s) as (out & s' & Hloop).
  assert (Hrun : tool_use env messages s = (Ret out, s')).
  { unfold tool_use, pending_tool_calls. rewrite Hlast. run_m. exact Hloop. }
  exists out, s'. split; [exact Hrun|].
  exact (tool_use_answers messages text calls s out s' Hlast Hrun).
Qed.

(** The first pending call decides when it raises: nothing is returned for
    any call. *)
Lemma tool_use_first_raises (messages : list message) (text : content)
    (tc : tool_call) (calls : list tool_call) (e : exn) (s s' : state World) :
  last messages = Some (AIMessage text (tc :: calls)) →
  run_tool_call env tc s = (Raise e, s') →
  tool_use env messages s = (Raise e, s').
Proof.
  intros Hlast Hrun. unfold tool_use, pending_tool_calls. rewrite Hlast. run_m.
  cbn [tool_use_loop]. unfold bind at 1. rewrite Hrun. reflexivity.
Qed.

(** C1, on the code. The result of a tool is printed as markup, inside the
    [try]; when Rich rejects it the handler takes over and prints the text of
    that error, again as markup; when this is rejected as well, the exception
    leaves [tool_use]: no message is returned for any of the pending calls,
    and the log of the thread keeps ending with the assistant message whose
    calls are unanswered. *)
Theorem unrendered_result_escapes_tool_use
    (messages : list message) (text : content) (tc : tool_call) (calls : list tool_call)
    (tool : Tool World) (result : pystr) (o : outside World) (e1 e2 : exn)
    (s : state World) :
  last messages = Some (AIMessage text (tc :: calls)) →
  find_tool env (tc_name tc) = Some tool →
  renders env (Print ([10] ++ lit "[bold yellow]Executing tool:[/bold yellow] [magenta]"
                      ++ tc_name tc ++ lit "[/magenta]")) →
  renders env (PrintArgs (tc_args tc)) →
  invocation tool (tc_args tc) (ext s) = (Ret result, o) →
  markup_error env
    (PrintPanel result (lit "[bold green]Tool Result: " ++ tc_name tc ++ lit "[/bold green]"))
  = Some e1 →
  markup_error env
    (Print (lit "[bold red]" ++ (lit "Tool error: " ++ exn_str e1) ++ lit "[/bold red]"))
  = Some e2 →
  ∃ s',
    tool_use env messages s = (Raise e2, s')
    ∧ ∀ steps thread_id,
        thread_log s thread_id = messages →
        ∃ s'',
          run_graph env (S steps) ToolUse thread_id s = (Raise e2, s'')
          ∧ thread_log s'' thread_id = messages.
Proof.
  intros Hlast Hfind Hline Hargs Hcall Hpanel Herror.
  unfold renders in Hline, Hargs. unfold invocation in Hcall.
  assert (Hrun : ∃ s', run_tool_call env tc s = (Raise e2, s')
                       ∧ checkpoints s' = checkpoints s).
  { unfold run_tool_call. run_m. rewrite Hline, Hargs, Hfind.
    destruct (is_mcp tool); run_m; rewrite Hcall; run_m; rewrite Hpanel, Herror;
      eexists; split; reflexivity. }
  destruct Hrun as (s' & Hrun & Hsame).
  pose proof (tool_use_first_raises messages text tc calls e2 s s' Hlast Hrun) as Htool.
  exists s'. split; [exact Htool|].
  intros steps thread_id Hlog. exists s'. cbn [run_graph]. unfold log_of. run_m.
  fold (thread_log s thread_id). rewrite Hlog, Htool. split; [reflexivity|].
  unfold thread_log. rewrite Hsame. exact Hlog.
Qed.

Lemma find_tool_unregistered (tool_name : pystr) :
  Forall (fun t => name t ≠ tool_name) (tools env) →
  find_tool env tool_name = None.
Proof.
  unfold find_tool. induction 1 as [|t ts Hne _ IH]; simpl; [reflexivity|].
  unfold str_eqb. rewrite bool_decide_eq_false_2 by exact Hne. exact IH.
Qed.

(** C3, on the code. The arguments of a call are printed as markup before the
    tool is looked up: when Rich rejects them, the call raises, registered
    name or not, and no result is made. When the invocation of a registered
    tool raises, the handler prints the text of the exception as markup: when
    Rich rejects it, the handler raises in turn. In both cases the exception
    leaves [tool_use] and reaches the controller. *)
Theorem failure_text_escapes_tool_use (tc : tool_call) (s : state World) :
  (∀ e,
     renders env (Print ([10] ++ lit "[bold yellow]Executing tool:[/bold yellow] [magenta]"
                         ++ tc_name tc ++ lit "[/magenta]")) →
     markup_error env (PrintArgs (tc_args tc)) = Some e →
     run_tool_call env tc s
     = (Raise e,
        add_trace (Print ([10] ++ lit "[bold yellow]Executing tool:[/bold yellow] [magenta]"
                          ++ tc_name tc ++ lit "[/magenta]")) s))
  ∧ (∀ tool e o e2,
       find_tool env (tc_name tc) = Some tool →
       renders env (Print ([10] ++ lit "[bold yellow]Executing tool:[/bold yellow] [magenta]"
                           ++ tc_name tc ++ lit "[/magenta]")) →
       renders env (PrintArgs (tc_args tc)) →
       invocation tool (tc_args tc) (ext s) = (Raise e, o) →
       markup_error env
         (Print (lit "[bold red]" ++ (lit "Tool error: " ++ exn_str e) ++ lit "[/bold red]"))
       = Some e2 →
       ∃ s', run_tool_call env tc s = (Raise e2, s') ∧ ext s' = o)
  ∧ (∀ messages text calls e s',
       last messages = Some (AIMessage text (tc :: calls)) →
       run_tool_call env tc s = (Raise e, s') →
       tool_use env messages s = (Raise e, s')).
Proof.
  split; [|split].
  - intros e Hline Hargs. unfold renders in Hline. unfold run_tool_call. run_m.
    rewrite Hline, Hargs. reflexivity.
  - intros tool e o e2 Hfind Hline Hargs Hcall Herror.
    unfold renders in Hline, Hargs. unfold invocation in Hcall.
    unfold run_tool_call. run_m. rewrite Hline, Hargs, Hfind.
    destruct (is_mcp tool); run_m; rewrite Hcall; run_m; rewrite Herror;
      eexists; split; reflexivity.
  - intros messages text calls e s' Hlast Hrun.
    exact (tool_use_first_raises messages text tc calls e s s' Hlast Hrun).
Qed.

End ToolUseFacts.

Example two_calls_scenario :
  fst (tool_use Sample.env Sample.log_with_calls Sample.initial)
  = Ret [ToolMessage (CStr (lit "3 results")) (lit "a");
         ToolMessage (CStr (lit "Tool missing_tool not found")) (lit "b");
         ToolMessage (CStr (lit "Tool error: no such file: notes.txt")) (lit "c")].
Proof. vm_compute. reflexivity. Qed.

Example unmatched_closing_tag :
  Sample.check_markup (lit "see [/url]")
  = Some (Exn (lit "MarkupError")
              (lit "closing tag '[/url]' at position 4 doesn't match any open tag"))
  ∧ Sample.check_markup (lit "[bold red]Error: Connection error.[/bold red]") = None.
Proof. split; vm_compute; reflexivity. Qed.

Lemma unrendered_result_escapes_tool_use_witness :
  ∃ e s',
    tool_use Sample.env
      [HumanMessage (CStr (lit "read the forum page"));
       AIMessage (CStr []) [ToolCall (lit "read_webpage") [(lit "url", lit "forum.example")]
                              (lit "a")]]
      Sample.initial
    = (Raise e, s')
    ∧ exn_class e = lit "MarkupError".
Proof.
  pose proof (fun e1 e2 =>
                unrendered_result_escapes_tool_use Sample.env
                  [HumanMessage (CStr (lit "read the forum page"));
                   AIMessage (CStr []) [ToolCall (lit "read_webpage")
                                          [(lit "url", lit "forum.example")] (lit "a")]]
                  (CStr []) (ToolCall (lit "read_webpage") [(lit "url", lit "forum.example")]
                               (lit "a")) []
                  Sample.read_webpage (lit "see [/url]") (ext Sample.initial) e1 e2
                  Sample.initial eq_refl) as Hescapes.
  edestruct Hescapes as (s' & Hrun & _);
    [vm_compute; reflexivity | vm_compute; reflexivity | vm_compute; reflexivity
     | reflexivity | vm_compute; reflexivity | vm_compute; reflexivity |].
  eexists _, s'. split; [exact Hrun | vm_compute; reflexivity].
Defined.

Lemma failure_text_escapes_tool_use_witness :
  (∃ e s',
     tool_use Sample.env
       [HumanMessage (CStr (lit "convert the page"));
        AIMessage (CStr []) [ToolCall (lit "convert_page") [] (lit "c")]]
       Sample.initial
     = (Raise e, s')
     ∧ exn_class e = lit "MarkupError")
  ∧ (find_tool Sample.env (lit "open_file") = None
     ∧ ∃ e s',
         tool_use Sample.env
           [HumanMessage (CStr (lit "show me the hosts"));
            AIMessage (CStr []) [ToolCall (lit "open_file")
                                   [(lit "path", lit "[/etc/hosts]")] (lit "d")]]
           Sample.initial
         = (Raise e, s')
         ∧ exn_class e = lit "MarkupError"
         ∧ trace s' = [Print ([10] ++ lit "[bold yellow]Executing tool:[/bold yellow] [magenta]"
                              ++ lit "open_file" ++ lit "[/magenta]")]).
Proof.
  split.
  - pose proof (fun e2 =>
                  proj1 (proj2 (failure_text_escapes_tool_use Sample.env
                                  (ToolCall (lit "convert_page") [] (lit "c")) Sample.initial))
                    Sample.convert_page
                    (Exn (lit "ValueError") (lit "unexpected [/b] in page"))
                    (ext Sample.initial) e2) as Hhandler.
    edestruct Hhandler as (s' & Hrun & _);
      [vm_compute; reflexivity | vm_compute; reflexivity | vm_compute; reflexivity
       | reflexivity | vm_compute; reflexivity |].
    eexists _, s'. split;
      [apply (proj2 (proj2 (failure_text_escapes_tool_use Sample.env
                              (ToolCall (lit "convert_page") [] (lit "c")) Sample.initial))
                _ (CStr []) []); [reflexivity | exact Hrun]
      | vm_compute; reflexivity].
  - split; [vm_compute; reflexivity|].
    pose (tc := ToolCall (lit "open_file") [(lit "path", lit "[/etc/hosts]")] (lit "d")).
    pose proof (fun e =>
                  proj1 (failure_text_escapes_tool_use Sample.env tc Sample.initial) e)
      as Hargs.
    edestruct (fun e H1 H2 => conj (Hargs e H1 H2) H2) as [Hrun _];
      [vm_compute; reflexivity | vm_compute; reflexivity |].
    eexists _, _. split;
      [apply (proj2 (proj2 (failure_text_escapes_tool_use Sample.env tc Sample.initial))
                _ (CStr []) []); [reflexivity | exact Hrun]
      | split; vm_compute; reflexivity].
Defined.

(** ** Preparing the messages for the model *)



Lemma length_removelast_cons {A} (l : list A) :
  ∀ x, length (removelast (x :: l)) = length l.
Proof.
  induction l as [|y l IH]; intros x; [reflexivity|].
  change (removelast (x :: y :: l)) with (x :: removelast (y :: l)).
  cbn [length]. rewrite IH. reflexivity.
Qed.

(** The rewriting touches the last message only: the head of a list of two or
    more messages stays. *)
Lemma force_tool_use_head (first : message) (rest sent : list message) :
  rest ≠ [] →
  force_tool_use (first :: rest) = Ret sent →
  sent !! 0%nat = Some first ∧ length sent = S (length rest).
Proof.
  intros Hne. unfold force_tool_use.
  destruct (last (first :: rest)) as [m|]; [|discriminate].
  destruct (msg_content m) as [last_msg|]; [|discriminate].
  destruct (existsb _ publish_keywords); intros [= <-].
  - unfold set_last. destruct rest as [|second rest]; [congruence|].
    split; [reflexivity|].
    rewrite length_app. cbn [length]. rewrite length_removelast_cons. cbn [length]. lia.
  - split; reflexivity.
Qed.


Section ModelResponseFacts.

Context {World : Type} (env : Env World).






End ModelResponseFacts.


Example long_log_sent :
  prepare_messages Sample.long_log
  = Ret (system_message :: skipn 3 Sample.long_log).
Proof. vm_compute. reflexivity. Qed.

(** Only the last message of the list can change, and it changes exactly when
    its own text holds one of the keywords. *)
Lemma force_tool_use_spec (messages : list message) (m : message) (last_msg : pystr) :
  last messages = Some m →
  msg_content m = CStr last_msg →
  force_tool_use messages
  = Ret (if existsb (fun word => contains word (lower last_msg)) publish_keywords
         then removelast messages ++ [HumanMessage (CStr (last_msg ++ directive))]
         else messages).
Proof.
  intros Hlast Hstr. unfold force_tool_use. rewrite Hlast, Hstr.
  destruct (existsb _ publish_keywords); [|reflexivity].
  unfold set_last. destruct messages; [discriminate Hlast | reflexivity].
Qed.

(** C7, on the code. When [model_response] runs after [tool_use], the message
    it inspects is the last one of the log, a tool result. In the first log the
    user's message holds no keyword, yet the tool result, which does, is
    replaced by a user message with the directive appended. In the second log
    the most recent user message asks for a push to github, yet nothing is
    rewritten, the tool result after it holding no keyword. *)
Theorem directive_follows_last_message :
  prepare_messages Sample.log_after_listing
  = Ret [system_message;
         HumanMessage (CStr (lit "list my files"));
         AIMessage (CStr []) [ToolCall (lit "list_files") [] (lit "x")];
         HumanMessage (CStr (lit "README.md github_client.py" ++ directive))]
  ∧ prepare_messages Sample.log_after_push
    = Ret (system_message :: Sample.log_after_push).
Proof. split; vm_compute; reflexivity. Qed.

(** ** The numbered-option formatter *)

Lemma digits_inj (d d' : Decimal.uint) : digits d = digits d' → d = d'.
Proof.
  revert d'. induction d; destruct d'; simpl; intros H;
    try discriminate H; try reflexivity;
    injection H as H; f_equal; apply IHd; exact H.
Qed.

Lemma str_of_nat_inj (n m : nat) : str_of_nat n = str_of_nat m → n = m.
Proof.
  intros H. apply Unsigned.to_uint_inj, digits_inj. exact H.
Qed.

Lemma digits_plain (d : Decimal.uint) :
  List.Forall (fun c => is_digit c = true ∧ is_space c = false) (digits d).
Proof. induction d; simpl; constructor; auto. Qed.

Lemma str_of_nat_nonempty (n : nat) : str_of_nat n ≠ [].
Proof.
  unfold str_of_nat. intros H.
  assert (Hnil : Nat.to_uint n = Decimal.Nil) by (apply digits_inj; exact H).
  pose proof (Unsigned.to_of (Nat.to_uint n)) as Hto.
  rewrite Unsigned.of_to, Hnil in Hto.
  exact (unorm_nonnil _ (eq_sym Hto)).
Qed.

Lemma lstrip_plain (s : pystr) :
  match s with [] => True | c :: _ => is_space c = false end → lstrip s = s.
Proof. destruct s as [|c s]; simpl; [reflexivity|]. intros ->. reflexivity. Qed.

Lemma strip_plain (s : pystr) :
  List.Forall (fun c => is_space c = false) s → strip s = s.
Proof.
  intros Hall. unfold strip.
  rewrite (lstrip_plain s) by (destruct Hall; [exact I | assumption]).
  rewrite lstrip_plain, rev_involutive; [reflexivity|].
  apply Forall_rev in Hall. destruct Hall; [exact I | assumption].
Qed.

(** Typing the decimal form of [k] selects what the map holds under
    [str(k)]. *)
Lemma selected_option_str_of_nat (opts : options) (k : nat) :
  selected_option opts (str_of_nat k) = opts !! str_of_nat k.
Proof.
  pose proof (digits_plain (Nat.to_uint k)) as Hplain. fold (str_of_nat k) in Hplain.
  unfold selected_option.
  rewrite strip_plain by (eapply Forall_impl; [exact Hplain | intros c [_ H]; exact H]).
  assert (His : isdigit (str_of_nat k) = true); [|rewrite His; reflexivity].
  unfold isdigit. pose proof (str_of_nat_nonempty k) as Hne.
  destruct (str_of_nat k) as [|c s]; [congruence|].
  apply forallb_forall. intros x Hx.
  rewrite List.Forall_forall in Hplain. apply Hplain. exact Hx.
Qed.

(** *** The matcher against the pattern *)

Lemma span_space_spec (s : pystr) :
  ∀ ws r, span_space s = (ws, r) →
    s = ws ++ r ∧ forallb is_space ws = true
    ∧ match r with [] => True | c :: _ => is_space c = false end.
Proof.
  induction s as [|c s IH]; simpl; intros ws r.
  - intros [= <- <-]. repeat split.
  - destruct (is_space c) eqn:Hc.
    + destruct (span_space s) as [ws' r']. intros [= <- <-].
      destruct (IH ws' r' eq_refl) as (-> & Hws & Hr).
      repeat split; [simpl; rewrite Hc; exact Hws | exact Hr].
    + intros [= <- <-]. repeat split. exact Hc.
Qed.

Lemma span_space_app (ws r : pystr) :
  forallb is_space ws = true →
  span_space (ws ++ r) = (ws ++ fst (span_space r), snd (span_space r)).
Proof.
  induction ws as [|c ws IH]; simpl; intros Hws.
  - destruct (span_space r). reflexivity.
  - apply andb_prop in Hws as [-> Hws]. rewrite (IH Hws). reflexivity.
Qed.

Lemma bullet_is_not_space (b : N) : is_bullet b = true → is_space b = false.
Proof.
  unfold is_bullet. intros H. apply bool_decide_eq_true in H.
  change bullet_class with [8218; 196; 162; 45; 42] in H.
  rewrite !elem_of_cons, elem_of_nil in H.
  destruct H as [->|[->|[->|[->|[->|[]]]]]]; reflexivity.
Qed.

Lemma last_cons_default (w d : N) (ws : pystr) : List.last (w :: ws) d = List.last ws w.
Proof.
  revert w d. induction ws as [|c ws IH]; intros w d; [reflexivity|].
  change (List.last (w :: c :: ws) d) with (List.last (c :: ws) d).
  rewrite (IH c d), (IH c w). reflexivity.
Qed.

(** What the matcher returns is a reading of the line along the pattern. *)
Lemma bullet_match_sound (line indent text : pystr) :
  bullet_match line = Some (indent, text) → matches_bullet_pattern line indent text.
Proof.
  unfold bullet_match.
  destruct (span_space line) as [ind rest] eqn:Hline.
  apply span_space_spec in Hline as (-> & Hind & _).
  destruct rest as [|b after]; [discriminate|].
  destruct (is_bullet b) eqn:Hb; [|discriminate].
  destruct (span_space after) as [ws r] eqn:Hafter.
  apply span_space_spec in Hafter as (-> & Hws & _).
  destruct ws as [|a ws]; [discriminate|].
  destruct r as [|c r].
  - destruct ws as [|w ws]; [discriminate|]. intros [= <- <-].
    exists b, (removelast (a :: w :: ws)).
    assert (Hsplit : a :: w :: ws = removelast (a :: w :: ws) ++ [List.last ws w]).
    { rewrite <- (last_cons_default w a ws), <- (last_cons_default a 0 (w :: ws)).
      apply app_removelast_last. discriminate. }
    rewrite app_nil_r. split; [rewrite <- Hsplit; reflexivity|].
    split; [exact Hind|]. split; [exact Hb|].
    split; [discriminate|]. split; [|discriminate].
    rewrite Hsplit, forallb_app in Hws. apply andb_prop in Hws as [Hws _]. exact Hws.
  - intros Hsome.
    assert (Hgroups : ind = indent ∧ c :: r = text)
      by (destruct ws; injection Hsome as <- <-; split; reflexivity).
    destruct Hgroups as [<- <-]. exists b, (a :: ws).
    repeat split; try assumption; discriminate.
Qed.

(** Every line that can be read along the pattern is matched, with the same
    first group. *)
Lemma bullet_match_complete (line indent text : pystr) :
  matches_bullet_pattern line indent text →
  ∃ text', bullet_match line = Some (indent, text').
Proof.
  intros (b & ws & -> & Hind & Hb & Hne & Hws & Htext).
  unfold bullet_match. rewrite (span_space_app indent _ Hind).
  cbn [span_space]. rewrite (bullet_is_not_space b Hb). cbn [fst snd].
  rewrite app_nil_r, Hb, (span_space_app ws text Hws).
  destruct (span_space text) as [ws' r] eqn:Hspan. cbn [fst snd].
  destruct ws as [|a ws]; [congruence|]. cbn [app].
  destruct r as [|c r]; [|destruct (ws ++ ws'); eauto].
  apply span_space_spec in Hspan as (-> & _ & _). rewrite app_nil_r in Htext.
  destruct ws' as [|w' ws']; [congruence|].
  destruct ws as [|w ws]; cbn [app]; eauto.
Qed.

Lemma number_lines_options (lines : list pystr) :
  ∀ n opts,
    snd (number_lines lines n opts) = record_options (omap bullet_match lines) n opts.
Proof.
  induction lines as [|line lines IH]; intros n opts; simpl; [reflexivity|].
  destruct (bullet_match line) as [[indent text]|]; simpl.
  - specialize (IH (S n) (<[str_of_nat n := text]> opts)).
    destruct (number_lines lines (S n) _). exact IH.
  - specialize (IH n opts). destruct (number_lines lines n opts). exact IH.
Qed.

Lemma record_options_below (bullets : list (pystr * pystr)) :
  ∀ n opts m, (m < n)%nat →
    record_options bullets n opts !! str_of_nat m = opts !! str_of_nat m.
Proof.
  induction bullets as [|[indent text] bullets IH]; intros n opts m Hlt; simpl; [reflexivity|].
  rewrite IH by lia. apply lookup_insert_ne.
  intros Heq. apply str_of_nat_inj in Heq. lia.
Qed.

Lemma record_options_lookup (bullets : list (pystr * pystr)) :
  ∀ n opts k indent text,
    bullets !! k = Some (indent, text) →
    record_options bullets n opts !! str_of_nat (n + k) = Some text.
Proof.
  induction bullets as [|[indent' text'] bullets IH]; intros n opts k indent text Hk;
    [discriminate Hk|].
  destruct k as [|k]; simpl in *.
  - injection Hk as _ ->. rewrite Nat.add_0_r, record_options_below by lia.
    apply lookup_insert_eq.
  - replace (n + S k)%nat with (S n + k)%nat by lia. eapply IH. exact Hk.
Qed.

(** The numbering of the lines: a line that matches becomes the numbered line
    whose number is one more than the number of matching lines before it; any
    other line is kept. *)
Lemma number_lines_lines (lines : list pystr) :
  ∀ n opts i line,
    lines !! i = Some line →
    fst (number_lines lines n opts) !! i
    = Some match bullet_match line with
           | Some (indent, text) =>
             numbered_line indent (n + length (omap bullet_match (take i lines))) text
           | None => line
           end.
Proof.
  induction lines as [|first lines IH]; intros n opts i line Hi; [discriminate Hi|].
  destruct i as [|i]; simpl in Hi.
  - injection Hi as ->. simpl.
    destruct (bullet_match line) as [[indent text]|].
    + destruct (number_lines lines (S n) _). simpl. rewrite Nat.add_0_r. reflexivity.
    + destruct (number_lines lines n opts). reflexivity.
  - simpl. destruct (bullet_match first) as [[indent text]|].
    + specialize (IH (S n) (<[str_of_nat n := text]> opts) i line Hi).
      destruct (number_lines lines (S n) _). simpl in *. rewrite IH.
      destruct (bullet_match line) as [[indent' text']|]; [|reflexivity].
      rewrite Nat.add_succ_r. reflexivity.
    + specialize (IH n opts i line Hi).
      destruct (number_lines lines n opts). simpl in *. exact IH.
Qed.

(** The map is built from the text alone, starting from the empty map. *)
Lemma format_resets_options (text : content) (previous : options) :
  snd (_format_with_numbers text previous) = record_options (bullets_of text) 1 ∅.
Proof.
  unfold _format_with_numbers, bullets_of.
  rewrite <- number_lines_options.
  destruct (number_lines _ 1 ∅). reflexivity.
Qed.

(** Round trip, for the pattern of the source: the text recorded for the k-th
    matching line is what typing [k] selects afterwards. *)
Lemma format_then_select (text : content) (previous : options) (k : nat)
    (indent body : pystr) :
  bullets_of text !! k = Some (indent, body) →
  selected_option (snd (_format_with_numbers text previous)) (str_of_nat (S k)) = Some body.
Proof.
  intros Hk. rewrite selected_option_str_of_nat, format_resets_options.
  apply (record_options_lookup _ 1 ∅ k indent body Hk).
Qed.

(** C4, on the code. The class of the pattern holds the three characters the
    source file spells ([‚], [Ä], [¢]) and not the bullet [•]: a text whose
    lines start with [•] comes back unchanged, nothing is recorded, and typing
    [1] afterwards selects nothing. With [-] in place of [•] the same text is
    numbered from 1 and typing [2] selects the second entry. *)
Theorem bullet_character_is_not_matched :
  _format_with_numbers (CStr (lit "• Read the file
• Run the tests")) quick_start_options
  = (lit "• Read the file
• Run the tests", ∅)
  ∧ selected_option ∅ (lit "1") = None
  ∧ fst (_format_with_numbers (CStr (lit "- Read the file
- Run the tests")) quick_start_options)
    = lit "**1.** Read the file
**2.** Run the tests

*Tip: Type a number (1-2) to select an option*"
  ∧ selected_option
      (snd (_format_with_numbers (CStr (lit "- Read the file
- Run the tests")) quick_start_options)) (lit "2")
    = Some (lit "Run the tests").
Proof. split; [|split; [|split]]; vm_compute; reflexivity. Qed.

(** ** Running code and fixing it *)

Section CommandFacts.

Context {World : Type} (env : Env World).

(** C10. [run_code] always returns a triple and never raises. For a path that
    does not end in [.py] the triple is ("", "Unsupported file type", 1) and
    the state is untouched: no subprocess is spawned. For a [.py] path, a
    run that exceeds the timeout gives ("", "Execution timeout", 1), and any
    other exception of [subprocess.run] gives ("", str(e), 1). *)
Theorem run_code_never_raises (file_path : pystr) (s : state World) :
  (∃ triple s', run_code env file_path s = (Ret triple, s'))
  ∧ (endswith (lit ".py") file_path = false →
     run_code env file_path s = (Ret ([], lit "Unsupported file type", 1%Z), s))
  ∧ (∀ o,
       endswith (lit ".py") file_path = true →
       subprocess_run env [lit "python"; file_path] (ext s) = (TimeoutExpired, o) →
       run_code env file_path s
       = (Ret ([], lit "Execution timeout", 1%Z),
          set_ext o (add_trace (Spawn [lit "python"; file_path]) s)))
  ∧ (∀ e o,
       endswith (lit ".py") file_path = true →
       subprocess_run env [lit "python"; file_path] (ext s) = (RunError e, o) →
       run_code env file_path s
       = (Ret ([], exn_str e, 1%Z),
          set_ext o (add_trace (Spawn [lit "python"; file_path]) s))).
Proof.
  unfold run_code. split; [|split; [|split]].
  - destruct (endswith (lit ".py") file_path); run_m; [|eauto].
    destruct (subprocess_run env _ (ext s)) as [[stdout stderr code| |e] o]; eauto.
  - intros ->. reflexivity.
  - intros o -> Hrun. run_m. rewrite Hrun. reflexivity.
  - intros e o -> Hrun. run_m. rewrite Hrun. reflexivity.
Qed.

Lemma backup_path_differs (file_path : pystr) : file_path ++ lit ".backup" ≠ file_path.
Proof.
  intros H. apply (f_equal length) in H. rewrite length_app in H.
  change (length (lit ".backup")) with 7%nat in H. lia.
Qed.

(** Text read from a file holds no carriage return, and a text without one is
    read as it is. *)
Lemma universal_newlines_bounded (n : nat) :
  ∀ s, (length s ≤ n)%nat → 13 ∉ universal_newlines s.
Proof.
  induction n as [|n IH]; intros [|c r] Hlen; cbn [length] in Hlen;
    try apply not_elem_of_nil; [lia|].
  cbn [universal_newlines]. destruct (N.eqb_spec c 13) as [->|Hc].
  - apply not_elem_of_cons. split; [discriminate|].
    destruct r as [|d r']; [apply not_elem_of_nil|]. cbn [length] in Hlen.
    destruct (d =? 10); apply IH; cbn [length]; lia.
  - apply not_elem_of_cons. split; [congruence | apply IH; lia].
Qed.

Lemma universal_newlines_no_cr (s : pystr) : 13 ∉ universal_newlines s.
Proof. apply (universal_newlines_bounded (length s)). lia. Qed.

Lemma universal_newlines_plain (s : pystr) : 13 ∉ s → universal_newlines s = s.
Proof.
  induction s as [|c r IH]; [reflexivity|]. intros Hs.
  apply not_elem_of_cons in Hs as [Hc Hr]. cbn [universal_newlines].
  destruct (N.eqb_spec c 13) as [->|_]; [congruence|]. rewrite (IH Hr). reflexivity.
Qed.

(** C9, on the code. In an attempt whose run fails and whose error panel is
    shown, the backup is written first and the file is overwritten with the
    fix next, in this order. What is written to the backup is the text read
    from the file, with its line endings translated: for a file without
    carriage returns the backup holds the content the file had, for a file
    that holds one it does not, and the content the file had is on disk no
    more. *)
Theorem backup_loses_carriage_returns
    (remaining attempt : nat) (file_path stdout stderr data answer : pystr) (code : Z)
    (s s1 : state World) (o : outside World) :
  run_code env file_path
    (add_trace (Print ([10] ++ attempt_banner ++ str_of_nat attempt ++ lit "/"
                       ++ str_of_nat max_retries ++ lit "[/yellow]")) s)
  = (Ret (stdout, stderr, code), s1) →
  code ≠ 0%Z →
  renders env (PrintPanel stderr (lit "Error")) →
  files (ext s1) !! file_path = Some data →
  llm env (fix_prompt stderr (universal_newlines data)) (ext s1) = (Ret answer, o) →
  ∃ s2,
    fix_attempts env (S remaining) attempt file_path s
    = fix_attempts env remaining (S attempt) file_path s2
    ∧ trace s2
      = trace s1
        ++ [PrintPanel stderr (lit "Error");
            ReadFile file_path;
            StatusLine (lit "[cyan]Fixing...");
            LlmCall (fix_prompt stderr (universal_newlines data));
            WriteFile (file_path ++ lit ".backup") (universal_newlines data);
            WriteFile file_path (extract_code answer);
            Print (lit "[green]‚úì Applied fix[/green]")]
    ∧ files (ext s2)
      = <[file_path := extract_code answer]>
          (<[file_path ++ lit ".backup" := universal_newlines data]> (files o))
    ∧ files (ext s2) !! file_path = Some (extract_code answer)
    ∧ files (ext s2) !! (file_path ++ lit ".backup") = Some (universal_newlines data)
    ∧ (13 ∉ data → files (ext s2) !! (file_path ++ lit ".backup") = Some data)
    ∧ (13 ∈ data → files (ext s2) !! (file_path ++ lit ".backup") ≠ Some data).
Proof.
  intros Hrun Hcode Hpanel Hdata Hllm. unfold renders in Hpanel.
  cbn [fix_attempts]. run_m. rewrite Hrun.
  destruct (Z.eqb_spec code 0) as [Hzero|_]; [congruence|].
  unfold apply_fix, read_file, write_file. run_m. rewrite Hpanel. run_m.
  rewrite Hdata. run_m. rewrite Hllm. run_m.
  eexists. split; [reflexivity|]. st_simpl.
  split; [rewrite <- !app_assoc; reflexivity|].
  split; [reflexivity|].
  assert (Hbackup : (<[file_path := extract_code answer]>
                       (<[file_path ++ lit ".backup" := universal_newlines data]> (files o)))
                    !! (file_path ++ lit ".backup")
                    = Some (universal_newlines data)).
  { rewrite lookup_insert_ne by (apply not_eq_sym, backup_path_differs).
    apply lookup_insert_eq. }
  split; [apply lookup_insert_eq|]. split; [exact Hbackup|]. rewrite Hbackup. split.
  - intros Hplain. rewrite (universal_newlines_plain data Hplain). reflexivity.
  - intros Hcr [= Heq]. apply (universal_newlines_no_cr data). rewrite Heq. exact Hcr.
Qed.

End CommandFacts.

Lemma run_code_never_raises_witness :
  run_code Sample.env (lit "notes.txt") Sample.initial
  = (Ret ([], lit "Unsupported file type", 1%Z), Sample.initial).
Proof.
  exact (proj1 (proj2 (run_code_never_raises Sample.env (lit "notes.txt") Sample.initial))
           eq_refl).
Defined.

Lemma backup_loses_carriage_returns_witness :
  ∃ s2,
    fix_attempts Sample.env 3 1 (lit "calc.py") Sample.windows_file
    = fix_attempts Sample.env 2 2 (lit "calc.py") s2
    ∧ files (ext Sample.windows_file) !! lit "calc.py" = Some (lit "print(1/0)" ++ [13; 10])
    ∧ files (ext s2) !! (lit "calc.py" ++ lit ".backup") = Some (lit "print(1/0)" ++ [10])
    ∧ files (ext s2) !! (lit "calc.py" ++ lit ".backup") ≠ Some (lit "print(1/0)" ++ [13; 10]).
Proof.
  destruct (backup_loses_carriage_returns Sample.env 2 1 (lit "calc.py") []
              (lit "ZeroDivisionError: division by zero") (lit "print(1/0)" ++ [13; 10])
              (lit "```python
print(1)
```") 1%Z Sample.windows_file _ (ext Sample.windows_file) eq_refl)
    as (s2 & Hstep & _ & _ & _ & Hbackup & _ & Hdiffers).
  - discriminate.
  - vm_compute. reflexivity.
  - vm_compute. reflexivity.
  - vm_compute. reflexivity.
  - exists s2. split; [exact Hstep|]. split; [vm_compute; reflexivity|]. split.
    + rewrite Hbackup. vm_compute. reflexivity.
    + apply Hdiffers. rewrite list_elem_of_In. vm_compute. auto 20.
Defined.

(** ** Which computations can change the options *)

Section Quiet.

Context {World : Type}.

Lemma model_calls_app (t t' : list event) :
  model_calls (t ++ t') = (model_calls t + model_calls t')%nat.
Proof. unfold model_calls. rewrite List.filter_app, length_app. reflexivity. Qed.

Lemma model_calls_single (ev : event) : is_model_call ev = false → model_calls [ev] = 0%nat.
Proof. unfold model_calls. cbn [List.filter]. intros ->. reflexivity. Qed.

Lemma quiet_refl (s : state World) : quiet s s.
Proof. exists []. rewrite app_nil_r. split; reflexivity. Qed.

Lemma quiet_trans (s1 s2 s3 : state World) : quiet s1 s2 → quiet s2 s3 → quiet s1 s3.
Proof.
  intros (l1 & Ht1 & Ho1) (l2 & Ht2 & Ho2). exists (l1 ++ l2). split.
  - rewrite Ht2, Ht1, app_assoc. reflexivity.
  - rewrite model_calls_app. intros Hzero.
    rewrite Ho2, Ho1 by lia. reflexivity.
Qed.

(** A state that differs in the outside, the files or the checkpoints only. *)
Lemma quiet_same (s s' : state World) :
  trace s' = trace s → last_options s' = last_options s → quiet s s'.
Proof. intros Ht Ho. exists []. rewrite app_nil_r. split; [exact Ht | intros _; exact Ho]. Qed.

Lemma keeps_ret {A} (a : A) : keeps_options (ret a : M World A).
Proof. intros s r s' [= _ <-]. apply quiet_refl. Qed.

Lemma keeps_raise {A} (e : exn) : keeps_options (raise e : M World A).
Proof. intros s r s' [= _ <-]. apply quiet_refl. Qed.

Lemma keeps_interrupt {A} : keeps_options (interrupt : M World A).
Proof. intros s r s' [= _ <-]. apply quiet_refl. Qed.

Lemma keeps_lift {A} (r : result A) : keeps_options (lift r : M World A).
Proof. destruct r; [apply keeps_ret | apply keeps_raise | apply keeps_interrupt]. Qed.

Lemma keeps_get {A} (f : state World → A) : keeps_options (get f).
Proof. intros s r s' [= _ <-]. apply quiet_refl. Qed.

Lemma keeps_emit (ev : event) : keeps_options (emit ev : M World unit).
Proof.
  intros s r s' [= _ <-]. exists [ev]. split; [reflexivity|]. intros _. reflexivity.
Qed.

Lemma keeps_console_print (env : Env World) (ev : event) :
  keeps_options (console_print env ev).
Proof.
  intros s r s'. unfold console_print. destruct (markup_error env ev); intros [= _ <-].
  - apply quiet_refl.
  - exists [ev]. split; [reflexivity|]. intros _. reflexivity.
Qed.

Lemma keeps_call {A} (f : outside World → result A * outside World) :
  keeps_options (call f).
Proof.
  intros s r s'. unfold call. destruct (f (ext s)) as [r' o]. intros [= _ <-].
  apply quiet_same; reflexivity.
Qed.

Lemma keeps_modify (f : state World → state World) :
  (∀ s, trace (f s) = trace s ∧ last_options (f s) = last_options s) →
  keeps_options (modify f).
Proof. intros Hf s r s' [= _ <-]. apply quiet_same; apply Hf. Qed.

Lemma keeps_bind {A B} (m : M World A) (k : A → M World B) :
  keeps_options m → (∀ a, keeps_options (k a)) → keeps_options (bind m k).
Proof.
  intros Hm Hk s r s'. unfold bind.
  destruct (m s) as [[a|e|] s1] eqn:Hms.
  - intros Hks. eapply quiet_trans; [eapply Hm | eapply Hk]; eassumption.
  - intros [= _ <-]. eapply Hm; eassumption.
  - intros [= _ <-]. eapply Hm; eassumption.
Qed.

Lemma keeps_try_except {A} (m : M World A) (h : exn → M World A) :
  keeps_options m → (∀ e, keeps_options (h e)) → keeps_options (try_except m h).
Proof.
  intros Hm Hh s r s'. unfold try_except.
  destruct (m s) as [[a|e|] s1] eqn:Hms.
  - intros [= _ <-]. eapply Hm; eassumption.
  - intros Hhs. eapply quiet_trans; [eapply Hm | eapply Hh]; eassumption.
  - intros [= _ <-]. eapply Hm; eassumption.
Qed.

Lemma keeps_try_except_interrupt {A} (m k : M World A) (h : exn → M World A) :
  keeps_options m → keeps_options k → (∀ e, keeps_options (h e)) →
  keeps_options (try_except_interrupt m k h).
Proof.
  intros Hm Hk Hh s r s'. unfold try_except_interrupt.
  destruct (m s) as [[a|e|] s1] eqn:Hms.
  - intros [= _ <-]. eapply Hm; eassumption.
  - intros Hhs. eapply quiet_trans; [eapply Hm | eapply Hh]; eassumption.
  - intros Hks. eapply quiet_trans; [eapply Hm | eapply Hk]; eassumption.
Qed.

End Quiet.

Create HintDb keeps discriminated.

#[export] Hint Resolve keeps_ret keeps_raise keeps_interrupt keeps_lift keeps_get keeps_emit
  keeps_console_print keeps_call : keeps.

(** Walks down a computation built from the combinators. *)
Ltac keeps_step :=
  lazymatch goal with
  | |- keeps_options (bind _ _) => apply keeps_bind; [|intros ?]
  | |- keeps_options (try_except _ _) => apply keeps_try_except; [|intros ?]
  | |- keeps_options (try_except_interrupt _ _ _) =>
    apply keeps_try_except_interrupt; [| |intros ?]
  | |- keeps_options (if ?b then _ else _) => destruct b
  | |- keeps_options (match ?x with _ => _ end) => destruct x
  | |- keeps_options _ => solve [auto with keeps]
  end.

Ltac keeps := repeat keeps_step.

Section QuietOperations.

Context {World : Type} (env : Env World).

Lemma keeps_model_response (messages : list message) :
  keeps_options (model_response env messages).
Proof.
  intros s r s'. unfold model_response.
  destruct (with_system (trim messages)) as [with_sys|e|]; run_m;
    try (intros [= _ <-]; apply quiet_refl).
  destruct (force_tool_use with_sys) as [sent|e|]; run_m;
    try (intros [= _ <-]; eexists [_]; split; [reflexivity | intros _; reflexivity]).
  destruct (llm_with_tools env sent (ext s)) as [[[text tool_calls]|e|] o]; run_m.
  - destruct (content_truthy text); run_m.
    + destruct (_format_with_numbers text (last_options s)) as [formatted opts]. run_m.
      intros [= _ <-]. eexists. split; [st_simpl; rewrite <- !app_assoc; reflexivity|].
      rewrite !model_calls_app. cbn. discriminate.
    + intros [= _ <-]. eexists. split; [st_simpl; rewrite <- !app_assoc; reflexivity|].
      rewrite !model_calls_app. cbn. discriminate.
  - intros [= _ <-]. eexists. split; [st_simpl; rewrite <- !app_assoc; reflexivity|].
    rewrite !model_calls_app. cbn. discriminate.
  - intros [= _ <-]. eexists. split; [st_simpl; rewrite <- !app_assoc; reflexivity|].
    rewrite !model_calls_app. cbn. discriminate.
Qed.

Lemma keeps_run_tool_call (tc : tool_call) : keeps_options (run_tool_call env tc).
Proof. unfold run_tool_call. keeps. Qed.

Lemma keeps_tool_use_loop (calls : list tool_call) :
  ∀ acc, keeps_options (tool_use_loop env calls acc).
Proof.
  induction calls as [|tc calls IH]; intros acc; simpl; [apply keeps_ret|].
  apply keeps_bind; [apply keeps_run_tool_call | intros m; apply IH].
Qed.

Lemma keeps_tool_use (messages : list message) : keeps_options (tool_use env messages).
Proof.
  unfold tool_use. apply keeps_bind; [apply keeps_lift | intros calls].
  apply keeps_tool_use_loop.
Qed.

Lemma keeps_append_log (thread_id : pystr) (new : list message) :
  keeps_options (append_log (World := World) thread_id new).
Proof. apply keeps_modify. intros s. split; reflexivity. Qed.

Hint Resolve keeps_model_response keeps_tool_use keeps_append_log : keeps.

Lemma keeps_run_graph (steps : nat) :
  ∀ at_node thread_id, keeps_options (run_graph env steps at_node thread_id).
Proof.
  induction steps as [|steps IH]; intros at_node thread_id; simpl; [apply keeps_raise|].
  unfold log_of. destruct at_node; keeps; apply IH.
Qed.

Lemma keeps_agent_ainvoke (input : list message) (thread_id : pystr) :
  keeps_options (agent_ainvoke env input thread_id).
Proof. unfold agent_ainvoke. keeps. apply keeps_run_graph. Qed.

Lemma keeps_run_code (file_path : pystr) : keeps_options (run_code env file_path).
Proof.
  unfold run_code. destruct (endswith _ file_path); [|apply keeps_ret].
  apply keeps_bind; [apply keeps_emit | intros _].
  intros s r s'.
  destruct (subprocess_run env _ (ext s)) as [[stdout stderr code| |e] o];
    intros [= _ <-]; apply quiet_same; reflexivity.
Qed.

Lemma keeps_read_file (path : pystr) : keeps_options (read_file env path).
Proof. unfold read_file. keeps. Qed.

Lemma keeps_write_file (path data : pystr) :
  keeps_options (write_file (World := World) path data).
Proof.
  unfold write_file. apply keeps_bind; [apply keeps_emit | intros _].
  apply keeps_modify. intros s. split; reflexivity.
Qed.

Hint Resolve keeps_run_code keeps_read_file keeps_write_file : keeps.

Lemma keeps_apply_fix (file_path stderr : pystr) :
  keeps_options (apply_fix env file_path stderr).
Proof. unfold apply_fix. keeps. Qed.

Lemma keeps_fix_attempts (remaining : nat) :
  ∀ attempt file_path, keeps_options (fix_attempts env remaining attempt file_path).
Proof.
  induction remaining as [|remaining IH]; intros attempt file_path; simpl; [keeps|].
  apply keeps_bind; [apply keeps_emit | intros _].
  apply keeps_bind; [apply keeps_run_code | intros [[stdout stderr] code]].
  destruct (Z.eqb code 0); [keeps|].
  apply keeps_bind; [apply keeps_apply_fix | intros _]. apply IH.
Qed.

Lemma keeps_handle_direct_command (cmd : pystr) :
  keeps_options (handle_direct_command env cmd).
Proof.
  unfold handle_direct_command, fix_errors_loop.
  destruct (words cmd) as [|first args]; [apply keeps_ret|].
  repeat match goal with
         | |- keeps_options (if ?b then _ else _) => destruct b
         end; keeps;
    try (apply keeps_fix_attempts);
    match goal with
    | a : (pystr * pystr * Z)%type |- _ => destruct a as [[? ?] code]; destruct (Z.eqb code 0); keeps
    end.
Qed.

Lemma keeps_push_folder_directly (user_input : pystr) :
  keeps_options (push_folder_directly env user_input).
Proof. unfold push_folder_directly. keeps. Qed.

Hint Resolve keeps_handle_direct_command keeps_push_folder_directly keeps_agent_ainvoke : keeps.

Lemma keeps_dispatch (thread_id user_input : pystr) :
  keeps_options (dispatch env thread_id user_input).
Proof. unfold dispatch. keeps. Qed.

Lemma keeps_turn (thread_id user_input : pystr) :
  keeps_options (turn env thread_id user_input).
Proof.
  unfold turn. pose proof (keeps_dispatch thread_id) as Hdispatch. keeps.
Qed.

Lemma keeps_iteration (thread_id : pystr) (ev : prompt_event) :
  keeps_options (iteration env thread_id ev).
Proof.
  unfold iteration, report. pose proof (keeps_turn thread_id) as Hturn. keeps.
Qed.

End QuietOperations.

(** ** The session driver *)

Section DriverFacts.

Context {World : Type} (env : Env World).

(** No interrupt leaves an iteration: the outer [try] catches it. *)
Lemma iteration_not_interrupted (thread_id : pystr) (ev : prompt_event)
    (s s' : state World) :
  iteration env thread_id ev s ≠ (Interrupt, s').
Proof.
  unfold iteration, report. run_m. destruct ev as [user_input|]; [|discriminate].
  destruct (turn env thread_id user_input _) as [[[ctl thread_id']|e|] s1];
    try discriminate.
  destruct (markup_error env (Print _)); [discriminate|].
  destruct (markup_error env (PrintTraceback _)); discriminate.
Qed.

(** C5, on the code. The handler of the outer [try] prints the text of the
    exception as markup. When Rich rejects that text, the handler raises in
    turn: the exception leaves the iteration, the loop and [run], and the
    inputs that follow are never read. When the text and the traceback are
    accepted, the iteration ends with [Continue] and the loop goes on with
    the inputs that follow. *)
Theorem failed_report_ends_session
    (thread_id user_input : pystr) (rest : list prompt_event) (e : exn)
    (s s1 : state World) :
  turn env thread_id user_input (add_trace (Print []) s) = (Raise e, s1) →
  (∀ e2,
     markup_error env (Print (lit "[bold red]Error: " ++ exn_str e ++ lit "[/bold red]"))
     = Some e2 →
     iteration env thread_id (Line user_input) s = (Raise e2, s1)
     ∧ run_loop env (Line user_input :: rest) thread_id s = (Raise e2, s1))
  ∧ (renders env (Print (lit "[bold red]Error: " ++ exn_str e ++ lit "[/bold red]")) →
     renders env (PrintTraceback e) →
     let reported :=
       add_trace (Print (lit "[yellow]Continuing... Type 'exit' to quit[/yellow]"))
         (add_trace (PrintTraceback e)
            (add_trace (Print (lit "[bold red]Error: " ++ exn_str e ++ lit "[/bold red]"))
               s1)) in
     iteration env thread_id (Line user_input) s = (Ret (Continue, thread_id), reported)
     ∧ run_loop env (Line user_input :: rest) thread_id s
       = run_loop env rest thread_id reported).
Proof.
  intros Hturn. split.
  - intros e2 Herror.
    assert (Hit : iteration env thread_id (Line user_input) s = (Raise e2, s1)).
    { unfold iteration, report. run_m. rewrite Hturn, Herror. reflexivity. }
    split; [exact Hit|]. cbn [run_loop]. unfold bind at 1. rewrite Hit. reflexivity.
  - intros Herror Htraceback reported. unfold renders in Herror, Htraceback.
    assert (Hit : iteration env thread_id (Line user_input) s
                  = (Ret (Continue, thread_id), reported)).
    { unfold iteration, report. run_m. rewrite Hturn, Herror, Htraceback. reflexivity. }
    split; [exact Hit|]. cbn [run_loop]. unfold bind at 1. rewrite Hit. reflexivity.
Qed.

End DriverFacts.

Lemma failed_report_ends_session_witness :
  ∃ e2 s1,
    run_loop Sample.env [Line (lit "![/x]"); Line (lit "hello")]
      (lit "default_session") Sample.initial
    = (Raise e2, s1)
    ∧ exn_class e2 = lit "MarkupError"
    ∧ model_calls (trace s1) = 0%nat.
Proof.
  pose (s1 := snd (turn Sample.env (lit "default_session") (lit "![/x]")
                     (add_trace (Print []) Sample.initial))).
  destruct (failed_report_ends_session Sample.env (lit "default_session")
              (lit "![/x]") [Line (lit "hello")]
              (Exn (lit "MarkupError")
                   (lit "closing tag '[/x]' at position 25 doesn't match any open tag"))
              Sample.initial s1) as [Hescapes _].
  - vm_compute. reflexivity.
  - edestruct Hescapes as [_ Hloop]; [vm_compute; reflexivity|].
    eexists _, s1. split; [exact Hloop|]. split; vm_compute; reflexivity.
Defined.

(** ** String facts used by the driver *)

Lemma startswith_length (p s : pystr) :
  startswith p s = true → (length p ≤ length s)%nat.
Proof.
  revert s. induction p as [|a p IH]; intros [|b s]; simpl; try lia; try discriminate.
  intros H. apply andb_prop in H as [_ H]. apply IH in H. lia.
Qed.

Lemma contains_length (sub s : pystr) :
  contains sub s = true → (length sub ≤ length s)%nat.
Proof.
  induction s as [|c s IH]; simpl; intros H; apply orb_prop in H as [H|H].
  - apply startswith_length in H. exact H.
  - discriminate.
  - apply startswith_length in H. exact H.
  - apply IH in H. lia.
Qed.

Lemma contains_head_in (c : N) (p s : pystr) : contains (c :: p) s = true → In c s.
Proof.
  induction s as [|b s IH]; simpl; intros H.
  - discriminate.
  - apply orb_prop in H as [H|H].
    + apply andb_prop in H as [H _]. apply N.eqb_eq in H. left. congruence.
    + right. apply IH. exact H.
Qed.

Lemma in_lstrip (c : N) (s : pystr) : In c s → is_space c = false → In c (lstrip s).
Proof.
  induction s as [|b s IH]; simpl; intros Hin Hc; [contradiction|].
  destruct (is_space b) eqn:Hb; [|exact Hin].
  destruct Hin as [->|Hin]; [congruence | apply IH; assumption].
Qed.

Lemma in_strip (c : N) (s : pystr) : In c s → is_space c = false → In c (strip s).
Proof.
  intros Hin Hc. unfold strip. apply -> in_rev.
  apply in_lstrip; [|exact Hc]. apply -> in_rev. apply in_lstrip; assumption.
Qed.

Lemma lower_char_p (x : N) :
  lower_char x = 112 → is_space x = false ∧ is_digit x = false.
Proof.
  unfold lower_char.
  destruct ((65 <=? x) && (x <=? 90)) eqn:Hupper; intros H.
  - assert (x = 80) as -> by lia. split; reflexivity.
  - subst x. split; reflexivity.
Qed.

(** An input that holds "push" in some case is not blank and is not a number:
    it is dispatched as it is. *)
Lemma push_is_not_a_selection (opts : options) (user_input : pystr) :
  contains (lit "push") (lower user_input) = true →
  strip user_input ≠ [] ∧ selected_option opts user_input = None.
Proof.
  intros Hpush. change (lit "push") with (112 :: lit "ush") in Hpush.
  apply contains_head_in in Hpush. unfold lower in Hpush.
  apply in_map_iff in Hpush as (x & Hx & Hin).
  apply lower_char_p in Hx as [Hspace Hdigit].
  pose proof (in_strip x user_input Hin Hspace) as Hstrip.
  split; [intros Hnil; rewrite Hnil in Hstrip; contradiction|].
  unfold selected_option, isdigit.
  destruct (strip user_input) as [|c rest] eqn:Hs; [reflexivity|].
  destruct (forallb is_digit (c :: rest)) eqn:Hall; [|reflexivity].
  rewrite forallb_forall in Hall. rewrite (Hall x Hstrip) in Hdigit. discriminate.
Qed.

(** An input that holds "folder" is too long to be one of the commands. *)
Lemma folder_is_not_a_command (user_input : pystr) :
  contains (lit "folder") (lower user_input) = true →
  bool_decide (lower user_input ∈ [lit "exit"; lit "quit"; lit "q"]) = false
  ∧ str_eqb (lower user_input) (lit "help") = false
  ∧ str_eqb (lower user_input) (lit "tools") = false
  ∧ str_eqb (lower user_input) (lit "clear") = false.
Proof.
  intros Hfolder. apply contains_length in Hfolder.
  change (length (lit "folder")) with 6%nat in Hfolder.
  assert (Hne : ∀ w, (length w < 6)%nat → lower user_input ≠ w).
  { intros w Hw Heq. rewrite Heq in Hfolder. lia. }
  unfold str_eqb. repeat split; apply bool_decide_eq_false_2.
  - rewrite !elem_of_cons, elem_of_nil.
    intros [H|[H|[H|[]]]]; revert H; apply Hne; vm_compute; lia.
  - apply Hne. vm_compute. lia.
  - apply Hne. vm_compute. lia.
  - apply Hne. vm_compute. lia.
Qed.

(** ** The options map across iterations *)

(** C6, as stated, fails. In the state where the assistant has just suggested
    "Push folder to GitHub" as its first option, typing [1] selects it, and
    typing [1] again selects the very same entry a second time: both lines are
    substituted, the folder is pushed twice, and the model is not called in
    between. *)
Lemma option_is_consumed_twice :
  selected_option (last_options suggested) (lit "1") = Some (lit "Push folder to GitHub")
  ∧ let s2 := snd (run_loop Sample.env [Line (lit "1"); Line (lit "1")]
                     (lit "default_session") suggested) in
    List.filter is_selected_print (skipn (length (trace suggested)) (trace s2))
    = [Print (lit "[green]Selected:[/green] Push folder to GitHub" ++ [10]);
       Print (lit "[green]Selected:[/green] Push folder to GitHub" ++ [10])]
    ∧ length (push_invocations (trace s2)) = 2%nat
    ∧ model_calls (trace s2) = model_calls (trace suggested)
    ∧ last_options s2 = last_options suggested.
Proof.
  split; [vm_compute; reflexivity|].
  split; [vm_compute; reflexivity|].
  split; [vm_compute; reflexivity|].
  split; vm_compute; reflexivity.
Qed.

Section OptionsFacts.

Context {World : Type} (env : Env World).

(** What [model_response] leaves in the options when the model answers. *)
Lemma model_response_options
    (messages sent : list message) (text : content) (calls : list tool_call)
    (o : outside World) (s : state World) :
  prepare_messages messages = Ret sent →
  llm_with_tools env sent (ext s) = (Ret (text, calls), o) →
  last_options (snd (model_response env messages s))
  = if content_truthy text then options_of text else last_options s.
Proof.
  unfold model_response, prepare_messages.
  destruct (with_system (trim messages)) as [with_sys|e|]; try discriminate.
  intros Hprep Hllm. run_m. rewrite Hprep. run_m. rewrite Hllm. run_m.
  destruct (content_truthy text); run_m; [|reflexivity].
  unfold options_of.
  pose proof (format_resets_options text (last_options s)) as Hs.
  pose proof (format_resets_options text ∅) as He.
  destruct (_format_with_numbers text (last_options s)) as [formatted opts].
  run_m. cbn [snd] in Hs. rewrite Hs, He. reflexivity.
Qed.

(** C6, amended. The options map is rebuilt from the empty map by every
    response of the assistant with non-empty content, whatever it held before.
    Substituting an option does not remove it: an iteration during which the
    model is not called leaves the map as it was, so the same input selects the
    same text again. *)
Theorem options_are_rebuilt_not_consumed :
  (∀ text previous,
     snd (_format_with_numbers text previous) = record_options (bullets_of text) 1 ∅)
  ∧ (∀ messages sent text calls o (s : state World),
       prepare_messages messages = Ret sent →
       llm_with_tools env sent (ext s) = (Ret (text, calls), o) →
       content_truthy text = true →
       last_options (snd (model_response env messages s)) = options_of text)
  ∧ (∀ thread_id ev (s : state World) r s',
       iteration env thread_id ev s = (r, s') →
       model_calls (trace s') = model_calls (trace s) →
       last_options s' = last_options s
       ∧ ∀ user_input,
           selected_option (last_options s') user_input
           = selected_option (last_options s) user_input).
Proof.
  split; [exact format_resets_options|]. split.
  - intros messages sent text calls o s Hprep Hllm Htruthy.
    rewrite (model_response_options messages sent text calls o s Hprep Hllm), Htruthy.
    reflexivity.
  - intros thread_id ev s r s' Hit Hcalls.
    destruct (keeps_iteration env thread_id ev s r s' Hit) as (later & Htrace & Hopts).
    rewrite Htrace, model_calls_app in Hcalls.
    assert (Hsame : last_options s' = last_options s) by (apply Hopts; lia).
    split; [exact Hsame|]. intros user_input. rewrite Hsame. reflexivity.
Qed.

End OptionsFacts.

Lemma options_are_rebuilt_not_consumed_witness :
  last_options (snd (model_response Sample.env [HumanMessage (CStr (lit "what can you do?"))]
                       Sample.initial))
  = options_of (CStr (lit "You can:
- Push folder to GitHub
- List my repos"))
  ∧ last_options (snd (iteration Sample.env (lit "default_session") (Line (lit "1")) suggested))
    = last_options suggested.
Proof.
  destruct (options_are_rebuilt_not_consumed Sample.env) as (_ & Hrebuilt & Hkept).
  split.
  - eapply Hrebuilt; [vm_compute; reflexivity | reflexivity | reflexivity].
  - eapply Hkept; [apply surjective_pairing | vm_compute; reflexivity].
Defined.

(** ** Pushing a folder without the model *)

(** C8, as stated, fails. "push the codeassistent folder" holds both words, yet
    the folder pushed is the sub-folder [codeAssistent] of the working
    directory, not the working directory. "!push folder" holds both words as
    well, yet it is taken as a direct command, an unknown one: nothing is
    pushed. So does "push my folder to the repo list", which lists the
    repositories instead. *)
Lemma push_folder_is_not_always_cwd :
  (contains (lit "push") (lower (lit "push the codeassistent folder")) = true
   ∧ contains (lit "folder") (lower (lit "push the codeassistent folder")) = true
   ∧ List.map folder_path_of
       (push_invocations
          (trace (snd (iteration Sample.env (lit "default_session")
                         (Line (lit "push the codeassistent folder")) Sample.initial))))
     = [Some (lit "/home/user/project/codeAssistent")]
   ∧ getcwd Sample.env (ext Sample.initial) = lit "/home/user/project")
  ∧ (contains (lit "push") (lower (lit "!push folder")) = true
     ∧ contains (lit "folder") (lower (lit "!push folder")) = true
     ∧ push_invocations
         (trace (snd (iteration Sample.env (lit "default_session")
                        (Line (lit "!push folder")) Sample.initial)))
       = [])
  ∧ (contains (lit "push") (lower (lit "push my folder to the repo list")) = true
     ∧ contains (lit "folder") (lower (lit "push my folder to the repo list")) = true
     ∧ push_invocations
         (trace (snd (iteration Sample.env (lit "default_session")
                        (Line (lit "push my folder to the repo list")) Sample.initial)))
       = []).
Proof.
  split; [|split].
  - split; [|split; [|split]]; vm_compute; reflexivity.
  - split; [|split]; vm_compute; reflexivity.
  - split; [|split]; vm_compute; reflexivity.
Qed.

Section PushFacts.

Context {World : Type} (env : Env World).

(** The report of an exception only prints. *)
Lemma report_only_prints (thread_id : pystr) (e : exn) (s : state World)
    (r : result (control * pystr)) (s' : state World) :
  report env thread_id e s = (r, s') →
  model_calls (trace s') = model_calls (trace s)
  ∧ push_invocations (trace s') = push_invocations (trace s)
  ∧ last_options s' = last_options s
  ∧ checkpoints s' = checkpoints s.
Proof.
  unfold report. run_m.
  destruct (markup_error env (Print _)); [intros [= _ <-]; auto|].
  destruct (markup_error env (PrintTraceback _)); intros [= _ <-]; st_simpl;
    rewrite ?model_calls_app; unfold push_invocations; rewrite ?omap_app;
    cbn [model_calls List.filter is_model_call length omap]; rewrite ?app_nil_r;
    (split; [lia|]); auto.
Qed.

(** C8, amended. An input that holds both "push" and "folder" (in any case),
    that does not start with [!] and that does not hold "my", "repo" and
    "list" together, is answered without the model, whatever happens.
    Once the line that names the folder is shown, [push_folder] is invoked
    directly, once, on the working directory, or on its sub-folder
    [codeAssistent] when the input holds "codeassistent". Its result is
    printed when it returns, its exception is reported when it raises, and the
    loop continues, as long as the console accepts these texts. *)
Theorem push_folder_bypasses_model (thread_id user_input : pystr) (s : state World) :
  contains (lit "push") (lower user_input) = true →
  contains (lit "folder") (lower user_input) = true →
  startswith (lit "!") user_input = false →
  contains (lit "my") (lower user_input)
    && contains (lit "repo") (lower user_input)
    && contains (lit "list") (lower user_input) = false →
  let cwd := getcwd env (ext s) in
  let folder_path :=
    if contains (lit "codeassistent") (lower user_input)
    then path_join cwd (lit "codeAssistent") else cwd in
  let folder_line := Print (lit "[dim]Folder: " ++ folder_path ++ lit "[/dim]" ++ [10]) in
  let invoked :=
    [Print [];
     Print ([10] ++ lit "[bold yellow]Executing:[/bold yellow] push_folder");
     folder_line;
     StatusLine (lit "[bold cyan]Pushing to GitHub...");
     Invoke (lit "push_folder") (push_folder_args folder_path)] in
  (∀ r s',
     iteration env thread_id (Line user_input) s = (r, s') →
     model_calls (trace s') = model_calls (trace s)
     ∧ (push_invocations (trace s') = push_invocations (trace s)
        ∨ push_invocations (trace s')
          = push_invocations (trace s) ++ [push_folder_args folder_path]))
  ∧ (renders env folder_line →
     ∀ result o,
       push_folder env (push_folder_args folder_path) (ext s) = (Ret result, o) →
       renders env (PrintPanel result (lit "[bold green]Result[/bold green]")) →
       ∃ s',
         iteration env thread_id (Line user_input) s = (Ret (Continue, thread_id), s')
         ∧ trace s'
           = trace s ++ invoked ++ [PrintPanel result (lit "[bold green]Result[/bold green]")]
         ∧ push_invocations (trace s')
           = push_invocations (trace s) ++ [push_folder_args folder_path])
  ∧ (renders env folder_line →
     ∀ e o,
       push_folder env (push_folder_args folder_path) (ext s) = (Raise e, o) →
       renders env (Print (lit "[bold red]Error: " ++ exn_str e ++ lit "[/bold red]")) →
       renders env (PrintTraceback e) →
       ∃ s',
         iteration env thread_id (Line user_input) s = (Ret (Continue, thread_id), s')
         ∧ trace s'
           = trace s ++ invoked
             ++ [Print (lit "[bold red]Error: " ++ exn_str e ++ lit "[/bold red]");
                 PrintTraceback e;
                 Print (lit "[yellow]Continuing... Type 'exit' to quit[/yellow]")]
         ∧ push_invocations (trace s')
           = push_invocations (trace s) ++ [push_folder_args folder_path]).
Proof.
  intros Hpush Hfolder Hbang Hrepos cwd folder_path folder_line invoked.
  subst folder_line invoked.
  destruct (push_is_not_a_selection (last_options s) user_input Hpush) as [Hblank Hsel].
  destruct (folder_is_not_a_command user_input Hfolder) as (Hexit & Hhelp & Htools & Hclear).
  assert (Hpath : (if str_eqb (if contains (lit "codeassistent") (lower user_input)
                               then lit "codeAssistent" else lit ".") (lit ".")
                   then cwd
                   else path_join cwd (if contains (lit "codeassistent") (lower user_input)
                                       then lit "codeAssistent" else lit "."))
                  = folder_path).
  { unfold folder_path. destruct (contains (lit "codeassistent") (lower user_input));
      vm_compute str_eqb; reflexivity. }
  assert (Hpushed : ∀ t before after,
             push_invocations before = [] → push_invocations after = [] →
             push_invocations
               (t ++ before ++ [Invoke (lit "push_folder") (push_folder_args folder_path)]
                  ++ after)
             = push_invocations t ++ [push_folder_args folder_path]).
  { intros t before after Hbefore Hafter. unfold push_invocations in *.
    rewrite !omap_app, Hbefore, Hafter. cbn [omap]. vm_compute str_eqb.
    rewrite app_nil_r. reflexivity. }
  assert (Hturn : turn env thread_id user_input (add_trace (Print []) s)
                  = bind (push_folder_directly env user_input)
                         (fun _ => ret (Continue, thread_id)) (add_trace (Print []) s)).
  { unfold turn.
    rewrite (bool_decide_eq_false_2 _ Hblank), Hexit, Hhelp, Htools, Hclear.
    unfold dispatch. run_m. rewrite Hsel. run_m.
    rewrite Hbang, Hrepos, Hpush, Hfolder. cbn [andb]. reflexivity. }
  unfold iteration. run_m. rewrite Hturn. clear Hturn.
  unfold push_folder_directly. run_m. fold cwd. rewrite Hpath.
  split; [|split].
  - intros r s'.
    destruct (markup_error env (Print (lit "[dim]Folder: " ++ _))) as [e0|].
    { intros Hreport. apply report_only_prints in Hreport as (Hcalls & Hinv & _).
      revert Hcalls Hinv. st_simpl. rewrite !model_calls_app. unfold push_invocations.
      rewrite !omap_app. cbn [model_calls List.filter is_model_call length omap].
      rewrite !app_nil_r. intros Hcalls Hinv. split; [lia | left; exact Hinv]. }
    run_m.
    destruct (push_folder env (push_folder_args folder_path) (ext s)) as [[result|e|] o];
      run_m.
    + destruct (markup_error env (PrintPanel _ _)) as [e1|].
      * intros Hreport. apply report_only_prints in Hreport as (Hcalls & Hinv & _).
        revert Hcalls Hinv. st_simpl. rewrite <- !app_assoc, !model_calls_app.
        rewrite !model_calls_single by reflexivity.
        intros Hcalls Hinv. split; [lia|]. right. rewrite Hinv.
        apply (Hpushed (trace s) [Print []; _; _; _] []); reflexivity.
      * intros [= _ <-]. st_simpl. rewrite <- !app_assoc, !model_calls_app.
        rewrite !model_calls_single by reflexivity. split; [lia|]. right.
        apply (Hpushed (trace s) [Print []; _; _; _] [_]); reflexivity.
    + intros Hreport. apply report_only_prints in Hreport as (Hcalls & Hinv & _).
      revert Hcalls Hinv. st_simpl. rewrite <- !app_assoc, !model_calls_app.
      rewrite !model_calls_single by reflexivity.
      intros Hcalls Hinv. split; [lia|]. right. rewrite Hinv.
      apply (Hpushed (trace s) [Print []; _; _; _] []); reflexivity.
    + intros [= _ <-]. st_simpl. rewrite <- !app_assoc, !model_calls_app.
      rewrite !model_calls_single by reflexivity. split; [lia|]. right.
      apply (Hpushed (trace s) [Print []; _; _; _] [_]); reflexivity.
  - intros Hline result o Hcall Hpanel. unfold renders in Hline, Hpanel.
    rewrite Hline. run_m. rewrite Hcall. run_m. rewrite Hpanel.
    eexists. split; [reflexivity|]. st_simpl. rewrite <- !app_assoc.
    split; [reflexivity|].
    apply (Hpushed (trace s) [Print []; _; _; _] [_]); reflexivity.
  - intros Hline e o Hcall Herror Htraceback. unfold renders in Hline, Herror, Htraceback.
    rewrite Hline. run_m. rewrite Hcall. unfold report. run_m. rewrite Herror. run_m.
    rewrite Htraceback.
    eexists. split; [reflexivity|]. st_simpl. rewrite <- !app_assoc.
    split; [reflexivity|].
    apply (Hpushed (trace s) [Print []; _; _; _] [_; _; _]); reflexivity.
Qed.

End PushFacts.

Lemma push_folder_bypasses_model_witness :
  ∃ s',
    iteration Sample.env (lit "default_session") (Line (lit "Push folder to GitHub"))
      Sample.initial
    = (Ret (Continue, lit "default_session"), s')
    ∧ push_invocations (trace s') = [push_folder_args (lit "/home/user/project")]
    ∧ model_calls (trace s') = 0%nat.
Proof.
  destruct (push_folder_bypasses_model Sample.env (lit "default_session")
              (lit "Push folder to GitHub") Sample.initial)
    as (Hnever & Hresult & _); [vm_compute; reflexivity ..|].
  destruct (Hresult eq_refl (lit "Pushed 12 files") (ext Sample.initial) eq_refl eq_refl)
    as (s' & Hit & _ & Hpush).
  exists s'. split; [exact Hit|]. split.
  - rewrite Hpush. vm_compute. reflexivity.
  - rewrite (proj1 (Hnever _ _ Hit)). reflexivity.
Defined.

(** * Further properties of the code *)

(** ** The formatter on whole texts *)

Lemma split_go_nonempty (sep : pystr) (s : pystr) :
  ∀ skip cur, split_go sep skip cur s ≠ [].
Proof.
  induction s as [|c s IH]; intros skip cur; simpl; [discriminate|].
  destruct skip; [|apply IH]. destruct (startswith sep (c :: s)); [discriminate | apply IH].
Qed.

Lemma join_cons (sep p : pystr) (rest : list pystr) :
  rest ≠ [] → join sep (p :: rest) = p ++ sep ++ join sep rest.
Proof. destruct rest; [congruence | reflexivity]. Qed.

(** Splitting on a character and joining with it gives the text back. *)
Lemma join_split_go (c : N) (s : pystr) :
  ∀ cur, join [c] (split_go [c] 0 cur s) = rev cur ++ s.
Proof.
  induction s as [|x s IH]; intros cur.
  - simpl. rewrite app_nil_r. reflexivity.
  - cbn [split_go startswith length Nat.sub]. rewrite andb_true_r.
    destruct (N.eqb_spec c x) as [->|Hne].
    + rewrite join_cons by apply split_go_nonempty. rewrite IH. reflexivity.
    + rewrite IH. cbn [rev]. rewrite <- app_assoc. reflexivity.
Qed.

Lemma join_split (c : N) (s : pystr) : join [c] (split [c] s) = s.
Proof. unfold split. rewrite join_split_go. reflexivity. Qed.

Lemma number_lines_unmatched (lines : list pystr) :
  omap bullet_match lines = [] →
  ∀ n opts, number_lines lines n opts = (lines, opts).
Proof.
  induction lines as [|line lines IH]; intros Hnone n opts; [reflexivity|].
  cbn [omap list_omap] in Hnone. cbn [number_lines].
  destruct (bullet_match line) as [[indent body]|]; [discriminate Hnone|].
  rewrite (IH Hnone). reflexivity.
Qed.

(** X1. A text none of whose lines matches the pattern comes back exactly as
    it went in, without the tip, and the options map is left empty, whatever
    it held. *)
Theorem format_without_bullets (text : content) (previous : options) :
  bullets_of text = [] →
  _format_with_numbers text previous = (content_text text, ∅).
Proof.
  intros Hnone. unfold _format_with_numbers, bullets_of in *.
  rewrite (number_lines_unmatched _ Hnone).
  rewrite bool_decide_eq_true_2 by reflexivity.
  rewrite join_split. reflexivity.
Qed.

Lemma format_without_bullets_witness :
  _format_with_numbers (CStr (lit "All done.
-no blank after the dash")) quick_start_options
  = (lit "All done.
-no blank after the dash", ∅).
Proof.
  rewrite (format_without_bullets (CStr (lit "All done.
-no blank after the dash")) quick_start_options);
    [cbn [content_text]; reflexivity | vm_compute; reflexivity].
Defined.

Lemma record_options_other (bullets : list (pystr * pystr)) :
  ∀ n opts key,
    (∀ k, (k < length bullets)%nat → key ≠ str_of_nat (n + k)) →
    record_options bullets n opts !! key = opts !! key.
Proof.
  induction bullets as [|[indent body] bullets IH]; intros n opts key Hkey; [reflexivity|].
  cbn [record_options]. rewrite IH.
  - apply lookup_insert_ne. intros Heq. apply (Hkey 0%nat); [simpl; lia|].
    rewrite Nat.add_0_r. congruence.
  - intros k Hk. replace (S n + k)%nat with (n + S k)%nat by lia.
    apply Hkey. simpl. lia.
Qed.

Lemma record_options_size (bullets : list (pystr * pystr)) :
  ∀ n (opts : options),
    (∀ k, opts !! str_of_nat (n + k) = None) →
    size (record_options bullets n opts) = (size opts + length bullets)%nat.
Proof.
  induction bullets as [|[indent body] bullets IH]; intros n opts Hfree; cbn [record_options length].
  - lia.
  - rewrite IH.
    + rewrite map_size_insert_None; [lia|].
      specialize (Hfree 0%nat). rewrite Nat.add_0_r in Hfree. exact Hfree.
    + intros k. rewrite lookup_insert_ne.
      * replace (S n + k)%nat with (n + S k)%nat by lia. apply Hfree.
      * intros Heq. apply str_of_nat_inj in Heq. lia.
Qed.

(** X2. After formatting, the options map holds exactly one entry per matching
    line: the k-th matching line is recorded under the decimal form of k,
    counting from 1, and no other key is present (not "0", not a number with
    a leading zero, not a number beyond the count). *)
Theorem format_options_exact (text : content) (previous : options) :
  let opts := snd (_format_with_numbers text previous) in
  size opts = length (bullets_of text)
  ∧ (∀ k indent body,
       bullets_of text !! k = Some (indent, body) →
       opts !! str_of_nat (S k) = Some body)
  ∧ (∀ key,
       (∀ k, (k < length (bullets_of text))%nat → key ≠ str_of_nat (S k)) →
       opts !! key = None).
Proof.
  cbn zeta. rewrite format_resets_options. split; [|split].
  - rewrite record_options_size; [rewrite map_size_empty; reflexivity|].
    intros k. apply lookup_empty.
  - intros k indent body Hk. apply (record_options_lookup _ 1 ∅ k indent body Hk).
  - intros key Hkey. rewrite record_options_other; [apply lookup_empty | exact Hkey].
Qed.

Lemma format_options_exact_witness :
  let opts := snd (_format_with_numbers (CStr (lit "- alpha
text
  * beta")) ∅) in
  opts !! lit "2" = Some (lit "beta") ∧ opts !! lit "02" = None ∧ opts !! lit "3" = None.
Proof.
  destruct (format_options_exact (CStr (lit "- alpha
text
  * beta")) ∅) as (_ & Hsome & Hnone).
  cbn zeta. split; [|split].
  - replace (lit "2") with (str_of_nat 2) by (vm_compute; reflexivity).
    apply (Hsome 1%nat (lit "  ")). vm_compute. reflexivity.
  - apply Hnone. intros k Hk. vm_compute in Hk.
    assert (Hcases : k = 0%nat ∨ k = 1%nat) by lia.
    destruct Hcases as [-> | ->]; vm_compute; discriminate.
  - apply Hnone. intros k Hk. vm_compute in Hk.
    assert (Hcases : k = 0%nat ∨ k = 1%nat) by lia.
    destruct Hcases as [-> | ->]; vm_compute; discriminate.
Defined.



Lemma number_lines_length (lines : list pystr) :
  ∀ n opts, length (fst (number_lines lines n opts)) = length lines.
Proof.
  induction lines as [|line lines IH]; intros n opts; [reflexivity|].
  cbn [number_lines]. destruct (bullet_match line) as [[indent body]|].
  - specialize (IH (S n) (<[str_of_nat n := body]> opts)).
    destruct (number_lines lines (S n) _). cbn [fst length] in *. rewrite IH. reflexivity.
  - specialize (IH n opts).
    destruct (number_lines lines n opts). cbn [fst length] in *. rewrite IH. reflexivity.
Qed.

(** X3. The text returned by the formatter has the lines of the input, in
    order: a line that matches the pattern is replaced by its indentation,
    its number in bold (one more than the number of matching lines before it)
    and its text; every other line is kept as it is. When at least one line
    matched, the tip naming the range 1 to n follows, n being the number of
    matching lines; otherwise nothing is added. *)
Theorem format_text_structure (text : content) (previous : options) :
  let lines := split [10] (content_text text) in
  let n := length (bullets_of text) in
  ∃ formatted,
    fst (_format_with_numbers text previous)
    = join [10] formatted ++ match n with O => [] | S _ => tip n end
    ∧ length formatted = length lines
    ∧ ∀ i line,
        lines !! i = Some line →
        formatted !! i
        = Some match bullet_match line with
               | Some (indent, body) =>
                 numbered_line indent (S (bullets_before lines i)) body
               | None => line
               end.
Proof.
  cbn zeta. unfold _format_with_numbers.
  pose proof (number_lines_length (split [10] (content_text text)) 1 ∅) as Hlen.
  pose proof (number_lines_lines (split [10] (content_text text)) 1 ∅) as Hlines.
  pose proof (number_lines_options (split [10] (content_text text)) 1 ∅) as Hopts.
  destruct (number_lines (split [10] (content_text text)) 1 ∅) as [formatted opts].
  cbn [fst snd] in *. exists formatted. split; [|split; [exact Hlen | exact Hlines]].
  fold (bullets_of text) in Hopts.
  assert (Hsize : size opts = length (bullets_of text)).
  { rewrite Hopts, record_options_size; [rewrite map_size_empty; reflexivity|].
    intros k. apply lookup_empty. }
  destruct (length (bullets_of text)) as [|n] eqn:Hn.
  - apply map_size_empty_iff in Hsize. rewrite Hsize.
    rewrite bool_decide_eq_true_2 by reflexivity. rewrite app_nil_r. reflexivity.
  - rewrite bool_decide_eq_false_2.
    + rewrite Hsize. reflexivity.
    + intros Hempty. rewrite Hempty, map_size_empty in Hsize. discriminate.
Qed.

Lemma format_text_structure_witness :
  ∃ formatted,
    fst (_format_with_numbers (CStr (lit "Pick:
- alpha
* beta")) ∅) = join [10] formatted ++ tip 2
    ∧ formatted !! 2%nat = Some (lit "**2.** beta").
Proof.
  destruct (format_text_structure (CStr (lit "Pick:
- alpha
* beta")) ∅) as (formatted & Htext & _ & Hline).
  exists formatted. split.
  - rewrite Htext. reflexivity.
  - rewrite (Hline 2%nat (lit "* beta")) by (vm_compute; reflexivity).
    vm_compute. reflexivity.
Defined.

(** X4. A line is rewritten exactly when it reads: optional whitespace, one
    character of the class, at least one whitespace character, at least one
    more character. The indentation kept is then the whole leading
    whitespace of the line. In particular a dash or star that is not followed
    by whitespace, or that is followed by whitespace only up to one
    character, does not make a bullet. *)
Theorem bullet_match_iff (line : pystr) :
  (is_Some (bullet_match line) ↔ ∃ indent body, matches_bullet_pattern line indent body)
  ∧ (∀ indent body, bullet_match line = Some (indent, body) → indent = fst (span_space line)).
Proof.
  split; [split|].
  - intros [[indent body] Hsome]. exists indent, body. apply bullet_match_sound. exact Hsome.
  - intros (indent & body & Hpattern).
    destruct (bullet_match_complete line indent body Hpattern) as [body' Hsome].
    rewrite Hsome. eauto.
  - intros indent body. unfold bullet_match.
    destruct (span_space line) as [ind rest]. cbn [fst].
    destruct rest as [|b after]; [discriminate|].
    destruct (is_bullet b); [|discriminate].
    destruct (span_space after) as [[|a [|w ws]] [|c r]]; intros [= <- _]; reflexivity.
Qed.

Lemma bullet_match_iff_witness :
  is_Some (bullet_match (lit "   * item")) ∧ bullet_match (lit "*item") = None.
Proof.
  split.
  - apply (proj1 (bullet_match_iff (lit "   * item"))).
    exists (lit "   "), (lit "item"), 42, (lit " ").
    split; [vm_compute; reflexivity|].
    split; [vm_compute; reflexivity|].
    split; [vm_compute; reflexivity|].
    split; [vm_compute; discriminate|].
    split; [vm_compute; reflexivity | vm_compute; discriminate].
  - vm_compute. reflexivity.
Defined.

(** ** Relations that every step of a computation preserves *)

Section Respects.

Context {World : Type} (R : state World → state World → Prop) `{!Closed R}.

Lemma respects_ret {A} (a : A) : respects R (ret a : M World A).
Proof. intros s r s' [= _ <-]. apply closed_refl. Qed.

Lemma respects_raise {A} (e : exn) : respects R (raise e : M World A).
Proof. intros s r s' [= _ <-]. apply closed_refl. Qed.

Lemma respects_interrupt {A} : respects R (interrupt : M World A).
Proof. intros s r s' [= _ <-]. apply closed_refl. Qed.

Lemma respects_lift {A} (r : result A) : respects R (lift r : M World A).
Proof. destruct r; [apply respects_ret | apply respects_raise | apply respects_interrupt]. Qed.

Lemma respects_get {A} (f : state World → A) : respects R (get f).
Proof. intros s r s' [= _ <-]. apply closed_refl. Qed.

Lemma respects_call {A} (f : outside World → result A * outside World) :
  respects R (call f).
Proof.
  intros s r s'. unfold call. destruct (f (ext s)) as [r' o]. intros [= _ <-].
  apply closed_ext.
Qed.

Lemma respects_modify (f : state World → state World) :
  (∀ s, R s (f s)) → respects R (modify f).
Proof. intros Hf s r s' [= _ <-]. apply Hf. Qed.

Lemma respects_emit (ev : event) :
  (∀ s, R s (add_trace ev s)) → respects R (emit ev : M World unit).
Proof. intros Hev s r s' [= _ <-]. apply Hev. Qed.

Lemma respects_console_print (env : Env World) (ev : event) :
  (∀ s, R s (add_trace ev s)) → respects R (console_print env ev).
Proof.
  intros Hev s r s'. unfold console_print. destruct (markup_error env ev); intros [= _ <-].
  - apply closed_refl.
  - apply Hev.
Qed.

Lemma respects_bind {A B} (m : M World A) (k : A → M World B) :
  respects R m → (∀ a, respects R (k a)) → respects R (bind m k).
Proof.
  intros Hm Hk s r s'. unfold bind.
  destruct (m s) as [[a|e|] s1] eqn:Hms.
  - intros Hks. eapply closed_trans; [eapply Hm | eapply Hk]; eassumption.
  - intros [= _ <-]. eapply Hm; eassumption.
  - intros [= _ <-]. eapply Hm; eassumption.
Qed.

Lemma respects_try_except {A} (m : M World A) (h : exn → M World A) :
  respects R m → (∀ e, respects R (h e)) → respects R (try_except m h).
Proof.
  intros Hm Hh s r s'. unfold try_except.
  destruct (m s) as [[a|e|] s1] eqn:Hms.
  - intros [= _ <-]. eapply Hm; eassumption.
  - intros Hhs. eapply closed_trans; [eapply Hm | eapply Hh]; eassumption.
  - intros [= _ <-]. eapply Hm; eassumption.
Qed.

Lemma respects_try_except_interrupt {A} (m k : M World A) (h : exn → M World A) :
  respects R m → respects R k → (∀ e, respects R (h e)) →
  respects R (try_except_interrupt m k h).
Proof.
  intros Hm Hk Hh s r s'. unfold try_except_interrupt.
  destruct (m s) as [[a|e|] s1] eqn:Hms.
  - intros [= _ <-]. eapply Hm; eassumption.
  - intros Hhs. eapply closed_trans; [eapply Hm | eapply Hh]; eassumption.
  - intros Hks. eapply closed_trans; [eapply Hm | eapply Hk]; eassumption.
Qed.

End Respects.

Lemma respects_weaken {World A : Type} (R R' : state World → state World → Prop)
    (m : M World A) :
  (∀ s s', R s s' → R' s s') → respects R m → respects R' m.
Proof. intros Himpl Hm s r s' Hrun. apply Himpl. eapply Hm. exact Hrun. Qed.

Lemma conversation_untouched_closed {World : Type} :
  Closed (conversation_untouched (World := World)).
Proof.
  split.
  - intros s. repeat split.
  - intros s1 s2 s3 (Hc1 & Ho1 & Hm1) (Hc2 & Ho2 & Hm2).
    repeat split; congruence.
  - intros o s. repeat split.
Qed.

Lemma grows_only_same {World : Type} (thread_id : pystr) (s s' : state World) :
  checkpoints s' = checkpoints s → grows_only thread_id s s'.
Proof.
  intros Hsame t. split; [intros _; rewrite Hsame; reflexivity|].
  exists []. unfold thread_log. rewrite Hsame, app_nil_r. reflexivity.
Qed.

Lemma grows_only_closed {World : Type} (thread_id : pystr) :
  Closed (grows_only (World := World) thread_id).
Proof.
  split.
  - intros s. apply grows_only_same. reflexivity.
  - intros s1 s2 s3 H12 H23 t.
    destruct (H12 t) as [Hother12 [added12 Hadd12]].
    destruct (H23 t) as [Hother23 [added23 Hadd23]]. split.
    + intros Hne. rewrite Hother23, Hother12 by exact Hne. reflexivity.
    + exists (added12 ++ added23). rewrite Hadd23, Hadd12, app_assoc. reflexivity.
  - intros o s. apply grows_only_same. reflexivity.
Qed.

#[export] Existing Instance conversation_untouched_closed.
#[export] Existing Instance grows_only_closed.

Create HintDb respects discriminated.

(** Walks down a computation; [side] proves that one printed event preserves
    the relation at hand. *)
Ltac respects_step side :=
  lazymatch goal with
  | |- respects ?R (bind _ _) => apply (respects_bind R); [|intros ?]
  | |- respects ?R (try_except _ _) => apply (respects_try_except R); [|intros ?]
  | |- respects ?R (try_except_interrupt _ _ _) =>
    apply (respects_try_except_interrupt R); [| |intros ?]
  | |- respects _ (if ?b then _ else _) => destruct b
  | |- respects _ (match ?x with _ => _ end) => destruct x
  | |- respects ?R (ret _) => apply (respects_ret R)
  | |- respects ?R (raise _) => apply (respects_raise R)
  | |- respects ?R interrupt => apply (respects_interrupt R)
  | |- respects ?R (lift _) => apply (respects_lift R)
  | |- respects ?R (get _) => apply (respects_get R)
  | |- respects ?R (call _) => apply (respects_call R)
  | |- respects ?R (emit _) => apply (respects_emit R); intros ?; side
  | |- respects ?R (console_print _ _) => apply (respects_console_print R); intros ?; side
  | |- respects _ _ => solve [auto with respects]
  end.

Ltac untouched_side :=
  split; [reflexivity|]; split; [reflexivity|];
  cbn [trace add_trace]; rewrite model_calls_app;
  cbn [model_calls List.filter is_model_call length]; lia.

Ltac untouched := repeat (respects_step untouched_side).

Ltac grows_side := apply grows_only_same; reflexivity.

Ltac grows := repeat (respects_step grows_side).

(** ** What the direct commands leave alone *)

Section UntouchedOperations.

Context {World : Type} (env : Env World).

Lemma untouched_run_code (file_path : pystr) :
  respects conversation_untouched (run_code env file_path).
Proof.
  unfold run_code. destruct (endswith _ file_path); [|apply (respects_ret _)].
  apply (respects_bind _); [apply respects_emit; intros ?; untouched_side | intros _].
  intros s r s'.
  destruct (subprocess_run env _ (ext s)) as [[stdout stderr code| |e] o];
    intros [= _ <-]; repeat split.
Qed.

Lemma untouched_read_file (path : pystr) :
  respects conversation_untouched (read_file env path).
Proof. unfold read_file. untouched. Qed.

Lemma untouched_write_file (path data : pystr) :
  respects conversation_untouched (write_file (World := World) path data).
Proof.
  unfold write_file. apply (respects_bind _); [untouched | intros _].
  apply respects_modify. intros s. repeat split.
Qed.

Hint Resolve untouched_run_code untouched_read_file untouched_write_file : respects.

Lemma untouched_apply_fix (file_path stderr : pystr) :
  respects conversation_untouched (apply_fix env file_path stderr).
Proof. unfold apply_fix. untouched. Qed.

Lemma untouched_fix_attempts (remaining : nat) :
  ∀ attempt file_path,
    respects conversation_untouched (fix_attempts env remaining attempt file_path).
Proof.
  induction remaining as [|remaining IH]; intros attempt file_path; cbn [fix_attempts];
    [untouched|].
  apply (respects_bind _); [untouched | intros _].
  apply (respects_bind _); [apply untouched_run_code | intros [[stdout stderr] code]].
  destruct (Z.eqb code 0); [untouched|].
  apply (respects_bind _); [apply untouched_apply_fix | intros _]. apply IH.
Qed.

Lemma untouched_handle_direct_command (cmd : pystr) :
  respects conversation_untouched (handle_direct_command env cmd).
Proof.
  unfold handle_direct_command, fix_errors_loop.
  destruct (words cmd) as [|first args]; [apply (respects_ret _)|].
  repeat match goal with
         | |- respects _ (if ?b then _ else _) => destruct b
         end; untouched;
    try (apply untouched_fix_attempts);
    match goal with
    | a : (pystr * pystr * Z)%type |- _ =>
      destruct a as [[? ?] code]; destruct (Z.eqb code 0); untouched
    end.
Qed.

(** X5. A direct command (the text after [!]) never calls the model that has
    the tools bound, never changes the options map and never changes any
    conversation log, whatever the command, its arguments and the behaviour
    of the collaborators. *)
Theorem direct_commands_leave_conversation (cmd : pystr) (s : state World)
    (r : result unit) (s' : state World) :
  handle_direct_command env cmd s = (r, s') →
  checkpoints s' = checkpoints s
  ∧ last_options s' = last_options s
  ∧ model_calls (trace s') = model_calls (trace s).
Proof. apply untouched_handle_direct_command. Qed.

End UntouchedOperations.

Lemma direct_commands_leave_conversation_witness :
  last_options (snd (handle_direct_command Sample.env (lit "fix calc.py") suggested))
  = last_options suggested.
Proof.
  eapply (direct_commands_leave_conversation Sample.env (lit "fix calc.py") suggested).
  apply surjective_pairing.
Defined.

(** ** The conversation logs only grow *)

Section GrowingLogs.

Context {World : Type} (env : Env World) (thread_id : pystr).

Lemma grows_untouched {A} (m : M World A) :
  respects conversation_untouched m → respects (grows_only thread_id) m.
Proof.
  apply respects_weaken. intros s s' (Hsame & _ & _). apply grows_only_same. exact Hsame.
Qed.

Lemma grows_append_log (new : list message) :
  respects (grows_only thread_id) (append_log (World := World) thread_id new).
Proof.
  intros s r s' [= _ <-] t. cbn [checkpoints set_checkpoints]. split.
  - intros Hne. apply lookup_insert_ne. congruence.
  - unfold thread_log. cbn [checkpoints set_checkpoints].
    destruct (decide (t = thread_id)) as [->|Hne].
    + rewrite lookup_insert_eq. eexists. reflexivity.
    + rewrite lookup_insert_ne by congruence. exists []. rewrite app_nil_r. reflexivity.
Qed.

Lemma grows_model_response (messages : list message) :
  respects (grows_only thread_id) (model_response env messages).
Proof.
  unfold model_response. grows.
  apply respects_modify. intros s. grows_side.
Qed.

Lemma grows_tool_use_loop (calls : list tool_call) :
  ∀ acc, respects (grows_only thread_id) (tool_use_loop env calls acc).
Proof.
  induction calls as [|tc calls IH]; intros acc; cbn [tool_use_loop]; [grows|].
  apply (respects_bind _); [unfold run_tool_call; grows | intros m; apply IH].
Qed.

Lemma grows_tool_use (messages : list message) :
  respects (grows_only thread_id) (tool_use env messages).
Proof. unfold tool_use. apply (respects_bind _); [grows | intros calls]. apply grows_tool_use_loop. Qed.

Hint Resolve grows_append_log grows_model_response grows_tool_use : respects.

Lemma grows_run_graph (steps : nat) :
  ∀ at_node, respects (grows_only thread_id) (run_graph env steps at_node thread_id).
Proof.
  induction steps as [|steps IH]; intros at_node; cbn [run_graph]; [grows|].
  unfold log_of. destruct at_node; grows; apply IH.
Qed.

Lemma grows_dispatch (user_input : pystr) :
  respects (grows_only thread_id) (dispatch env thread_id user_input).
Proof.
  unfold dispatch.
  pose proof (fun cmd => grows_untouched _ (untouched_handle_direct_command env cmd))
    as Hdirect.
  pose proof (grows_run_graph recursion_limit ModelResponse) as Hgraph.
  unfold push_folder_directly, agent_ainvoke. grows.
Qed.

(** X6. Whatever a line of input leads to, including a failure, an iteration
    of the driver never shortens or rewrites a conversation log: the log of
    the current thread afterwards is the log before plus what was appended,
    and the log of every other thread is exactly what it was. *)
Theorem logs_only_grow (ev : prompt_event) (s : state World)
    (r : result (control * pystr)) (s' : state World) :
  iteration env thread_id ev s = (r, s') →
  ∀ t,
    (t ≠ thread_id → checkpoints s' !! t = checkpoints s !! t)
    ∧ ∃ added, thread_log s' t = thread_log s t ++ added.
Proof.
  revert s r s'. change (respects (grows_only thread_id) (iteration env thread_id ev)).
  unfold iteration, report, turn.
  pose proof grows_dispatch as Hdispatch. grows.
Qed.

End GrowingLogs.

Lemma logs_only_grow_witness :
  ∃ added,
    thread_log (snd (iteration Sample.env (lit "default_session") (Line (lit "thanks"))
                       suggested)) (lit "default_session")
    = thread_log suggested (lit "default_session") ++ added.
Proof.
  exact (proj2 (logs_only_grow Sample.env (lit "default_session") (Line (lit "thanks"))
                  suggested _ _ (surjective_pairing _) (lit "default_session"))).
Defined.

(** ** When the session ends *)

Lemma lower_char_e_q (x c : N) :
  lower_char x = c → c = 101 ∨ c = 113 ∨ c = 99 ∨ c = 109 →
  is_space x = false ∧ is_digit x = false.
Proof.
  unfold lower_char.
  destruct ((65 <=? x) && (x <=? 90)) eqn:Hupper; intros H Hc.
  - assert (Hx : x = 69 ∨ x = 81 ∨ x = 67 ∨ x = 77) by lia.
    destruct Hx as [->|[->|[->| ->]]]; split; reflexivity.
  - subst x. destruct Hc as [->|[->|[->| ->]]]; split; reflexivity.
Qed.

(** A line whose lower-case form starts with one of the letters c, e, m, q is
    not blank and is not a number. *)
Lemma lettered_line (opts : options) (user_input : pystr) (c : N) (rest : pystr) :
  lower user_input = c :: rest →
  c = 101 ∨ c = 113 ∨ c = 99 ∨ c = 109 →
  strip user_input ≠ [] ∧ selected_option opts user_input = None.
Proof.
  intros Hlower Hc. destruct user_input as [|x s]; [discriminate|].
  injection Hlower as Hx _.
  destruct (lower_char_e_q x c Hx Hc) as [Hspace Hdigit].
  pose proof (in_strip x (x :: s) (or_introl eq_refl) Hspace) as Hstrip.
  split; [intros Hnil; rewrite Hnil in Hstrip; contradiction|].
  unfold selected_option, isdigit.
  destruct (strip (x :: s)) as [|d ds] eqn:Hs; [reflexivity|].
  destruct (forallb is_digit (d :: ds)) eqn:Hall; [|reflexivity].
  rewrite forallb_forall in Hall. rewrite (Hall x Hstrip) in Hdigit. discriminate.
Qed.


Section SessionEnd.

Context {World : Type} (env : Env World).






End SessionEnd.


(** ** Calls and results in the conversation log *)




Lemma paired_no_system (log : list message) :
  paired log → Forall (fun m => is_system m = false) log.
Proof.
  induction 1 as [|c rest _ IH|text calls results rest Hres _ IH]; constructor;
    try reflexivity; try exact IH.
  apply Forall_app. split; [|exact IH].
  clear -Hres. induction Hres as [|tc m calls results [c ->] _ IH]; constructor;
    [reflexivity | exact IH].
Qed.

Lemma same_logs_closed {World : Type} : Closed (same_logs (World := World)).
Proof.
  split; unfold same_logs.
  - reflexivity.
  - intros s1 s2 s3 H12 H23. congruence.
  - reflexivity.
Qed.

#[export] Existing Instance same_logs_closed.

Ltac same_logs := repeat (respects_step ltac:(reflexivity)).

Section PairedLogs.

Context {World : Type} (env : Env World) (thread_id : pystr).







(** X9. A paired log never holds a system message, so the branch of
    [model_response] that replaces a leading system message is never taken on
    it: the message list built from a non-empty paired log is the system
    message followed by the last ten messages of the log (all of them when
    there are at most ten). *)
Theorem system_message_is_prepended (log : list message) :
  paired log → log ≠ [] →
  with_system (trim log) = Ret (system_message :: trim log)
  ∧ trim log = drop (length log - 10) log.
Proof.
  intros Hpaired Hne. apply paired_no_system in Hpaired.
  assert (Htrim : trim log = drop (length log - 10) log).
  { unfold trim. destruct (Nat.ltb_spec 10 (length log)) as [Hlong|Hshort]; [reflexivity|].
    replace (length log - 10)%nat with 0%nat by lia. reflexivity. }
  split; [|exact Htrim].
  assert (Hall : Forall (fun m => is_system m = false) (trim log)).
  { rewrite Htrim. apply Forall_drop. exact Hpaired. }
  assert (Hne' : trim log ≠ []).
  { rewrite Htrim. intros Hnil. apply (f_equal length) in Hnil.
    rewrite length_drop in Hnil. cbn [length] in Hnil.
    destruct log; [congruence | cbn [length] in Hnil; lia]. }
  unfold with_system. destruct (trim log) as [|first others]; [congruence|].
  destruct (Nat.eqb (length (first :: others)) 1); [reflexivity|].
  inversion Hall as [|? ? Hfirst _]. rewrite Hfirst. reflexivity.
Qed.

End PairedLogs.


Lemma system_message_is_prepended_witness :
  with_system (trim Sample.long_log) = Ret (system_message :: drop 3 Sample.long_log).
Proof.
  assert (Hpaired : paired Sample.long_log).
  { unfold Sample.long_log. cbn [flat_map seq app].
    repeat (apply paired_human; apply (paired_call _ [] []); [constructor|]).
    apply paired_human. constructor. }
  destruct (system_message_is_prepended Sample.long_log Hpaired) as [Hwith Htrim];
    [discriminate|].
  rewrite Hwith, Htrim. reflexivity.
Defined.

(** ** A request the model answers at once *)

Section PlainTurn.

Context {World : Type} (env : Env World).

Lemma model_response_plain (messages sent : list message) (text : content)
    (o : outside World) (s : state World) :
  prepare_messages messages = Ret sent →
  llm_with_tools env sent (ext s) = (Ret (text, []), o) →
  ∃ s1,
    model_response env messages s = (Ret [AIMessage text []], s1)
    ∧ checkpoints s1 = checkpoints s
    ∧ ext s1 = o
    ∧ last_options s1 = (if content_truthy text then options_of text else last_options s)
    ∧ model_call_events (trace s1) = model_call_events (trace s) ++ [ModelCall sent].
Proof.
  intros Hprep Hllm.
  pose proof (model_response_options env messages sent text [] o s Hprep Hllm) as Hopts.
  revert Hopts Hprep. unfold model_response, prepare_messages.
  destruct (with_system (trim messages)) as [with_sys|e|]; try discriminate.
  intros Hopts Hprep. revert Hopts. run_m. rewrite Hprep. run_m. rewrite Hllm. run_m.
  unfold model_call_events.
  destruct (content_truthy text); run_m.
  - destruct (_format_with_numbers text (last_options s)) as [formatted opts]. run_m.
    intros Hopts. eexists. split; [reflexivity|]. st_simpl.
    split; [reflexivity|]. split; [reflexivity|]. split; [exact Hopts|].
    rewrite !List.filter_app. cbn [List.filter is_model_call]. rewrite !app_nil_r. reflexivity.
  - intros Hopts. eexists. split; [reflexivity|]. st_simpl.
    split; [reflexivity|]. split; [reflexivity|]. split; [reflexivity|].
    rewrite !List.filter_app. cbn [List.filter is_model_call]. rewrite !app_nil_r. reflexivity.
Qed.

Lemma agent_ainvoke_plain (thread_id : pystr) (request : content)
    (sent : list message) (text : content) (o : outside World) (s : state World) :
  prepare_messages (thread_log s thread_id ++ [HumanMessage request]) = Ret sent →
  llm_with_tools env sent (ext s) = (Ret (text, []), o) →
  ∃ s',
    agent_ainvoke env [HumanMessage request] thread_id s = (Ret tt, s')
    ∧ checkpoints s'
      = <[thread_id := thread_log s thread_id ++ [HumanMessage request; AIMessage text []]]>
          (checkpoints s)
    ∧ ext s' = o
    ∧ last_options s' = (if content_truthy text then options_of text else last_options s)
    ∧ model_call_events (trace s') = model_call_events (trace s) ++ [ModelCall sent].
Proof.
  intros Hprep Hllm. unfold agent_ainvoke, append_log. run_m.
  change recursion_limit with (S 24). generalize 24%nat. intros steps.
  cbn [run_graph]. unfold log_of, append_log. run_m.
  rewrite lookup_insert_eq. change (default [] (Some ?l)) with l.
  fold (thread_log s thread_id).
  set (s0 := set_checkpoints _ s).
  destruct (model_response_plain (thread_log s thread_id ++ [HumanMessage request])
              sent text o s0 Hprep Hllm) as (s1 & Hrun & Hcp & Hext & Hopts & Hcalls).
  rewrite Hrun. unfold check_tool_use. rewrite last_snoc.
  eexists. split; [reflexivity|]. st_simpl.
  split; [|split; [exact Hext | split; [exact Hopts | exact Hcalls]]].
  rewrite Hcp. subst s0. st_simpl. rewrite lookup_insert_eq.
  change (default [] (Some ?l)) with l.
  rewrite insert_insert_eq, <- app_assoc. reflexivity.
Qed.

(** X10. A request that is neither a special line nor a shortcut, and that the
    model answers without asking for a tool, costs exactly one call of the
    model, on the message list built from the log of the thread followed by
    the request; the log of the thread gains exactly the request and the
    answer, in this order, and the options are those of the answer when it
    has content and are kept otherwise. A number that selects an option
    stands for the text of the option, provided the console accepts the line
    that announces the selection. *)
Theorem plain_request_is_one_model_call (thread_id user_input : pystr)
    (sent : list message) (text : content) (o : outside World) (s : state World) :
  let request := request_of (last_options s) user_input in
  is_special user_input = false →
  is_shortcut request = false →
  (∀ selected,
     selected_option (last_options s) user_input = Some selected →
     renders env (Print (lit "[green]Selected:[/green] " ++ selected ++ [10]))) →
  prepare_messages (thread_log s thread_id ++ [HumanMessage (CStr request)]) = Ret sent →
  llm_with_tools env sent (ext s) = (Ret (text, []), o) →
  ∃ s',
    iteration env thread_id (Line user_input) s = (Ret (Continue, thread_id), s')
    ∧ checkpoints s'
      = <[thread_id := thread_log s thread_id
                       ++ [HumanMessage (CStr request); AIMessage text []]]>
          (checkpoints s)
    ∧ last_options s' = (if content_truthy text then options_of text else last_options s)
    ∧ model_call_events (trace s') = model_call_events (trace s) ++ [ModelCall sent].
Proof.
  intros request Hspecial Hshortcut Hselected Hprep Hllm.
  unfold is_special in Hspecial. unfold is_shortcut in Hshortcut.
  repeat (apply orb_false_elim in Hspecial as [Hspecial ?]).
  apply orb_false_elim in Hshortcut as [Hshortcut Hpush].
  apply orb_false_elim in Hshortcut as [Hbang Hrepo].
  unfold iteration, turn. run_m.
  repeat match goal with H : _ = false |- _ => rewrite H end.
  unfold dispatch. run_m.
  assert (Hgo : ∀ s0 : state World,
             checkpoints s0 = checkpoints s → ext s0 = ext s →
             last_options s0 = last_options s →
             model_call_events (trace s0) = model_call_events (trace s) →
             ∃ s',
               bind (agent_ainvoke env [HumanMessage (CStr request)] thread_id)
                    (fun _ => ret (Continue, thread_id)) s0
               = (Ret (Continue, thread_id), s')
               ∧ checkpoints s'
                 = <[thread_id := thread_log s thread_id
                                  ++ [HumanMessage (CStr request); AIMessage text []]]>
                     (checkpoints s)
               ∧ last_options s'
                 = (if content_truthy text then options_of text else last_options s)
               ∧ model_call_events (trace s')
                 = model_call_events (trace s) ++ [ModelCall sent]).
  { intros s0 Hcp Hext Hopts Hcalls.
    assert (Hlog : thread_log s0 thread_id = thread_log s thread_id).
    { unfold thread_log. rewrite Hcp. reflexivity. }
    destruct (agent_ainvoke_plain thread_id (CStr request) sent text o s0)
      as (s' & Hrun & Hcp' & _ & Hopts' & Hcalls').
    { rewrite Hlog. exact Hprep. }
    { rewrite Hext. exact Hllm. }
    exists s'. unfold bind. rewrite Hrun. run_m. split; [reflexivity|].
    rewrite Hcp', Hopts', Hcalls', Hlog, Hcp, Hopts, Hcalls. auto. }
  subst request. unfold request_of in *.
  destruct (selected_option (last_options s) user_input) as [selected|];
    change (default user_input (Some ?l)) with l in *;
    change (default user_input None) with user_input in *; run_m;
    try (rewrite (Hselected selected eq_refl); run_m);
    repeat match goal with H : _ = false |- _ => rewrite H end;
    match goal with
    | |- context [agent_ainvoke env _ thread_id ?s0] =>
      destruct (Hgo s0) as (s' & Hrun & Hrest);
        try (st_simpl; unfold model_call_events; rewrite ?List.filter_app;
             cbn [List.filter is_model_call]; rewrite ?app_nil_r; reflexivity)
    end.
  - revert Hrun. run_m. intros Hrun.
    destruct (agent_ainvoke env _ thread_id _) as [[[]|e|] s1]; try discriminate.
    injection Hrun as <-. exists s1. split; [reflexivity | exact Hrest].
  - revert Hrun. run_m. intros Hrun.
    destruct (agent_ainvoke env _ thread_id _) as [[[]|e|] s1]; try discriminate.
    injection Hrun as <-. exists s1. split; [reflexivity | exact Hrest].
Qed.

End PlainTurn.

Lemma plain_request_is_one_model_call_witness :
  ∃ s' sent,
    iteration Sample.env (lit "default_session") (Line (lit "hello")) Sample.initial
    = (Ret (Continue, lit "default_session"), s')
    ∧ model_call_events (trace s') = [ModelCall sent].
Proof.
  pose proof (fun sent text o =>
                plain_request_is_one_model_call Sample.env (lit "default_session")
                  (lit "hello") sent text o Sample.initial) as Hplain.
  edestruct Hplain as (s' & Hrun & _ & _ & Hcalls);
    [vm_compute; reflexivity | vm_compute; reflexivity
     | intros selected Hsome; vm_compute in Hsome; discriminate Hsome
     | vm_compute; reflexivity | vm_compute; reflexivity |].
  eexists _, _. split; [exact Hrun | exact Hcalls].
Defined.

(** ** [clear] and the listing of the repositories *)

Section OtherBranches.

Context {World : Type} (env : Env World).

(** X11. [clear], in any case, deletes nothing: every conversation log and the
    options map are what they were, the model is not called; the only effect
    on the conversation is that the loop goes on with the thread
    [session_<hex>] for the eight hexadecimal digits drawn. *)
Theorem clear_only_changes_thread (thread_id user_input hex : pystr)
    (o : outside World) (s : state World) :
  lower user_input = lit "clear" →
  urandom_hex env (ext s) = (hex, o) →
  ∃ s',
    iteration env thread_id (Line user_input) s
    = (Ret (Continue, lit "session_" ++ hex), s')
    ∧ checkpoints s' = checkpoints s
    ∧ last_options s' = last_options s
    ∧ model_calls (trace s') = model_calls (trace s)
    ∧ ext s' = o.
Proof.
  intros Hlower Hhex.
  destruct (lettered_line ∅ user_input 99 (lit "lear") Hlower) as [Hstrip _]; [auto|].
  unfold iteration, turn. run_m.
  rewrite (bool_decide_eq_false_2 _ Hstrip), Hlower.
  replace (bool_decide (lit "clear" ∈ [lit "exit"; lit "quit"; lit "q"])) with false
    by (vm_compute; reflexivity).
  replace (str_eqb (lit "clear") (lit "help")) with false by (vm_compute; reflexivity).
  replace (str_eqb (lit "clear") (lit "tools")) with false by (vm_compute; reflexivity).
  replace (str_eqb (lit "clear") (lit "clear")) with true by (vm_compute; reflexivity).
  run_m. rewrite Hhex. run_m.
  eexists. split; [reflexivity|]. st_simpl.
  split; [reflexivity|]. split; [reflexivity|]. split; [|reflexivity].
  rewrite !model_calls_app. cbn [model_calls List.filter is_model_call length]. lia.
Qed.

(** A request that names "my", "repo" and "list" is not a special line. *)
Lemma listing_is_not_special (user_input : pystr) :
  contains (lit "my") (lower user_input) = true →
  contains (lit "repo") (lower user_input) = true →
  contains (lit "list") (lower user_input) = true →
  is_special user_input = false ∧ ∀ opts, selected_option opts user_input = None.
Proof.
  intros Hmy Hrepo Hlist.
  assert (Hsel : strip user_input ≠ [] ∧ ∀ opts, selected_option opts user_input = None).
  { change (lit "my") with (109 :: lit "y") in Hmy.
    apply contains_head_in in Hmy. unfold lower in Hmy.
    apply in_map_iff in Hmy as (x & Hx & Hin).
    destruct (lower_char_e_q x 109 Hx) as [Hspace Hdigit]; [auto|].
    pose proof (in_strip x user_input Hin Hspace) as Hstrip.
    split; [intros Hnil; rewrite Hnil in Hstrip; contradiction|].
    intros opts. unfold selected_option, isdigit.
    destruct (strip user_input) as [|c rest] eqn:Hs; [reflexivity|].
    destruct (forallb is_digit (c :: rest)) eqn:Hall; [|reflexivity].
    rewrite forallb_forall in Hall. rewrite (Hall x Hstrip) in Hdigit. discriminate. }
  destruct Hsel as [Hstrip Hsel]. split; [|exact Hsel].
  unfold is_special, str_eqb. rewrite (bool_decide_eq_false_2 _ Hstrip). cbn [orb].
  assert (Hne : ∀ w, contains (lit "list") w = false → lower user_input ≠ w).
  { intros w Hw Heq. rewrite Heq, Hw in Hlist. discriminate. }
  rewrite !orb_false_iff. repeat split; apply bool_decide_eq_false_2.
  - rewrite !elem_of_cons, elem_of_nil.
    intros [H|[H|[H|[]]]]; revert H; apply Hne; vm_compute; reflexivity.
  - apply Hne. vm_compute. reflexivity.
  - apply Hne. vm_compute. reflexivity.
  - apply Hne. vm_compute. reflexivity.
Qed.

(** X12. A line that names "my", "repo" and "list" (in any case) and does not
    start with [!] makes the driver invoke [list_my_repos] itself, with no
    argument: the model is not called, no log and no option changes, and this
    branch wins over the push of a folder. The tool answers with a string in
    every case, and the string is dropped: the driver prints nothing after
    the call. *)
Theorem listing_bypasses_model (thread_id user_input : pystr) (s : state World) :
  contains (lit "my") (lower user_input) = true →
  contains (lit "repo") (lower user_input) = true →
  contains (lit "list") (lower user_input) = true →
  startswith (lit "!") user_input = false →
  ∃ s',
    iteration env thread_id (Line user_input) s = (Ret (Continue, thread_id), s')
    ∧ checkpoints s' = checkpoints s
    ∧ last_options s' = last_options s
    ∧ push_invocations (trace s') = push_invocations (trace s)
    ∧ trace s'
      = trace s
        ++ [Print [];
            Print ([10] ++ lit "[bold yellow]Fetching your repositories...[/bold yellow]"
                   ++ [10]);
            Invoke (lit "list_my_repos") []]
    ∧ model_calls (trace s') = model_calls (trace s)
    ∧ ext s' = snd (list_my_repos env [] (ext s)).
Proof.
  intros Hmy Hrepo Hlist Hbang.
  destruct (listing_is_not_special user_input Hmy Hrepo Hlist) as [Hspecial Hsel].
  unfold is_special in Hspecial.
  repeat (apply orb_false_elim in Hspecial as [Hspecial ?]).
  unfold iteration, turn. run_m.
  repeat match goal with H : _ = false |- _ => rewrite H end.
  unfold dispatch. run_m. rewrite Hsel. run_m.
  rewrite Hbang, Hmy, Hrepo, Hlist. cbn [andb]. run_m.
  destruct (list_my_repos env [] (ext s)) as [listing o]; run_m.
  eexists. split; [reflexivity|]. st_simpl.
  split; [reflexivity|]. split; [reflexivity|]. split.
  { unfold push_invocations. rewrite !omap_app. cbn [omap].
    replace (str_eqb (lit "list_my_repos") (lit "push_folder")) with false
      by (vm_compute; reflexivity).
    rewrite !app_nil_r. reflexivity. }
  split; [rewrite <- !app_assoc; reflexivity|].
  split; [|reflexivity].
  rewrite !model_calls_app, !model_calls_single by reflexivity. lia.
Qed.

End OtherBranches.

Lemma clear_only_changes_thread_witness :
  ∃ s',
    iteration Sample.env (lit "default_session") (Line (lit "Clear")) suggested
    = (Ret (Continue, lit "session_0a1b2c3d"), s')
    ∧ checkpoints s' = checkpoints suggested.
Proof.
  destruct (clear_only_changes_thread Sample.env (lit "default_session") (lit "Clear")
              (lit "0a1b2c3d") (ext suggested) suggested)
    as (s' & Hrun & Hcp & _); [vm_compute; reflexivity | vm_compute; reflexivity |].
  exists s'. split; [|exact Hcp]. rewrite Hrun. vm_compute. reflexivity.
Defined.

Lemma listing_bypasses_model_witness :
  model_calls (trace (snd (iteration Sample.env (lit "default_session")
                             (Line (lit "List my repos and push the folder"))
                             Sample.initial)))
  = 0%nat.
Proof.
  destruct (listing_bypasses_model Sample.env (lit "default_session")
              (lit "List my repos and push the folder") Sample.initial)
    as (s' & Hrun & _ & _ & _ & _ & Hcalls & _);
    [vm_compute; reflexivity | vm_compute; reflexivity | vm_compute; reflexivity
     | vm_compute; reflexivity |].
  rewrite Hrun. cbn [snd]. rewrite Hcalls. reflexivity.
Defined.

(** ** The fix loop as a whole *)

Lemma fix_footprint_nil (file_path : pystr) (n : nat) : fix_footprint file_path n [].
Proof. unfold fix_footprint. cbn. repeat split; try lia. constructor. Qed.

Lemma fix_footprint_app (file_path : pystr) (n m : nat) (a b : list event) :
  fix_footprint file_path n a → fix_footprint file_path m b →
  fix_footprint file_path (n + m) (a ++ b).
Proof.
  intros (Hs1 & Hl1 & Hw1) (Hs2 & Hl2 & Hw2). unfold fix_footprint, written_paths.
  rewrite !List.filter_app, !length_app, omap_app.
  split; [lia|]. split; [lia|]. apply Forall_app. split; assumption.
Qed.

Section FixLoop.

Context {World : Type} (env : Env World).

Lemma run_code_trace (file_path : pystr) (s : state World)
    (r : result (pystr * pystr * Z)) (s' : state World) :
  run_code env file_path s = (r, s') →
  trace s' = trace s ++ (if endswith (lit ".py") file_path
                         then [Spawn [lit "python"; file_path]] else []).
Proof.
  unfold run_code. destruct (endswith _ file_path); run_m.
  - destruct (subprocess_run env _ (ext s)) as [[stdout stderr code| |e] o];
      intros [= _ <-]; reflexivity.
  - intros [= _ <-]. rewrite app_nil_r. reflexivity.
Qed.

Lemma apply_fix_footprint (file_path stderr : pystr) (s : state World)
    (r : result unit) (s' : state World) :
  apply_fix env file_path stderr s = (r, s') →
  ∃ later,
    trace s' = trace s ++ later
    ∧ List.filter is_spawn later = []
    ∧ (length (List.filter is_llm_call later) ≤ 1)%nat
    ∧ Forall (fun path => path = file_path ∨ path = file_path ++ lit ".backup")
             (written_paths later).
Proof.
  unfold apply_fix, read_file, write_file. run_m.
  destruct (markup_error env _) as [rejected|]; run_m.
  { intros [= _ <-]. exists []. rewrite app_nil_r. split; [reflexivity|].
    cbn [List.filter written_paths omap length]. split; [reflexivity|].
    split; [lia | constructor]. }
  destruct (files (ext s) !! file_path) as [data|]; run_m.
  - destruct (llm env _ _) as [[answer|e|] o]; run_m; intros [= _ <-]; st_simpl;
      rewrite <- !app_assoc; eexists; (split; [reflexivity|]);
      cbn [app List.filter is_spawn is_llm_call written_paths omap length];
      (split; [reflexivity|]); (split; [lia|]);
      repeat (constructor; [solve [auto]|]); constructor.
  - intros [= _ <-]. st_simpl. rewrite <- !app_assoc. eexists. split; [reflexivity|].
    cbn [app List.filter is_spawn is_llm_call written_paths omap length].
    split; [reflexivity|]. split; [lia|]. constructor.
Qed.

Lemma run_code_returns (file_path : pystr) (s : state World) :
  ∃ stdout stderr code s1, run_code env file_path s = (Ret (stdout, stderr, code), s1).
Proof.
  unfold run_code. destruct (endswith _ file_path); run_m; [|eauto 6].
  destruct (subprocess_run env _ _) as [[stdout stderr code| |e] o]; eauto 6.
Qed.

Lemma fix_attempts_footprint (remaining : nat) :
  ∀ attempt file_path (s : state World) r s',
    fix_attempts env remaining attempt file_path s = (r, s') →
    ∃ later, trace s' = trace s ++ later ∧ fix_footprint file_path remaining later.
Proof.
  induction remaining as [|remaining IH]; intros attempt file_path s r s';
    cbn [fix_attempts]; run_m.
  - intros [= _ <-]. st_simpl. eexists. split; [reflexivity|].
    unfold fix_footprint. cbn. repeat split; try lia. constructor.
  - match goal with
    | |- context [run_code env file_path ?s0] =>
      destruct (run_code_returns file_path s0) as (stdout & stderr & code & s1 & Hrun)
    end.
    rewrite Hrun. apply run_code_trace in Hrun. revert Hrun. st_simpl. intros Hrun.
    assert (Hfirst : ∃ first,
               trace s1 = trace s ++ first ∧ fix_footprint file_path 1 first
               ∧ length (List.filter is_llm_call first) = 0%nat).
    { rewrite Hrun, <- app_assoc. eexists. split; [reflexivity|].
      destruct (endswith _ file_path); unfold fix_footprint; cbn;
        repeat split; try lia; constructor. }
    destruct Hfirst as (first & Hfirst & Hfoot1 & Hl1').
    assert (Hquiet : fix_footprint file_path 0 [Print (lit "[green]‚úì Code executed successfully![/green]")]).
    { unfold fix_footprint. cbn. repeat split; try lia. constructor. }
    destruct (Z.eqb code 0); run_m.
    + destruct (markup_error env _) as [rejected|]; run_m;
        intros [= _ <-]; st_simpl; rewrite Hfirst, <- !app_assoc;
        (eexists; split; [reflexivity|]);
        replace (S remaining) with (1 + 0 + remaining)%nat by lia;
        rewrite <- ?app_assoc;
        match goal with |- fix_footprint _ _ ?l => rewrite <- (app_nil_r l) end;
        (apply fix_footprint_app; [|apply fix_footprint_nil]);
        (apply fix_footprint_app; [exact Hfoot1|]); [exact Hquiet|].
      unfold fix_footprint. cbn. repeat split; try lia. constructor.
    + destruct (apply_fix env file_path stderr s1) as [[[]|e|] s2] eqn:Hfix;
        apply apply_fix_footprint in Hfix as (second & Hsecond & Hsp & Hllm & Hwr).
      * intros Hrest. apply IH in Hrest as (rest & Hrest & Hfoot3).
        exists (first ++ second ++ rest). split.
        -- rewrite Hrest, Hsecond, Hfirst, <- !app_assoc. reflexivity.
        -- destruct Hfoot1 as (Hs1 & Hl1 & Hw1). destruct Hfoot3 as (Hs3 & Hl3 & Hw3).
           unfold fix_footprint, written_paths in *.
           rewrite !List.filter_app, !length_app, !omap_app, Hsp, Hl1'.
           cbn [length]. split; [lia|]. split; [lia|].
           rewrite !Forall_app. auto.
      * intros [= _ <-]. exists (first ++ second). split.
        -- rewrite Hsecond, Hfirst, <- !app_assoc. reflexivity.
        -- destruct Hfoot1 as (Hs1 & Hl1 & Hw1).
           unfold fix_footprint, written_paths in *.
           rewrite !List.filter_app, !length_app, !omap_app, Hsp, Hl1'.
           cbn [length]. split; [lia|]. split; [lia|].
           rewrite !Forall_app. auto.
      * intros [= _ <-]. exists (first ++ second). split.
        -- rewrite Hsecond, Hfirst, <- !app_assoc. reflexivity.
        -- destruct Hfoot1 as (Hs1 & Hl1 & Hw1).
           unfold fix_footprint, written_paths in *.
           rewrite !List.filter_app, !length_app, !omap_app, Hsp, Hl1'.
           cbn [length]. split; [lia|]. split; [lia|].
           rewrite !Forall_app. auto.
Qed.

(** X13. Whatever the subprocess, the model and the file system do, the fix
    loop starts at most three subprocesses, asks the model at most three
    times, and writes to no file other than the one it was given and its
    backup. *)
Theorem fix_loop_is_bounded (file_path : pystr) (s : state World)
    (r : result bool) (s' : state World) :
  fix_errors_loop env file_path s = (r, s') →
  ∃ later,
    trace s' = trace s ++ later
    ∧ (length (List.filter is_spawn later) ≤ 3)%nat
    ∧ (length (List.filter is_llm_call later) ≤ 3)%nat
    ∧ Forall (fun path => path = file_path ∨ path = file_path ++ lit ".backup")
             (written_paths later).
Proof. apply fix_attempts_footprint. Qed.

(** Collaborators that leave the files alone. *)
Hypothesis subprocess_keeps_files :
  ∀ args o, files (snd (subprocess_run env args o)) = files o.
Hypothesis llm_keeps_files :
  ∀ prompt o, files (snd (llm env prompt o)) = files o.

Lemma run_code_files (file_path : pystr) (s : state World)
    (r : result (pystr * pystr * Z)) (s' : state World) :
  run_code env file_path s = (r, s') →
  files (ext s') = files (ext s) ∧ write_events (trace s') = write_events (trace s).
Proof.
  unfold run_code. destruct (endswith _ file_path); run_m.
  - pose proof (subprocess_keeps_files [lit "python"; file_path] (ext s)) as Hkeep.
    destruct (subprocess_run env _ (ext s)) as [[stdout stderr code| |e] o];
      intros [= _ <-]; st_simpl; (split; [exact Hkeep|]);
      unfold write_events; rewrite omap_app; cbn [omap]; apply app_nil_r.
  - intros [= _ <-]. split; reflexivity.
Qed.

(** One attempt that is followed by another, or by the final message. *)
Lemma failed_attempt (remaining attempt : nat) (file_path data : pystr)
    (s : state World) (b : bool) (s' : state World) :
  fix_attempts env (S remaining) attempt file_path s = (Ret b, s') →
  files (ext s) !! file_path = Some data →
  (b = true ∧ write_events (trace s') = write_events (trace s))
  ∨ ∃ answer s2,
      fix_attempts env remaining (S attempt) file_path s2 = (Ret b, s')
      ∧ files (ext s2)
        = <[file_path := extract_code answer]>
            (<[file_path ++ lit ".backup" := universal_newlines data]> (files (ext s)))
      ∧ write_events (trace s2)
        = write_events (trace s)
          ++ [(file_path ++ lit ".backup", universal_newlines data);
              (file_path, extract_code answer)].
Proof.
  cbn [fix_attempts]. run_m.
  match goal with
  | |- context [run_code env file_path ?s0] =>
    destruct (run_code_returns file_path s0) as (stdout & stderr & code & s1 & Hrun)
  end.
  rewrite Hrun.
  apply run_code_files in Hrun as [Hfiles Hwrites]. revert Hfiles Hwrites. st_simpl.
  unfold write_events at 2. rewrite omap_app. cbn [omap]. rewrite app_nil_r.
  fold (write_events (trace s)). intros Hfiles Hwrites Hrest Hdata.
  destruct (Z.eqb code 0); revert Hrest; run_m.
  - destruct (markup_error env _) as [rejected|]; run_m; [discriminate|].
    intros [= <- <-]. left. split; [reflexivity|]. st_simpl.
    unfold write_events in *. rewrite !omap_app. cbn [omap]. rewrite !app_nil_r.
    exact Hwrites.
  - unfold apply_fix, read_file, write_file. run_m.
    destruct (markup_error env _) as [rejected|]; run_m; [discriminate|].
    rewrite Hfiles, Hdata. run_m.
    pose proof (llm_keeps_files (fix_prompt stderr (universal_newlines data)) (ext s1))
      as Hkeep.
    destruct (llm env _ (ext s1)) as [[answer|e|] o]; run_m; try discriminate.
    intros Hrest. right. eexists answer, _. split; [exact Hrest|]. st_simpl.
    cbn [snd] in Hkeep. rewrite Hkeep, Hfiles. split; [reflexivity|].
    unfold write_events in *. rewrite !omap_app. cbn [omap].
    rewrite !app_nil_r, Hwrites, <- !app_assoc. reflexivity.
Qed.

(** X14. When the loop gives up ([False] after three attempts), three fixes
    were written over the file, and the backup was overwritten each time with
    what the loop had just read from the file, that is, what the file held
    with its line endings translated to line feeds: at the end the file holds
    the third fix and the backup holds the second one as it was read back, so
    the content the file had when the loop started is on disk no more (unless
    a fix reproduced it). *)
Theorem exhausted_fix_loop_backup (file_path original : pystr)
    (s s' : state World) :
  files (ext s) !! file_path = Some original →
  fix_errors_loop env file_path s = (Ret false, s') →
  ∃ fix1 fix2 fix3,
    write_events (trace s')
    = write_events (trace s)
      ++ [(file_path ++ lit ".backup", universal_newlines original); (file_path, fix1);
          (file_path ++ lit ".backup", universal_newlines fix1); (file_path, fix2);
          (file_path ++ lit ".backup", universal_newlines fix2); (file_path, fix3)]
    ∧ files (ext s') !! file_path = Some fix3
    ∧ files (ext s') !! (file_path ++ lit ".backup") = Some (universal_newlines fix2).
Proof.
  intros Hdata Hloop. unfold fix_errors_loop, max_retries in Hloop.
  destruct (failed_attempt _ _ _ _ _ _ _ Hloop Hdata)
    as [[? _]|(a1 & s1 & Hloop1 & Hfiles1 & Hwrites1)]; [discriminate|].
  assert (Hdata1 : files (ext s1) !! file_path = Some (extract_code a1)).
  { rewrite Hfiles1. apply lookup_insert_eq. }
  destruct (failed_attempt _ _ _ _ _ _ _ Hloop1 Hdata1)
    as [[? _]|(a2 & s2 & Hloop2 & Hfiles2 & Hwrites2)]; [discriminate|].
  assert (Hdata2 : files (ext s2) !! file_path = Some (extract_code a2)).
  { rewrite Hfiles2. apply lookup_insert_eq. }
  destruct (failed_attempt _ _ _ _ _ _ _ Hloop2 Hdata2)
    as [[? _]|(a3 & s3 & Hloop3 & Hfiles3 & Hwrites3)]; [discriminate|].
  revert Hloop3. cbn [fix_attempts]. run_m. intros [= <-]. st_simpl.
  exists (extract_code a1), (extract_code a2), (extract_code a3).
  split; [|split].
  - unfold write_events at 1. rewrite omap_app. cbn [omap]. rewrite app_nil_r.
    fold (write_events (trace s3)).
    rewrite Hwrites3, Hwrites2, Hwrites1, <- !app_assoc. reflexivity.
  - rewrite Hfiles3. apply lookup_insert_eq.
  - rewrite Hfiles3. rewrite lookup_insert_ne by (apply not_eq_sym, backup_path_differs).
    apply lookup_insert_eq.
Qed.

End FixLoop.

Section UnsupportedFile.

Context {World : Type} (env : Env World).

Lemma unsupported_attempts (file_path : pystr) (remaining : nat) :
  endswith (lit ".py") file_path = false →
  ∀ attempt (s : state World) r s',
    fix_attempts env remaining attempt file_path s = (r, s') →
    r ≠ Ret true
    ∧ ∃ later, trace s' = trace s ++ later ∧ List.filter is_spawn later = [].
Proof.
  intros Hpy. induction remaining as [|remaining IH]; intros attempt s r s';
    cbn [fix_attempts]; run_m.
  - intros [= <- <-]. split; [discriminate|]. st_simpl. eexists. split; reflexivity.
  - unfold run_code. rewrite Hpy. run_m.
    replace (1 =? 0)%Z with false by reflexivity.
    destruct (apply_fix env file_path (lit "Unsupported file type") _)
      as [[[]|e|] s1] eqn:Hfix;
      apply apply_fix_footprint in Hfix as (second & Hsecond & Hsp & _).
    + intros Hrest. apply IH in Hrest as (Hr & rest & Hrest & Hsp').
      split; [exact Hr|]. revert Hsecond. st_simpl. intros Hsecond.
      eexists. rewrite Hrest, Hsecond, <- !app_assoc. split; [reflexivity|].
      rewrite !List.filter_app, Hsp, Hsp'. reflexivity.
    + intros [= <- <-]. split; [discriminate|]. revert Hsecond. st_simpl. intros Hsecond.
      eexists. rewrite Hsecond, <- !app_assoc. split; [reflexivity|].
      rewrite !List.filter_app, Hsp. reflexivity.
    + intros [= <- <-]. split; [discriminate|]. revert Hsecond. st_simpl. intros Hsecond.
      eexists. rewrite Hsecond, <- !app_assoc. split; [reflexivity|].
      rewrite !List.filter_app, Hsp. reflexivity.
Qed.

Lemma unsupported_first_call (file_path data : pystr) (remaining attempt : nat)
    (s : state World) (r : result bool) (s' : state World) :
  let prompt := fix_prompt (lit "Unsupported file type") (universal_newlines data) in
  endswith (lit ".py") file_path = false →
  renders env (PrintPanel (lit "Unsupported file type") (lit "Error")) →
  files (ext s) !! file_path = Some data →
  fix_attempts env (S remaining) attempt file_path s = (r, s') →
  ∃ later others,
    trace s' = trace s ++ later
    ∧ List.filter is_llm_call later = LlmCall prompt :: others
    ∧ ∀ answer o,
        llm env prompt (ext s) = (Ret answer, o) →
        ∃ more,
          write_events later
          = [(file_path ++ lit ".backup", universal_newlines data);
             (file_path, extract_code answer)] ++ more.
Proof.
  intros prompt Hpy Hrenders Hdata. subst prompt. unfold renders in Hrenders.
  cbn [fix_attempts]. run_m.
  unfold run_code. rewrite Hpy. run_m. replace (1 =? 0)%Z with false by reflexivity.
  unfold apply_fix at 1, read_file. run_m. rewrite Hrenders. run_m. rewrite Hdata. run_m.
  destruct (llm env _ _) as [[answer|e|] o] eqn:Hllm.
  - run_m. unfold write_file. run_m. intros Hrest.
    apply fix_attempts_footprint in Hrest as (l & Hl & _).
    revert Hl. st_simpl. rewrite <- !app_assoc. intros Hl.
    eexists _, _. split; [exact Hl|]. split.
    + cbn [app List.filter is_llm_call]. reflexivity.
    + intros answer' o' [= <- <-]. eexists.
      unfold write_events. cbn [app omap]. reflexivity.
  - run_m. intros [= _ <-]. st_simpl. rewrite <- !app_assoc.
    eexists _, _. split; [reflexivity|]. split.
    + cbn [app List.filter is_llm_call]. reflexivity.
    + intros answer' o' [=].
  - run_m. intros [= _ <-]. st_simpl. rewrite <- !app_assoc.
    eexists _, _. split; [reflexivity|]. split.
    + cbn [app List.filter is_llm_call]. reflexivity.
    + intros answer' o' [=].
Qed.

(** X15. On a path that does not end in [.py] the fix loop never runs
    anything and never reports success; yet, when the file exists and the
    console shows the error panel, it asks the plain model to fix the error
    "Unsupported file type" in the text read from the file, and, when the
    model answers, it goes on to write that text to the backup and the code
    extracted from the answer over the file. *)
Theorem fix_loop_on_unsupported_file (file_path data : pystr) (s : state World)
    (r : result bool) (s' : state World) :
  let prompt := fix_prompt (lit "Unsupported file type") (universal_newlines data) in
  endswith (lit ".py") file_path = false →
  fix_errors_loop env file_path s = (r, s') →
  r ≠ Ret true
  ∧ ∃ later,
      trace s' = trace s ++ later
      ∧ List.filter is_spawn later = []
      ∧ (renders env (PrintPanel (lit "Unsupported file type") (lit "Error")) →
         files (ext s) !! file_path = Some data →
         (∃ others, List.filter is_llm_call later = LlmCall prompt :: others)
         ∧ ∀ answer o,
             llm env prompt (ext s) = (Ret answer, o) →
             ∃ more,
               write_events later
               = [(file_path ++ lit ".backup", universal_newlines data);
                  (file_path, extract_code answer)] ++ more).
Proof.
  intros prompt Hpy Hloop.
  destruct (unsupported_attempts file_path max_retries Hpy 1%nat s r s' Hloop)
    as (Hr & later & Htrace & Hspawn).
  split; [exact Hr|]. exists later. split; [exact Htrace|]. split; [exact Hspawn|].
  intros Hrenders Hdata.
  destruct (unsupported_first_call file_path data 2 1 s r s' Hpy Hrenders Hdata Hloop)
    as (later' & others & Htrace' & Hcalls & Hwrites).
  rewrite Htrace in Htrace'. apply app_inv_head in Htrace'. subst later'.
  split; [exists others; exact Hcalls | exact Hwrites].
Qed.

End UnsupportedFile.

Lemma fix_loop_is_bounded_witness :
  ∃ later,
    trace (snd (fix_errors_loop Sample.env (lit "calc.py") Sample.initial))
    = trace Sample.initial ++ later
    ∧ (length (List.filter is_llm_call later) ≤ 3)%nat.
Proof.
  destruct (fix_loop_is_bounded Sample.env (lit "calc.py") Sample.initial _ _
              (surjective_pairing _)) as (later & Htrace & _ & Hcalls & _).
  exists later. split; [exact Htrace | exact Hcalls].
Defined.

Lemma exhausted_fix_loop_backup_witness :
  ∃ fix2,
    files (ext (snd (fix_errors_loop Sample.env (lit "calc.py") Sample.initial)))
      !! lit "calc.py.backup" = Some fix2.
Proof.
  destruct (exhausted_fix_loop_backup Sample.env
              (fun _ _ => eq_refl) (fun _ _ => eq_refl)
              (lit "calc.py") (lit "print(1/0)") Sample.initial
              (snd (fix_errors_loop Sample.env (lit "calc.py") Sample.initial)))
    as (fix1 & fix2 & fix3 & _ & _ & Hbackup);
    [vm_compute; reflexivity | vm_compute; reflexivity |].
  exists (universal_newlines fix2). rewrite <- Hbackup. f_equal.
Defined.

Lemma fix_loop_on_unsupported_file_witness :
  let s0 := set_files {[ lit "notes.txt" := lit "shopping list" ]} Sample.initial in
  fst (fix_errors_loop Sample.env (lit "notes.txt") s0) ≠ Ret true
  ∧ ∃ later more,
      trace (snd (fix_errors_loop Sample.env (lit "notes.txt") s0)) = trace s0 ++ later
      ∧ write_events later
        = [(lit "notes.txt.backup", lit "shopping list");
           (lit "notes.txt", lit "print(1)")] ++ more.
Proof.
  intros s0.
  destruct (fix_loop_on_unsupported_file Sample.env (lit "notes.txt")
              (lit "shopping list") s0 _ _ eq_refl (surjective_pairing _))
    as (Hr & later & Htrace & _ & Hasks).
  split; [exact Hr|]. exists later.
  destruct Hasks as [_ Hwrites]; [vm_compute; reflexivity | vm_compute; reflexivity |].
  edestruct Hwrites as (more & Hmore); [vm_compute; reflexivity|].
  exists more. split; [exact Htrace|]. rewrite Hmore. vm_compute. reflexivity.
Defined.

(** ** The code extracted from the answer of the model *)

Lemma startswith_app (p s t : pystr) :
  startswith p s = true → startswith p (s ++ t) = true.
Proof.
  revert s. induction p as [|a p IH]; intros [|b s]; simpl; try reflexivity; try discriminate.
  intros H. apply andb_prop in H as [Hab H]. rewrite Hab, (IH _ H). reflexivity.
Qed.

Lemma startswith_prefix (p q s : pystr) :
  startswith (p ++ q) s = true → startswith p s = true.
Proof.
  revert s. induction p as [|a p IH]; intros [|b s]; simpl; try reflexivity; try discriminate.
  intros H. apply andb_prop in H as [Hab H]. rewrite Hab, (IH _ H). reflexivity.
Qed.

Lemma contains_prefix (p q s : pystr) :
  contains (p ++ q) s = true → contains p s = true.
Proof.
  induction s as [|c s IH]; cbn [contains]; intros H; apply orb_prop in H as [H|H].
  - rewrite (startswith_prefix _ _ _ H). reflexivity.
  - discriminate.
  - rewrite (startswith_prefix _ _ _ H). reflexivity.
  - rewrite (IH H). apply orb_true_r.
Qed.

Lemma contains_app_r (sub s t : pystr) :
  contains sub s = true → contains sub (s ++ t) = true.
Proof.
  induction s as [|c s IH]; cbn [contains app]; intros H; apply orb_prop in H as [H|H].
  - apply (startswith_app _ _ t) in H. cbn [app] in H.
    destruct t; cbn [contains]; rewrite H; reflexivity.
  - discriminate.
  - apply (startswith_app _ _ t) in H. cbn [app] in H. rewrite H. reflexivity.
  - rewrite (IH H). apply orb_true_r.
Qed.

Lemma contains_app_l (sub s t : pystr) :
  contains sub t = true → contains sub (s ++ t) = true.
Proof.
  intros H. induction s as [|c s IH]; [exact H|].
  cbn [contains app]. rewrite IH. apply orb_true_r.
Qed.

Lemma lstrip_suffix (s : pystr) : ∃ a, s = a ++ lstrip s.
Proof.
  induction s as [|c s [a IH]]; [exists []; reflexivity|]. cbn [lstrip].
  destruct (is_space c); [|exists []; reflexivity].
  exists (c :: a). cbn [app]. rewrite <- IH. reflexivity.
Qed.

(** [s.strip()] is a part of [s]. *)
Lemma strip_infix (s : pystr) : ∃ a b, s = a ++ strip s ++ b.
Proof.
  unfold strip. destruct (lstrip_suffix s) as [a Ha].
  destruct (lstrip_suffix (rev (lstrip s))) as [b Hb].
  exists a, (rev b). rewrite <- rev_app_distr, <- Hb, rev_involutive. exact Ha.
Qed.

Lemma contains_strip (sub s : pystr) :
  contains sub (strip s) = true → contains sub s = true.
Proof.
  intros H. destruct (strip_infix s) as (a & b & Hs). rewrite Hs.
  apply contains_app_l, contains_app_r, H.
Qed.

Lemma no_match_contains (sep a : pystr) :
  sep ≠ [] → no_match sep a [] = true → contains sep a = false.
Proof.
  intros Hsep. induction a as [|c a IH]; cbn [no_match contains].
  - intros _. destruct sep; [congruence | reflexivity].
  - rewrite app_nil_r. intros H. apply andb_prop in H as [Hhere Hrest].
    apply negb_true_iff in Hhere. rewrite Hhere, (IH Hrest). reflexivity.
Qed.

Lemma no_match_nil_r (sep a b : pystr) :
  no_match sep a b = true → no_match sep a [] = true.
Proof.
  induction a as [|c a IH]; cbn [no_match]; [reflexivity|].
  intros H. apply andb_prop in H as [Hhere Hrest]. rewrite (IH Hrest), andb_true_r.
  apply negb_true_iff. apply negb_true_iff in Hhere.
  destruct (startswith sep ((c :: a) ++ [])) eqn:Hs; [|reflexivity].
  rewrite app_nil_r in Hs. apply (startswith_app _ _ b) in Hs. congruence.
Qed.

Lemma no_match_snoc (sep a : pystr) (c : N) (s : pystr) :
  no_match sep a (c :: s) = true → startswith sep (c :: s) = false →
  no_match sep (a ++ [c]) s = true.
Proof.
  intros Ha Hc. induction a as [|x a IH]; cbn [no_match app] in *.
  - rewrite Hc. reflexivity.
  - apply andb_prop in Ha as [Hhere Hrest]. rewrite (IH Hrest), andb_true_r.
    rewrite <- app_assoc. exact Hhere.
Qed.

(** The first piece of a split holds no separator. *)
Lemma split_go_first (sep : pystr) (s : pystr) :
  sep ≠ [] →
  ∀ cur, no_match sep (rev cur) s = true →
         contains sep (nth 0 (split_go sep 0 cur s) []) = false.
Proof.
  intros Hsep. induction s as [|c s IH]; intros cur Hcur; cbn [split_go].
  - cbn [nth]. apply no_match_contains; [exact Hsep | exact Hcur].
  - destruct (startswith sep (c :: s)) eqn:Hhere.
    + cbn [nth]. apply no_match_contains; [exact Hsep|].
      apply (no_match_nil_r _ _ _ Hcur).
    + apply IH. cbn [rev]. apply no_match_snoc; assumption.
Qed.

Lemma split_first (sep s : pystr) :
  sep ≠ [] → contains sep (nth 0 (split sep s) []) = false.
Proof. intros Hsep. apply split_go_first; [exact Hsep | reflexivity]. Qed.

(** X16. What [fix_errors_loop] takes from the answer of the model never
    holds a code fence (three backquotes); an answer without a fence is taken
    as it is; hence extracting twice is extracting once. *)
Theorem extract_code_removes_fences (answer : pystr) :
  contains (lit "```") (extract_code answer) = false
  ∧ (contains (lit "```") answer = false → extract_code answer = answer)
  ∧ extract_code (extract_code answer) = extract_code answer.
Proof.
  assert (Hfence : lit "```" ≠ []) by discriminate.
  assert (Hplain : ∀ a, contains (lit "```") a = false → extract_code a = a).
  { intros a Ha. unfold extract_code. rewrite Ha.
    destruct (contains (lit "```python") a) eqn:Hpy; [|reflexivity].
    change (lit "```python") with (lit "```" ++ lit "python") in Hpy.
    apply contains_prefix in Hpy. congruence. }
  assert (Hnone : contains (lit "```") (extract_code answer) = false).
  { unfold extract_code.
    destruct (contains (lit "```python") answer).
    - destruct (contains _ (strip _)) eqn:H; [|reflexivity].
      apply contains_strip in H. rewrite split_first in H by exact Hfence. discriminate.
    - destruct (contains (lit "```") answer) eqn:Hany; [|exact Hany].
      destruct (contains _ (strip _)) eqn:H; [|reflexivity].
      apply contains_strip in H. rewrite split_first in H by exact Hfence. discriminate. }
  split; [exact Hnone|]. split; [apply Hplain|]. apply Hplain, Hnone.
Qed.

Lemma extract_code_removes_fences_witness :
  extract_code (lit "print(1)") = lit "print(1)".
Proof.
  apply (proj1 (proj2 (extract_code_removes_fences (lit "print(1)")))).
  vm_compute. reflexivity.
Defined.

(** ** Replacing lines of a file *)

Lemma elem_of_rev (c : N) (l : pystr) : c ∈ rev l ↔ c ∈ l.
Proof. rewrite !list_elem_of_In. symmetry. apply in_rev. Qed.

Lemma split_go_lines (s : pystr) :
  ∀ cur, 10 ∉ cur → Forall (fun line => 10 ∉ line) (split_go [10] 0 cur s).
Proof.
  induction s as [|c s IH]; intros cur Hcur; cbn [split_go startswith length Nat.sub].
  - constructor; [|constructor]. rewrite elem_of_rev. exact Hcur.
  - rewrite andb_true_r. destruct (N.eqb_spec 10 c) as [<-|Hne].
    + constructor; [rewrite elem_of_rev; exact Hcur|].
      apply IH. apply not_elem_of_nil.
    + apply IH. rewrite not_elem_of_cons. split; [exact Hne | exact Hcur].
Qed.

(** The lines of a text hold no newline. *)
Lemma split_lines_plain (s : pystr) : Forall (fun line => 10 ∉ line) (split [10] s).
Proof. apply split_go_lines, not_elem_of_nil. Qed.

Lemma split_go_plain (line : pystr) :
  10 ∉ line → ∀ cur rest,
    split_go [10] 0 cur (line ++ rest) = split_go [10] 0 (rev line ++ cur) rest.
Proof.
  induction line as [|c line IH]; intros Hline cur rest; [reflexivity|].
  apply not_elem_of_cons in Hline as [Hc Hline].
  cbn [app split_go startswith]. rewrite andb_true_r.
  destruct (N.eqb_spec 10 c) as [Heq|_]; [congruence|].
  rewrite IH by exact Hline. cbn [rev]. rewrite <- app_assoc. reflexivity.
Qed.

(** Joining lines and splitting again gives the lines back. *)
Lemma split_go_join (lines : list pystr) :
  ∀ line cur,
    Forall (fun line => 10 ∉ line) (line :: lines) →
    split_go [10] 0 cur (join [10] (line :: lines)) = (rev cur ++ line) :: lines.
Proof.
  induction lines as [|next lines IH]; intros line cur Hall;
    apply Forall_cons in Hall as [Hline Hall].
  - cbn [join]. rewrite <- (app_nil_r line) at 1. rewrite split_go_plain by exact Hline.
    cbn [split_go]. rewrite rev_app_distr, rev_involutive. reflexivity.
  - rewrite join_cons by discriminate. rewrite split_go_plain by exact Hline.
    cbn [app split_go startswith length Nat.sub N.eqb Pos.eqb andb].
    rewrite rev_app_distr, rev_involutive. f_equal.
    rewrite (IH next [] Hall). reflexivity.
Qed.

Lemma split_join (lines : list pystr) :
  lines ≠ [] → Forall (fun line => 10 ∉ line) lines → split [10] (join [10] lines) = lines.
Proof.
  destruct lines as [|line lines]; [congruence|]. intros _ Hall.
  unfold split. rewrite split_go_join by exact Hall. reflexivity.
Qed.

Section EditFacts.

Context {World : Type} (env : Env World).

(** X17. [edit_file_interactive] with the choice 2, on an existing file that
    the console displays, for a range 1 <= start <= end <= number of lines
    and a replacement without newline; the lines are those of the text as
    read, that is with every line ending translated to a line feed. The file
    is written once (no backup is made), and its lines afterwards are the
    lines before the range, the replacement as one line, and the lines after
    the range. *)
Theorem edit_replaces_the_range (file_path stored new_lines : pystr) (start stop : nat)
    (s : state World) :
  let content := universal_newlines stored in
  let lines := split [10] content in
  files (ext s) !! file_path = Some stored →
  renders env (ShowFile file_path content) →
  (1 ≤ start)%nat → (start ≤ stop)%nat → (stop ≤ length lines)%nat →
  10 ∉ new_lines →
  ∃ written s',
    edit_file_interactive env file_path
      (ReplaceLines (Z.of_nat start) (Z.of_nat stop) new_lines) s = (Ret tt, s')
    ∧ files (ext s') = <[file_path := written]> (files (ext s))
    ∧ write_events (trace s') = write_events (trace s) ++ [(file_path, written)]
    ∧ split [10] written = take (start - 1) lines ++ [new_lines] ++ drop stop lines.
Proof.
  intros content lines Hfile Hshown Hstart Horder Hstop Hnew.
  unfold renders in Hshown.
  unfold edit_file_interactive, write_file. run_m. rewrite Hfile. run_m.
  fold content. rewrite Hshown. run_m.
  eexists _, _. split; [reflexivity|]. st_simpl. split; [reflexivity|]. split.
  - unfold write_events. rewrite !omap_app. cbn [omap]. rewrite !app_nil_r. reflexivity.
  - unfold replace_lines, assign_slice, slice_index.
    fold lines.
    destruct (Z.ltb_spec (Z.of_nat start - 1) 0) as [Hneg|_]; [lia|].
    destruct (Z.ltb_spec (Z.of_nat stop) 0) as [Hneg|_]; [lia|].
    replace (Z.to_nat (Z.min (Z.of_nat start - 1) (Z.of_nat (length lines))))
      with (start - 1)%nat by lia.
    replace (Z.to_nat (Z.min (Z.of_nat stop) (Z.of_nat (length lines))))
      with stop by lia.
    replace (Nat.max (start - 1) stop) with stop by lia.
    apply split_join.
    + intros Hnil. apply (f_equal length) in Hnil.
      rewrite !length_app in Hnil. cbn [length] in Hnil. lia.
    + pose proof (split_lines_plain content) as Hlines. fold lines in Hlines.
      rewrite !Forall_app. split; [apply Forall_take; exact Hlines|].
      split; [constructor; [exact Hnew | constructor] | apply Forall_drop; exact Hlines].
Qed.

(** X18. Bounds outside the file do not make the edit fail. With a start line
    of 0 the slice starts at index -1, that is at the last line: for every
    end that does not reach past the last line nothing is replaced, and the
    new text is inserted in front of the last line. *)
Theorem edit_with_odd_bounds (content new_lines : pystr) (stop : Z) :
  let lines := split [10] content in
  (stop < Z.of_nat (length lines))%Z → (- Z.of_nat (length lines) < stop)%Z →
  replace_lines content 0 stop new_lines
  = join [10] (take (length lines - 1) lines ++ [new_lines]
               ++ drop (length lines - 1) lines).
Proof.
  intros lines Hstop Hlow. unfold replace_lines, assign_slice, slice_index. fold lines.
  assert (Hlen : (0 < length lines)%nat).
  { pose proof (split_go_nonempty [10] content 0 []) as Hne. fold (split [10] content) in Hne.
    fold lines in Hne. destruct lines; [congruence | cbn [length]; lia]. }
  destruct (Z.ltb_spec (0 - 1) 0) as [_|Hge]; [|lia].
  replace (Z.to_nat (Z.max 0 (0 - 1 + Z.of_nat (length lines))))
    with (length lines - 1)%nat by lia.
  replace (Nat.max (length lines - 1)
             (if (stop <? 0)%Z then Z.to_nat (Z.max 0 (stop + Z.of_nat (length lines)))
              else Z.to_nat (Z.min stop (Z.of_nat (length lines)))))
    with (length lines - 1)%nat; [reflexivity|].
  destruct (Z.ltb_spec stop 0); lia.
Qed.

End EditFacts.

Lemma edit_replaces_the_range_witness :
  ∃ written s',
    edit_file_interactive Sample.env (lit "calc.py") (ReplaceLines 1 1 (lit "print(1)"))
      Sample.windows_file
    = (Ret tt, s')
    ∧ split [10] written = [lit "print(1)"; []].
Proof.
  destruct (edit_replaces_the_range Sample.env (lit "calc.py") (lit "print(1/0)" ++ [13; 10])
              (lit "print(1)") 1 1 Sample.windows_file)
    as (written & s' & Hrun & _ & _ & Hlines);
    [vm_compute; reflexivity | vm_compute; reflexivity | lia | lia | vm_compute; lia
     | rewrite list_elem_of_In; vm_compute; intuition discriminate |].
  exists written, s'. split; [exact Hrun|]. rewrite Hlines. vm_compute. reflexivity.
Defined.

Lemma edit_with_odd_bounds_witness :
  replace_lines (lit "a
b
c") 0 1 (lit "new") = lit "a
b
new
c".
Proof.
  rewrite (edit_with_odd_bounds (lit "a
b
c") (lit "new") 1); [vm_compute; reflexivity | vm_compute; reflexivity | vm_compute; reflexivity].
Defined.

(** ** Direct commands without their argument *)

Section CommandWords.

Context {World : Type} (env : Env World).

(** X19. A direct command of one word whose lower-case form is not [scan],
    [repos] or [help] is answered with "Unknown command" and does nothing
    else: this is what [!run], [!fix], [!read] and [!edit] given without a
    file lead to. When the console rejects the line that names the command
    (the word holds an unmatched closing tag), the command raises what the
    console raised and prints nothing. A command of no word at all does
    nothing. *)
Theorem command_without_argument (cmd first : pystr) (s : state World) :
  (words cmd = [] → handle_direct_command env cmd s = (Ret tt, s))
  ∧ (words cmd = [first] →
     lowered env first ∉ [lit "scan"; lit "repos"; lit "help"] →
     let unknown :=
       Print (lit "[yellow]Unknown command: " ++ lowered env first ++ lit "[/yellow]") in
     handle_direct_command env cmd s
     = match markup_error env unknown with
       | None => (Ret tt, add_trace (Print (lit "[dim]Try: !help[/dim]"))
                            (add_trace unknown s))
       | Some e => (Raise e, s)
       end).
Proof.
  unfold handle_direct_command. split; intros Hwords; rewrite Hwords; [reflexivity|].
  intros Hother. rewrite !not_elem_of_cons in Hother.
  destruct Hother as (Hscan & Hrepos & Hhelp & _).
  rewrite (bool_decide_eq_true_2 ([] = []) eq_refl). cbn [negb]. rewrite !andb_false_r.
  unfold str_eqb at 1 2 3.
  rewrite (bool_decide_eq_false_2 _ Hscan), (bool_decide_eq_false_2 _ Hrepos),
    (bool_decide_eq_false_2 _ Hhelp).
  run_m. destruct (markup_error env _); reflexivity.
Qed.

End CommandWords.

Lemma command_without_argument_witness :
  trace (snd (handle_direct_command Sample.env (lit " Run ") Sample.initial))
  = [Print (lit "[yellow]Unknown command: run[/yellow]");
     Print (lit "[dim]Try: !help[/dim]")]
  ∧ ∃ e, handle_direct_command Sample.env (lit "[/X]") Sample.initial
         = (Raise e, Sample.initial).
Proof.
  split.
  - rewrite (proj2 (command_without_argument Sample.env (lit " Run ") (lit "Run")
                      Sample.initial));
      [vm_compute; reflexivity | vm_compute; reflexivity |].
    rewrite !not_elem_of_cons. repeat split; try discriminate. apply not_elem_of_nil.
  - eexists.
    rewrite (proj2 (command_without_argument Sample.env (lit "[/X]") (lit "[/X]")
                      Sample.initial));
      [vm_compute; reflexivity | vm_compute; reflexivity |].
    rewrite !not_elem_of_cons. repeat split; try discriminate. apply not_elem_of_nil.
Defined.
